(** * Ledger: transaction store, aggregation, sorting and grouping

    A shallow embedding of the state and derived-value layer of the ledger
    application: [src/App.tsx] (store handlers, totals, sorting, grouping by
    day, persistence load), [src/components/StatsChart.tsx] (category
    breakdown, monthly series, net-asset trend), [src/constants.ts] (the
    category catalog) and [src/types.ts] (the data model).

    JavaScript numbers are IEEE-754 binary64 values; they are modelled by
    Rocq's primitive floats.  The aggregation code only adds, subtracts and
    compares numbers, so it is written once over a small [Number] interface
    with two instances: [float] (what the program runs on) and [Z] (exact
    arithmetic on amounts counted in a smallest unit).  Statements that hold
    whatever the arithmetic are proved for every instance; statements that
    need the laws of exact arithmetic state them as a hypothesis
    ([ExactArith]). *)

From Stdlib Require Import ZArith List String Ascii Bool Lia Permutation Sorted DecimalString.
From Stdlib Require Import Floats.PrimFloat Floats.SpecFloat Floats.FloatOps.
From stdpp Require Import gmap strings.
From Stdlib Require DecimalN DecimalFacts Floats.FloatAxioms.

Local Open Scope string_scope.
Local Open Scope list_scope.
Local Open Scope Z_scope.

(* ===================================================================== *)
(** ** Numbers *)
(* ===================================================================== *)

(** The sign of a number as a comparator result is read by
    [Array.prototype.sort]: negative, zero, positive, or NaN. *)
Inductive Sign := SNeg | SZero | SPos | SNaN.

Class Number (num : Type) := {
  zero : num;
  add : num -> num -> num;
  sub : num -> num -> num;
  sign : num -> Sign
}.

Definition sign_of_comparison (c : comparison) : Sign :=
  match c with Lt => SNeg | Eq => SZero | Gt => SPos end.

#[export] Instance Z_Number : Number Z := {|
  zero := 0;
  add := Z.add;
  sub := Z.sub;
  sign := fun x => sign_of_comparison (x ?= 0)
|}.

Definition float_sign (x : float) : Sign :=
  if PrimFloat.ltb x PrimFloat.zero then SNeg
  else if PrimFloat.ltb PrimFloat.zero x then SPos
  else if PrimFloat.eqb x PrimFloat.zero then SZero
  else SNaN.

#[export] Instance float_Number : Number float := {|
  zero := PrimFloat.zero;
  add := PrimFloat.add;
  sub := PrimFloat.sub;
  sign := float_sign
|}.

(** Exact arithmetic: the numbers embed into the integers, and the
    operations are the integers' own. *)
Class ExactArith {num : Type} {N : Number num} (toZ : num -> Z) : Prop := {
  toZ_inj : forall x y, toZ x = toZ y -> x = y;
  toZ_zero : toZ zero = 0;
  toZ_add : forall x y, toZ (add x y) = toZ x + toZ y;
  toZ_sub : forall x y, toZ (sub x y) = toZ x - toZ y;
  toZ_sign : forall x, sign x = sign_of_comparison (toZ x ?= 0)
}.

(* ===================================================================== *)
(** ** Data model ([src/types.ts]) *)
(* ===================================================================== *)

Inductive TransactionType := EXPENSE | INCOME.

Definition TransactionType_eqb (a b : TransactionType) : bool :=
  match a, b with
  | EXPENSE, EXPENSE | INCOME, INCOME => true
  | _, _ => false
  end.

Module Category.
Record t := mk {
  id : string;
  name : string;
  icon : string;
  color : string;
  type : TransactionType
}.
End Category.

Module Transaction.
Record t (num : Type) := mk {
  id : string;
  amount : num;
  categoryId : string;
  date : string;
  note : string;
  type : TransactionType
}.
Arguments mk {num}.
Arguments id {num}.
Arguments amount {num}.
Arguments categoryId {num}.
Arguments date {num}.
Arguments note {num}.
Arguments type {num}.
End Transaction.

Inductive SortOption :=
  DATE_DESC | DATE_ASC | AMOUNT_DESC | AMOUNT_ASC | TYPE_EXPENSE | TYPE_INCOME.

Inductive Language := en | de | zh.

(* ===================================================================== *)
(** ** The category catalog ([src/constants.ts]) *)
(* ===================================================================== *)

Definition EXPENSE_CATEGORIES : list Category.t := [
  Category.mk "food" "Food & Dining" "Utensils" "bg-orange-100 text-orange-600" EXPENSE;
  Category.mk "shopping" "Shopping" "ShoppingBag" "bg-pink-100 text-pink-600" EXPENSE;
  Category.mk "transport" "Transport" "Car" "bg-blue-100 text-blue-600" EXPENSE;
  Category.mk "housing" "Housing" "Home" "bg-indigo-100 text-indigo-600" EXPENSE;
  Category.mk "utilities" "Utilities" "Zap" "bg-yellow-100 text-yellow-600" EXPENSE;
  Category.mk "health" "Health" "HeartPulse" "bg-red-100 text-red-600" EXPENSE;
  Category.mk "entertainment" "Entertainment" "Clapperboard" "bg-purple-100 text-purple-600" EXPENSE;
  Category.mk "education" "Education" "GraduationCap" "bg-cyan-100 text-cyan-600" EXPENSE;
  Category.mk "travel" "Travel" "Plane" "bg-sky-100 text-sky-600" EXPENSE;
  Category.mk "social" "Social" "Gift" "bg-rose-100 text-rose-600" EXPENSE;
  Category.mk "coffee" "Coffee" "Coffee" "bg-amber-100 text-amber-700" EXPENSE;
  Category.mk "tech" "Digital" "Smartphone" "bg-gray-100 text-gray-600" EXPENSE
].

Definition INCOME_CATEGORIES : list Category.t := [
  Category.mk "salary" "Salary" "Briefcase" "bg-emerald-100 text-emerald-600" INCOME;
  Category.mk "investment" "Investment" "BadgeDollarSign" "bg-green-100 text-green-600" INCOME;
  Category.mk "other_income" "Other" "Wallet" "bg-teal-100 text-teal-600" INCOME
].

Definition ALL_CATEGORIES : list Category.t := EXPENSE_CATEGORIES ++ INCOME_CATEGORIES.

(** [ALL_CATEGORIES.find(c => c.id === categoryId)] *)
Definition findCategory (categoryId : string) : option Category.t :=
  List.find (fun c => String.eqb (Category.id c) categoryId) ALL_CATEGORIES.

(* ===================================================================== *)
(** ** The host: strings, [parseFloat], [Date] *)
(* ===================================================================== *)

(** *** Decimal strings *)

Definition digit_val (c : ascii) : option Z :=
  let n := Z.of_nat (nat_of_ascii c) in
  if (48 <=? n) && (n <=? 57) then Some (n - 48) else None.

(** [Number.prototype.toString] on a non-negative integer. *)
Definition nat_string (z : Z) : string := NilZero.string_of_uint (N.to_uint (Z.to_N z)).

Fixpoint zeros (n : nat) : string :=
  match n with O => "" | S n' => String "0" (zeros n') end.

(** [String(n).padStart(width, '0')] *)
Definition padStart (width : nat) (s : string) : string :=
  (zeros (width - String.length s) ++ s)%string.

(** Reads exactly [n] decimal digits. *)
Fixpoint take_digits (n : nat) (s : list ascii) (acc : Z) : option (Z * list ascii) :=
  match n with
  | O => Some (acc, s)
  | S n' =>
      match s with
      | c :: s' =>
          match digit_val c with
          | Some d => take_digits n' s' (10 * acc + d)
          | None => None
          end
      | [] => None
      end
  end.

(** Reads the longest run of decimal digits: its value, its length, the rest. *)
Fixpoint span_digits (s : list ascii) (acc : Z) (len : Z) : Z * Z * list ascii :=
  match s with
  | c :: s' =>
      match digit_val c with
      | Some d => span_digits s' (10 * acc + d) (len + 1)
      | None => (acc, len, s)
      end
  | [] => (acc, len, s)
  end.

(** *** [parseFloat]

    [parseFloat(string)] (ECMA-262, 19.2.4): leading white space is dropped,
    the longest prefix that is a [StrDecimalLiteral] is read, and its
    mathematical value is rounded to the nearest binary64 number (ties to
    even); the result is NaN when no prefix is a literal.  Strings are
    strings of bytes here, so the white space dropped is the ASCII one. *)

Definition is_space (c : ascii) : bool :=
  let n := nat_of_ascii c in
  ((9 <=? n) && (n <=? 13))%nat || (n =? 32)%nat.

Fixpoint trim_start (s : list ascii) : list ascii :=
  match s with
  | c :: s' => if is_space c then trim_start s' else s
  | [] => []
  end.

Fixpoint starts_with (p s : list ascii) : bool :=
  match p, s with
  | [], _ => true
  | a :: p', b :: s' => Ascii.eqb a b && starts_with p' s'
  | _ :: _, [] => false
  end.

(** [ExponentPart], when one follows; 0 otherwise. *)
Definition exponent_part (s : list ascii) : Z :=
  match s with
  | c :: s' =>
      if Ascii.eqb c "e" || Ascii.eqb c "E" then
        match s' with
        | "+"%char :: s'' =>
            let '(v, len, _) := span_digits s'' 0 0 in if len =? 0 then 0 else v
        | "-"%char :: s'' =>
            let '(v, len, _) := span_digits s'' 0 0 in if len =? 0 then 0 else - v
        | _ =>
            let '(v, len, _) := span_digits s' 0 0 in if len =? 0 then 0 else v
        end
      else 0
  | [] => 0
  end.

(** A [StrUnsignedDecimalLiteral] read off the front of [s]: infinity, or
    a decimal [m * 10^e] given as [(m, e)]. *)
Inductive DecimalLiteral := LitInfinity | LitDecimal (m e : Z).

Definition unsigned_literal (s : list ascii) : option DecimalLiteral :=
  if starts_with (list_ascii_of_string "Infinity") s then Some LitInfinity
  else
    let '(ip, il, r1) := span_digits s 0 0 in
    match r1 with
    | "."%char :: r2 =>
        let '(fp, fl, r3) := span_digits r2 ip 0 in
        if (il =? 0) && (fl =? 0) then None
        else Some (LitDecimal fp (exponent_part r3 - fl))
    | _ => if il =? 0 then None else Some (LitDecimal ip (exponent_part r1))
    end.

(** The binary64 number nearest to [m * 10^e], for [m >= 0].  A negative
    exponent is a division: the quotient is taken with 64 bits to spare and
    a sticky bit for the remainder, so that one rounding decides. *)
Definition float_of_decimal (m e : Z) : float :=
  SF2Prim
    (if 0 <=? e then binary_normalize prec emax (m * 10 ^ e) 0 false
     else
       let d := 10 ^ (- e) in
       let s := Z.log2 d + 64 in
       let q := (m * 2 ^ s) / d in
       let r := (m * 2 ^ s) mod d in
       binary_normalize prec emax (2 * q + (if r =? 0 then 0 else 1)) (- s - 1) false).

Definition float_of_literal (l : DecimalLiteral) : float :=
  match l with
  | LitInfinity => infinity
  | LitDecimal m e => float_of_decimal m e
  end.

Definition parseFloat (s : string) : float :=
  let t := trim_start (list_ascii_of_string s) in
  match t with
  | "-"%char :: t' =>
      match unsigned_literal t' with
      | Some l => PrimFloat.opp (float_of_literal l)
      | None => nan
      end
  | "+"%char :: t' =>
      match unsigned_literal t' with
      | Some l => float_of_literal l
      | None => nan
      end
  | _ =>
      match unsigned_literal t with
      | Some l => float_of_literal l
      | None => nan
      end
  end.

(** [isNaN] on a number. *)
Definition isNaN (x : float) : bool := PrimFloat.is_nan x.

(** *** [Date]

    A [Date] object holds a time value: milliseconds since the epoch, an
    integer of magnitude at most 8.64e15, or NaN ([None] here).  The
    calendar is the proleptic Gregorian one (ECMA-262, 21.4.1); day numbers
    and civil dates are converted with the usual era-based arithmetic. *)

Definition msPerDay : Z := 86400000.

Definition Day (t : Z) : Z := t / msPerDay.
Definition TimeWithinDay (t : Z) : Z := t mod msPerDay.

(** Day number of the civil date [y]-[m]-[d], [m] in 1..12. *)
Definition days_from_civil (y m d : Z) : Z :=
  let y' := if m <=? 2 then y - 1 else y in
  let era := y' / 400 in
  let yoe := y' - era * 400 in
  let doy := (153 * (if 2 <? m then m - 3 else m + 9) + 2) / 5 + d - 1 in
  let doe := yoe * 365 + yoe / 4 - yoe / 100 + doy in
  era * 146097 + doe - 719468.

(** Civil date (year, month in 1..12, day of month) of a day number. *)
Definition civil_from_days (z : Z) : Z * Z * Z :=
  let z' := z + 719468 in
  let era := z' / 146097 in
  let doe := z' - era * 146097 in
  let yoe := (doe - doe / 1460 + doe / 36524 - doe / 146096) / 365 in
  let doy := doe - (365 * yoe + yoe / 4 - yoe / 100) in
  let mp := (5 * doy + 2) / 153 in
  let d := doy - (153 * mp + 2) / 5 + 1 in
  let m := if mp <? 10 then mp + 3 else mp - 9 in
  (yoe + era * 400 + (if m <=? 2 then 1 else 0), m, d).

Definition YearFromTime (t : Z) : Z := fst (fst (civil_from_days (Day t))).
(** 0 is January. *)
Definition MonthFromTime (t : Z) : Z := snd (fst (civil_from_days (Day t))) - 1.
Definition DateFromTime (t : Z) : Z := snd (civil_from_days (Day t)).
Definition HourFromTime (t : Z) : Z := TimeWithinDay t / 3600000.
Definition MinFromTime (t : Z) : Z := (TimeWithinDay t / 60000) mod 60.
Definition SecFromTime (t : Z) : Z := (TimeWithinDay t / 1000) mod 60.
Definition msFromTime (t : Z) : Z := t mod 1000.

Definition MakeTime (hour min sec ms : Z) : Z :=
  hour * 3600000 + min * 60000 + sec * 1000 + ms.

(** [month] counts from 0 and may lie outside 0..11. *)
Definition MakeDay (year month date : Z) : Z :=
  days_from_civil (year + month / 12) (month mod 12 + 1) 1 + date - 1.

Definition MakeDate (day time : Z) : Z := day * msPerDay + time.

Definition TimeClip (t : Z) : option Z :=
  if Z.abs t <=? 8640000000000000 then Some t else None.

(** What the program's host decides: the offset of local time
    ([LocalTZA(t, isUTC)], in milliseconds), and how [Date.parse] reads a
    string that is not in the Date Time String Format. *)
Class Host := {
  LocalTZA : Z -> bool -> Z;
  legacyDateParse : string -> option Z
}.

(** A host in a zone with a fixed offset (in milliseconds, east positive)
    that reads the Date Time String Format only. *)
Definition fixedOffsetHost (offset : Z) : Host := {|
  LocalTZA := fun _ _ => offset;
  legacyDateParse := fun _ => None
|}.

Section DateModel.
Context {host : Host}.

Definition LocalTime (t : Z) : Z := t + LocalTZA t true.
Definition UTC (t : Z) : Z := t - LocalTZA t false.

(** The time zone of a date-time string: [Z], an offset in minutes, or
    none (local time). *)
Inductive Zone := ZoneUTC | ZoneOffset (minutes : Z) | ZoneLocal.

Definition expect (c : ascii) (s : list ascii) : option (list ascii) :=
  match s with
  | c' :: s' => if Ascii.eqb c c' then Some s' else None
  | [] => None
  end.

(** [YYYY] or a sign and [YYYYYY]; [-000000] is not a year. *)
Definition iso_year (s : list ascii) : option (Z * list ascii) :=
  match s with
  | "+"%char :: s' => take_digits 6 s' 0
  | "-"%char :: s' =>
      match take_digits 6 s' 0 with
      | Some (y, r) => if y =? 0 then None else Some (- y, r)
      | None => None
      end
  | _ => take_digits 4 s 0
  end.

(** [-MM] and [-DD], each optional; defaults are 1. *)
Definition iso_month_day (s : list ascii) : option (Z * Z * list ascii) :=
  match s with
  | "-"%char :: s1 =>
      match take_digits 2 s1 0 with
      | Some (m, s2) =>
          match s2 with
          | "-"%char :: s3 =>
              match take_digits 2 s3 0 with
              | Some (d, s4) => Some (m, d, s4)
              | None => None
              end
          | _ => Some (m, 1, s2)
          end
      | None => None
      end
  | _ => Some (1, 1, s)
  end.

(** [Z], [+HH:mm], [-HH:mm] or nothing, up to the end of the string. *)
Definition iso_zone (s : list ascii) : option Zone :=
  match s with
  | [] => Some ZoneLocal
  | ["Z"%char] => Some ZoneUTC
  | c :: s1 =>
      if Ascii.eqb c "+" || Ascii.eqb c "-" then
        match take_digits 2 s1 0 with
        | Some (h, s2) =>
            match expect ":" s2 with
            | Some s3 =>
                match take_digits 2 s3 0 with
                | Some (m, []) =>
                    if (h <=? 23) && (m <=? 59) then
                      Some (ZoneOffset ((if Ascii.eqb c "-" then -1 else 1) * (h * 60 + m)))
                    else None
                | _ => None
                end
            | None => None
            end
        | None => None
        end
      else None
  end.

(** [THH:mm], [THH:mm:ss] or [THH:mm:ss.sss], then the zone: the time
    within the day and the zone. *)
Definition iso_time (s : list ascii) : option (Z * Zone) :=
  match take_digits 2 s 0 with
  | Some (h, s1) =>
      match expect ":" s1 with
      | Some s2 =>
          match take_digits 2 s2 0 with
          | Some (mi, s3) =>
              let '(sec, ms, s6) :=
                match s3 with
                | ":"%char :: s4 =>
                    match take_digits 2 s4 0 with
                    | Some (sec, s5) =>
                        match s5 with
                        | "."%char :: s5' =>
                            match take_digits 3 s5' 0 with
                            | Some (ms, r) => (sec, ms, r)
                            | None => (-1, 0, s5)
                            end
                        | _ => (sec, 0, s5)
                        end
                    | None => (-1, 0, s3)
                    end
                | _ => (0, 0, s3)
                end in
              if (0 <=? sec) && (sec <=? 59) && (mi <=? 59)
                 && ((h <=? 23) || ((h =? 24) && (mi =? 0) && (sec =? 0) && (ms =? 0))) then
                match iso_zone s6 with
                | Some z => Some (MakeTime h mi sec ms, z)
                | None => None
                end
              else None
          | None => None
          end
      | None => None
      end
  | None => None
  end.

Definition DaysInMonth (y m : Z) : Z :=
  days_from_civil (y + m / 12) (m mod 12 + 1) 1 - days_from_civil y m 1.

(** The Date Time String Format: the day number, and the time with its
    zone when the string has a time. *)
Definition parseISO (s : list ascii) : option (Z * option (Z * Zone)) :=
  match iso_year s with
  | Some (y, s1) =>
      match iso_month_day s1 with
      | Some (m, d, s2) =>
          if (1 <=? m) && (m <=? 12) && (1 <=? d) && (d <=? DaysInMonth y m) then
            match s2 with
            | [] => Some (MakeDay y (m - 1) d, None)
            | "T"%char :: s3 =>
                match iso_time s3 with
                | Some tz => Some (MakeDay y (m - 1) d, Some tz)
                | None => None
                end
            | _ => None
            end
          else None
      | None => None
      end
  | None => None
  end.

(** [Date.parse]: a date-only string is UTC, a date-time without zone is
    local time. *)
Definition Date_parse (s : string) : option Z :=
  match parseISO (list_ascii_of_string s) with
  | Some (day, None) => TimeClip (MakeDate day 0)
  | Some (day, Some (time, ZoneUTC)) => TimeClip (MakeDate day time)
  | Some (day, Some (time, ZoneOffset mins)) => TimeClip (MakeDate day time - mins * 60000)
  | Some (day, Some (time, ZoneLocal)) => TimeClip (UTC (MakeDate day time))
  | None =>
      match legacyDateParse s with
      | Some t => TimeClip t
      | None => None
      end
  end.

(** [new Date(s).getTime()] *)
Definition getTime (s : string) : option Z := Date_parse s.

(** [new Date(s).getFullYear()], [.getMonth()], [.getDate()]: fields of the
    local time, NaN for an invalid date. *)
Definition getFullYear (s : string) : option Z :=
  option_map (fun t => YearFromTime (LocalTime t)) (Date_parse s).
Definition getMonth (s : string) : option Z :=
  option_map (fun t => MonthFromTime (LocalTime t)) (Date_parse s).
Definition getDate (s : string) : option Z :=
  option_map (fun t => DateFromTime (LocalTime t)) (Date_parse s).

(** [new Date(year, month, 1).getTime()]: the local first of the month.  A
    year in 0..99 is read as 1900 + year by the constructor. *)
Definition firstOfMonth (year month : Z) : option Z :=
  let yr := if (0 <=? year) && (year <=? 99) then 1900 + year else year in
  TimeClip (UTC (MakeDate (MakeDay yr month 1) 0)).

End DateModel.

(** *** Formatting *)

Definition shortMonths : list string :=
  ["Jan"; "Feb"; "Mar"; "Apr"; "May"; "Jun"; "Jul"; "Aug"; "Sep"; "Oct"; "Nov"; "Dec"].

(** The short English name of month [m] (0 is January). *)
Definition shortMonth (m : Z) : string := nth (Z.to_nat m) shortMonths "".

(** The two low digits of the year of the era (year 0 is 1 BC). *)
Definition twoDigitYear (y : Z) : string :=
  padStart 2 (nat_string ((if y <=? 0 then 1 - y else y) mod 100)).

Definition Z_string (z : Z) : string :=
  if z <? 0 then ("-" ++ nat_string (- z))%string else nat_string z.

(** [Date.prototype.toISOString] on a valid time value. *)
Definition toISOString (t : Z) : string :=
  let y := YearFromTime t in
  let year :=
    if (0 <=? y) && (y <=? 9999) then padStart 4 (nat_string y)
    else ((if (y <? 0)%Z then "-" else "+") ++ padStart 6 (nat_string (Z.abs y)))%string in
  (year ++ "-" ++ padStart 2 (nat_string (MonthFromTime t + 1))
        ++ "-" ++ padStart 2 (nat_string (DateFromTime t))
        ++ "T" ++ padStart 2 (nat_string (HourFromTime t))
        ++ ":" ++ padStart 2 (nat_string (MinFromTime t))
        ++ ":" ++ padStart 2 (nat_string (SecFromTime t))
        ++ "." ++ padStart 3 (nat_string (msFromTime t)) ++ "Z")%string.

Section Formatting.
Context {host : Host}.

(** [new Date(s).toLocaleDateString('en-US', { month: 'short', year: '2-digit' })] *)
Definition monthYearLabel (s : string) : string :=
  match getFullYear s, getMonth s with
  | Some y, Some m => (shortMonth m ++ " " ++ twoDigitYear y)%string
  | _, _ => "Invalid Date"
  end.

(** [d.toLocaleDateString('en-US', { month: 'short' })] for the date object
    with time value [tv]. *)
Definition monthLabel (tv : option Z) : string :=
  match tv with
  | Some t => shortMonth (MonthFromTime (LocalTime t))
  | None => "Invalid Date"
  end.

End Formatting.

(* ===================================================================== *)
(** ** [Array.prototype.sort] *)
(* ===================================================================== *)

(** [SortCompare]: the comparator's result decides; NaN counts as +0. *)
Definition SortCompare {A : Type} (comparefn : A -> A -> Sign) (x y : A) : comparison :=
  match comparefn x y with
  | SNeg => Lt
  | SPos => Gt
  | SZero | SNaN => Eq
  end.

(** The sort is stable (ECMA-262 since 2019), so for a consistent
    comparator the result is the one an insertion from the right gives:
    each element goes before the first element it is not greater than. *)
Fixpoint sort_insert {A : Type} (comparefn : A -> A -> Sign) (x : A) (l : list A) : list A :=
  match l with
  | [] => [x]
  | y :: l' =>
      match SortCompare comparefn x y with
      | Gt => y :: sort_insert comparefn x l'
      | _ => x :: l
      end
  end.

Fixpoint Array_sort {A : Type} (comparefn : A -> A -> Sign) (l : list A) : list A :=
  match l with
  | [] => []
  | x :: l' => sort_insert comparefn x (Array_sort comparefn l')
  end.

(** The sign of [a - b] for two time values: they are integers of magnitude
    at most 8.64e15, so the rounded difference has the sign of the exact
    one; NaN when either is NaN. *)
Definition timeDiff (a b : option Z) : Sign :=
  match a, b with
  | Some x, Some y => sign_of_comparison (x ?= y)
  | _, _ => SNaN
  end.

(** [a === b] on numbers that are integers or NaN. *)
Definition strictEq (a b : option Z) : bool :=
  match a, b with
  | Some x, Some y => x =? y
  | _, _ => false
  end.

(** [array.find(p)] followed by a mutation [f] of the object found: the
    array with its first element satisfying [p] updated, or [None] when
    [find] returns [undefined]. *)
Fixpoint updateFirst {A : Type} (p : A -> bool) (f : A -> A) (l : list A) : option (list A) :=
  match l with
  | [] => None
  | x :: l' =>
      if p x then Some (f x :: l')
      else option_map (cons x) (updateFirst p f l')
  end.

(* ===================================================================== *)
(** ** Derived state of [App] ([src/App.tsx]) *)
(* ===================================================================== *)

Module DailyGroup.
Record t (num : Type) := mk {
  date : string;
  transactions : list (Transaction.t num);
  totalExpense : num;
  totalIncome : num
}.
Arguments mk {num}.
Arguments date {num}.
Arguments transactions {num}.
Arguments totalExpense {num}.
Arguments totalIncome {num}.
End DailyGroup.

Section Derived.
Context {num : Type} {N : Number num} {host : Host}.

Definition isIncome (t : Transaction.t num) : bool :=
  TransactionType_eqb (Transaction.type t) INCOME.

Definition isExpense (t : Transaction.t num) : bool :=
  TransactionType_eqb (Transaction.type t) EXPENSE.

(** The reducer [(acc, t) => t.type === INCOME ? acc + t.amount : acc - t.amount]. *)
Definition signedStep (acc : num) (t : Transaction.t num) : num :=
  if isIncome t then add acc (Transaction.amount t) else sub acc (Transaction.amount t).

(** The reducer [(acc, t) => acc + t.amount]. *)
Definition plusStep (acc : num) (t : Transaction.t num) : num :=
  add acc (Transaction.amount t).

(** Lines 133-135. *)
Definition totalBalance (transactions : list (Transaction.t num)) : num :=
  fold_left signedStep transactions zero.

Definition totalIncome (transactions : list (Transaction.t num)) : num :=
  fold_left plusStep (List.filter isIncome transactions) zero.

Definition totalExpense (transactions : list (Transaction.t num)) : num :=
  fold_left plusStep (List.filter isExpense transactions) zero.

(** The comparators of [sortedTransactions] (lines 159-181). *)
Definition byDateAsc (a b : Transaction.t num) : Sign :=
  timeDiff (getTime (Transaction.date a)) (getTime (Transaction.date b)).

Definition byDateDesc (a b : Transaction.t num) : Sign :=
  timeDiff (getTime (Transaction.date b)) (getTime (Transaction.date a)).

Definition byAmountDesc (a b : Transaction.t num) : Sign :=
  sign (sub (Transaction.amount b) (Transaction.amount a)).

Definition byAmountAsc (a b : Transaction.t num) : Sign :=
  sign (sub (Transaction.amount a) (Transaction.amount b)).

Definition byType (first : TransactionType) (a b : Transaction.t num) : Sign :=
  if TransactionType_eqb (Transaction.type a) (Transaction.type b) then byDateDesc a b
  else if TransactionType_eqb (Transaction.type a) first then SNeg else SPos.

Definition comparator (sortOption : SortOption) : Transaction.t num -> Transaction.t num -> Sign :=
  match sortOption with
  | DATE_ASC => byDateAsc
  | AMOUNT_DESC => byAmountDesc
  | AMOUNT_ASC => byAmountAsc
  | TYPE_EXPENSE => byType EXPENSE
  | TYPE_INCOME => byType INCOME
  | DATE_DESC => byDateDesc
  end.

(** The value of [sortedTransactions]: the contents of the sorted copy. *)
Definition sortedList (sortOption : SortOption) (transactions : list (Transaction.t num))
  : list (Transaction.t num) :=
  Array_sort (comparator sortOption) transactions.

(** Arrays are objects: the store's list and the sorted one live in a heap
    of arrays, addressed by index.  [[...transactions]] allocates a copy;
    [sorted.sort(f)] sorts the array at its address and returns that
    address.  A computation fails only on an address that is not allocated. *)
Local Abbreviation Heap := (list (list (Transaction.t num))).

Definition spread (r : nat) (h : Heap) : option (nat * Heap) :=
  match h !! r with
  | Some a => Some (length h, h ++ [a])
  | None => None
  end.

Definition sortInPlace (comparefn : Transaction.t num -> Transaction.t num -> Sign)
    (r : nat) (h : Heap) : option (nat * Heap) :=
  match h !! r with
  | Some a => Some (r, <[r := Array_sort comparefn a]> h)
  | None => None
  end.

Definition sortedTransactions (sortOption : SortOption) (transactions : nat) (h : Heap)
  : option (nat * Heap) :=
  match spread transactions h with
  | Some (sorted, h1) => sortInPlace (comparator sortOption) sorted h1
  | None => None
  end.

(** [groupedTransactions] (lines 185-213). *)
Definition sameDay (d1 d2 : string) : bool :=
  strictEq (getFullYear d1) (getFullYear d2)
  && strictEq (getMonth d1) (getMonth d2)
  && strictEq (getDate d1) (getDate d2).

(** [group.transactions.push(t)] and the update of the group's totals. *)
Definition pushTransaction (t : Transaction.t num) (group : DailyGroup.t num) : DailyGroup.t num :=
  DailyGroup.mk (DailyGroup.date group)
    (DailyGroup.transactions group ++ [t])
    (if isExpense t then add (DailyGroup.totalExpense group) (Transaction.amount t)
     else DailyGroup.totalExpense group)
    (if isExpense t then DailyGroup.totalIncome group
     else add (DailyGroup.totalIncome group) (Transaction.amount t)).

Definition groupStep (groups : list (DailyGroup.t num)) (t : Transaction.t num)
  : list (DailyGroup.t num) :=
  let date := Transaction.date t in
  match updateFirst (fun g => sameDay (DailyGroup.date g) date) (pushTransaction t) groups with
  | Some groups' => groups'
  | None => groups ++ [pushTransaction t (DailyGroup.mk date [] zero zero)]
  end.

Definition groupedTransactions (sortedTransactions : list (Transaction.t num))
  : list (DailyGroup.t num) :=
  fold_left groupStep sortedTransactions [].

End Derived.

(* ===================================================================== *)
(** ** [StatsChart] ([src/components/StatsChart.tsx]) *)
(* ===================================================================== *)

Module ExpenseEntry.
Record t (num : Type) := mk { name : string; value : num; color : string }.
Arguments mk {num}.
Arguments name {num}.
Arguments value {num}.
Arguments color {num}.
End ExpenseEntry.

Module MonthEntry.
Record t (num : Type) := mk {
  month : string;
  income : num;
  expense : num;
  surplus : num;
  sortKey : option Z
}.
Arguments mk {num}.
Arguments month {num}.
Arguments income {num}.
Arguments expense {num}.
Arguments surplus {num}.
Arguments sortKey {num}.
End MonthEntry.

Module NetAssetPoint.
Record t (num : Type) := mk { month : string; netAsset : num }.
Arguments mk {num}.
Arguments month {num}.
Arguments netAsset {num}.
End NetAssetPoint.

Section StatsChart.
Context {num : Type} {N : Number num} {host : Host}.
(** The translation function the component receives as a prop. *)
Variable t : string -> string.

Definition parseColorClass (colorClass : string) : string := "#8884d8".

(** [t(`cat_${category.id}`) || category.name] *)
Definition catName (category : Category.t) : string :=
  let s := t ("cat_" ++ Category.id category)%string in
  if String.eqb s "" then Category.name category else s.

(** The reducer of [expenseData] (lines 71-83). *)
Definition expenseStep (acc : list (ExpenseEntry.t num)) (curr : Transaction.t num)
  : list (ExpenseEntry.t num) :=
  match findCategory (Transaction.categoryId curr) with
  | None => acc
  | Some category =>
      let catName := catName category in
      match updateFirst (fun i => String.eqb (ExpenseEntry.name i) catName)
              (fun existing =>
                 ExpenseEntry.mk (ExpenseEntry.name existing)
                   (add (ExpenseEntry.value existing) (Transaction.amount curr))
                   (ExpenseEntry.color existing))
              acc with
      | Some acc' => acc'
      | None =>
          acc ++ [ExpenseEntry.mk catName (Transaction.amount curr)
                    (parseColorClass (Category.color category))]
      end
  end.

Definition byValueDesc (a b : ExpenseEntry.t num) : Sign :=
  sign (sub (ExpenseEntry.value b) (ExpenseEntry.value a)).

Definition expenseData (transactions : list (Transaction.t num)) : list (ExpenseEntry.t num) :=
  Array_sort byValueDesc (fold_left expenseStep (List.filter isExpense transactions) []).

(** [monthlyData] (lines 88-112).  [data] is an object keyed by the month
    label; the labels are never array indices, so its values are listed in
    the order the keys were added. *)
Definition monthSortKey (date : string) : option Z :=
  match getFullYear date, getMonth date with
  | Some y, Some m => firstOfMonth y m
  | _, _ => None
  end.

Definition hasKey {A : Type} (k : string) (data : list (string * A)) : bool :=
  existsb (fun e => String.eqb (fst e) k) data.

(** [data[k]] updated by [f]. *)
Definition updateKey {A : Type} (k : string) (f : A -> A) (data : list (string * A))
  : list (string * A) :=
  List.map (fun e => if String.eqb (fst e) k then (fst e, f (snd e)) else e) data.

Definition recordTransaction (tx : Transaction.t num) (e : MonthEntry.t num) : MonthEntry.t num :=
  if isIncome tx then
    MonthEntry.mk (MonthEntry.month e)
      (add (MonthEntry.income e) (Transaction.amount tx))
      (MonthEntry.expense e)
      (add (MonthEntry.surplus e) (Transaction.amount tx))
      (MonthEntry.sortKey e)
  else
    MonthEntry.mk (MonthEntry.month e)
      (MonthEntry.income e)
      (add (MonthEntry.expense e) (Transaction.amount tx))
      (sub (MonthEntry.surplus e) (Transaction.amount tx))
      (MonthEntry.sortKey e).

Definition monthlyStep (data : list (string * MonthEntry.t num)) (tx : Transaction.t num)
  : list (string * MonthEntry.t num) :=
  let date := Transaction.date tx in
  let monthKey := monthYearLabel date in
  let sortKey := monthSortKey date in
  let data1 :=
    if hasKey monthKey data then data
    else data ++ [(monthKey, MonthEntry.mk monthKey zero zero zero sortKey)] in
  updateKey monthKey (recordTransaction tx) data1.

Definition bySortKey (a b : MonthEntry.t num) : Sign :=
  timeDiff (MonthEntry.sortKey a) (MonthEntry.sortKey b).

Definition monthlyData (transactions : list (Transaction.t num)) : list (MonthEntry.t num) :=
  Array_sort bySortKey (List.map snd (fold_left monthlyStep transactions [])).

(** [netAssetData] (lines 115-143), for the year [currentYear]. *)
Definition beforeYear (currentYear : Z) (tx : Transaction.t num) : bool :=
  match getFullYear (Transaction.date tx) with
  | Some y => y <? currentYear
  | None => false
  end.

Definition inMonth (currentYear monthIndex : Z) (tx : Transaction.t num) : bool :=
  strictEq (getFullYear (Transaction.date tx)) (Some currentYear)
  && strictEq (getMonth (Transaction.date tx)) (Some monthIndex).

Definition months : list Z := [0; 1; 2; 3; 4; 5; 6; 7; 8; 9; 10; 11].

Definition initialBalance (transactions : list (Transaction.t num)) (currentYear : Z) : num :=
  fold_left signedStep (List.filter (beforeYear currentYear) transactions) zero.

Definition monthlySurplus (transactions : list (Transaction.t num))
    (currentYear monthIndex : Z) : num :=
  fold_left signedStep (List.filter (inMonth currentYear monthIndex) transactions) zero.

(** [months.map(...)] with the captured variable [runningBalance]. *)
Fixpoint netAssetFrom (transactions : list (Transaction.t num)) (currentYear : Z)
    (months : list Z) (runningBalance : num) : list (NetAssetPoint.t num) :=
  match months with
  | [] => []
  | monthIndex :: rest =>
      let monthName := monthLabel (firstOfMonth currentYear monthIndex) in
      let runningBalance' :=
        add runningBalance (monthlySurplus transactions currentYear monthIndex) in
      NetAssetPoint.mk monthName runningBalance'
        :: netAssetFrom transactions currentYear rest runningBalance'
  end.

Definition netAssetData (transactions : list (Transaction.t num)) (currentYear : Z)
  : list (NetAssetPoint.t num) :=
  netAssetFrom transactions currentYear months (initialBalance transactions currentYear).

End StatsChart.

(* ===================================================================== *)
(** ** Store handlers and persistence ([src/App.tsx]) *)
(* ===================================================================== *)

(** How a handler ends: normally, or with an exception thrown. *)
Inductive Completion (A : Type) := Normal (a : A) | Throw (error : string).
Arguments Normal {A}.
Arguments Throw {A}.

(** The form state read by [handleSaveTransaction]. *)
Module Form.
Record t := mk {
  amount : string;
  note : string;
  selectedCategory : string;
  type : TransactionType;
  date : string;
  editingTransaction : option (Transaction.t float)
}.
End Form.

Module AppState.
Record t := mk {
  transactions : list (Transaction.t float);
  budgets : gmap string float;
  savingsGoal : float;
  language : Language
}.
End AppState.

Section Store.
Context {host : Host}.

(** [handleSaveTransaction] (lines 344-375), as the update of the
    [transactions] state; [now] is [Date.now()]. *)
Definition handleSaveTransaction (form : Form.t) (now : Z)
    (prev : list (Transaction.t float)) : Completion (list (Transaction.t float)) :=
  if String.eqb (Form.amount form) "" || PrimFloat.leb (parseFloat (Form.amount form)) 0%float
  then Normal prev
  else
    match Date_parse (Form.date form) with
    | None => Throw "RangeError: Invalid time value"
    | Some tv =>
        let timestamp := toISOString tv in
        match Form.editingTransaction form with
        | Some editingTransaction =>
            Normal (List.map (fun t =>
              if String.eqb (Transaction.id t) (Transaction.id editingTransaction) then
                Transaction.mk (Transaction.id t) (parseFloat (Form.amount form))
                  (Form.selectedCategory form) timestamp (Form.note form) (Form.type form)
              else t) prev)
        | None =>
            let newTransaction :=
              Transaction.mk (Z_string now) (parseFloat (Form.amount form))
                (Form.selectedCategory form) timestamp (Form.note form) (Form.type form) in
            Normal (newTransaction :: prev)
        end
    end.

(** The [onChange] handler of a budget input (lines 753-758);
    [value] is [e.target.value]. *)
Definition onBudgetChange (catId value : string) (prev : gmap string float)
  : gmap string float :=
  let val := parseFloat value in
  <[catId := if isNaN val then 0%float else val]> prev.

(** The [onChange] handler of the savings-goal input (lines 820-823): the
    new value of [savingsGoal]. *)
Definition onSavingsGoalChange (value : string) : float :=
  let val := parseFloat value in
  if isNaN val then 0%float else val.

End Store.

Section Persistence.
(** [JSON.parse] on a stored text, read at the type of the state it is
    stored into; [None] when [JSON.parse] throws. *)
Variable JSON_parse_transactions : string -> option (list (Transaction.t float)).
Variable JSON_parse_budgets : string -> option (gmap string float).

(** [localStorage.getItem(key)] when the result is truthy. *)
Definition getItem (localStorage : gmap string string) (key : string) : option string :=
  match localStorage !! key with
  | Some s => if String.eqb s "" then None else Some s
  | None => None
  end.

Definition parseLanguage (s : string) : option Language :=
  if String.eqb s "en" then Some en
  else if String.eqb s "de" then Some de
  else if String.eqb s "zh" then Some zh
  else None.

Definition initialState : AppState.t := AppState.mk [] ∅ 0%float en.

(** The load effect (lines 78-110), run on the initial state. *)
Definition load (localStorage : gmap string string) : AppState.t :=
  let transactions :=
    match getItem localStorage "transactions" with
    | Some savedTransactions =>
        match JSON_parse_transactions savedTransactions with
        | Some v => v
        | None => AppState.transactions initialState
        end
    | None => AppState.transactions initialState
    end in
  let budgets :=
    match getItem localStorage "budgets" with
    | Some savedBudgets =>
        match JSON_parse_budgets savedBudgets with
        | Some v => v
        | None => AppState.budgets initialState
        end
    | None => AppState.budgets initialState
    end in
  let savingsGoal :=
    match getItem localStorage "savingsGoal" with
    | Some savedGoal => parseFloat savedGoal
    | None => AppState.savingsGoal initialState
    end in
  let language :=
    match getItem localStorage "language" with
    | Some savedLanguage =>
        match parseLanguage savedLanguage with
        | Some l => l
        | None => AppState.language initialState
        end
    | None => AppState.language initialState
    end in
  AppState.mk transactions budgets savingsGoal language.

End Persistence.

(* ===================================================================== *)
(** * Specification vocabulary *)
(* ===================================================================== *)

(** The notions the properties are stated with: sums, orders, the groups
    and series of the specification.  The program's own definitions are
    above; the properties relating the two follow. *)

(* ===================================================================== *)
(** ** Sums *)
(* ===================================================================== *)

(** Sum of a list of integers: the specification side of the totals. *)
Fixpoint sumZ (l : list Z) : Z :=
  match l with
  | [] => 0
  | x :: l' => x + sumZ l'
  end.

(** The sum of a list of numbers, added up from the left. *)
Definition sumLeft {num : Type} {N : Number num} (xs : list num) : num :=
  fold_left add xs zero.

Section ExactSums.
Context {num : Type} {N : Number num}.
Variable toZ : num -> Z.

(** The signed amount of a transaction: positive for income. *)
Definition signedZ (t : Transaction.t num) : Z :=
  if isIncome t then toZ (Transaction.amount t) else - toZ (Transaction.amount t).

(** The amount of a transaction, as an integer. *)
Definition amountZ (t : Transaction.t num) : Z := toZ (Transaction.amount t).

End ExactSums.

(* ===================================================================== *)
(** ** Orders *)
(* ===================================================================== *)

(** The comparator does not place [x] after [y]. *)
Definition notAfter {A : Type} (comparefn : A -> A -> Sign) (x y : A) : Prop :=
  SortCompare comparefn x y <> Gt.

Section DateOrders.
Context {num : Type} {N : Number num} {host : Host}.

(** The date of the transaction parses to a time value. *)
Definition validDate (t : Transaction.t num) : Prop :=
  getTime (Transaction.date t) <> None.

(** [a] is dated no earlier than [b]. *)
Definition notEarlier (a b : Transaction.t num) : Prop :=
  exists ta tb, getTime (Transaction.date a) = Some ta
             /\ getTime (Transaction.date b) = Some tb /\ tb <= ta.

(** The order the type comparators describe: the type [first] goes first,
    and within a type the later date. *)
Definition typeOrder (first : TransactionType) (a b : Transaction.t num) : Prop :=
  (Transaction.type b = first -> Transaction.type a = first)
  /\ (Transaction.type a = Transaction.type b -> notEarlier a b).

(** In the list [s] no transaction of another type precedes one of type
    [first], and of two transactions of the same type the one placed first
    is dated no earlier. *)
Definition typeFirstDateDesc (first : TransactionType) (s : list (Transaction.t num)) : Prop :=
  forall (i j : nat) (a b : Transaction.t num),
    (i < j)%nat -> s !! i = Some a -> s !! j = Some b ->
    (Transaction.type b = first -> Transaction.type a = first)
    /\ (Transaction.type a = Transaction.type b -> notEarlier a b).

End DateOrders.

(* ===================================================================== *)
(** ** First occurrences *)
(* ===================================================================== *)

(** Both groupings of the program (by day, by month label) keep one entry
    per class of a relation [same], in the order in which the classes first
    occur. *)
Section Openers.
Context {A : Type}.
Variable same : A -> A -> bool.

(** [t] is in the class of none of the [earlier] elements. *)
Definition opens (earlier : list A) (t : A) : bool :=
  negb (existsb (fun u => same u t) earlier).

(** The elements of [l] that are the first of their class, in order;
    [earlier] are the elements before [l]. *)
Fixpoint openers (earlier l : list A) : list A :=
  match l with
  | [] => []
  | t :: l' =>
      if opens earlier t then t :: openers (earlier ++ [t]) l'
      else openers (earlier ++ [t]) l'
  end.

End Openers.

(* ===================================================================== *)
(** ** Groups by day *)
(* ===================================================================== *)

Section DayGroups.
Context {num : Type} {N : Number num} {host : Host}.

(** The two transactions are on the same local calendar day. *)
Definition onSameDay (u t : Transaction.t num) : bool :=
  sameDay (Transaction.date u) (Transaction.date t).

(** The group of the day of [t0]: the transactions of [l] on that day, in
    order, with the sum of the amounts of its EXPENSE members and the sum
    of the amounts of the others. *)
Definition dayGroup (l : list (Transaction.t num)) (t0 : Transaction.t num) : DailyGroup.t num :=
  let members := List.filter (onSameDay t0) l in
  DailyGroup.mk (Transaction.date t0) members
    (fold_left plusStep (List.filter isExpense members) zero)
    (fold_left plusStep (List.filter (fun u => negb (isExpense u)) members) zero).

(** One group per day, opened by the first transaction of the day. *)
Definition groupByDay (l : list (Transaction.t num)) : list (DailyGroup.t num) :=
  List.map (dayGroup l) (openers onSameDay [] l).

End DayGroups.

(* ===================================================================== *)
(** ** The category breakdown *)
(* ===================================================================== *)

(** The entry [e] is named after a catalog category that an EXPENSE
    transaction of [l] resolves to. *)
Definition namedAfter {num : Type} (t : string -> string) (l : list (Transaction.t num))
    (e : ExpenseEntry.t num) : Prop :=
  exists u c, In u l /\ isExpense u = true
              /\ findCategory (Transaction.categoryId u) = Some c
              /\ ExpenseEntry.name e = catName t c.

(** The transaction filed under another category. *)
Definition withCategory {num : Type} (categoryId : string) (tx : Transaction.t num)
  : Transaction.t num :=
  Transaction.mk (Transaction.id tx) (Transaction.amount tx) categoryId
    (Transaction.date tx) (Transaction.note tx) (Transaction.type tx).

(* ===================================================================== *)
(** ** The calendar *)
(* ===================================================================== *)

(** The month (1..12) computed by [civil_from_days] from the day of the
    400-year era. *)
Definition month_of_doe (doe : Z) : Z :=
  let yoe := (doe - doe / 1460 + doe / 36524 - doe / 146096) / 365 in
  let doy := doe - (365 * yoe + yoe / 4 - yoe / 100) in
  let mp := (5 * doy + 2) / 153 in
  if mp <? 10 then mp + 3 else mp - 9.

(** The months of [fuel] consecutive days from [doe] are all in 1..12. *)
Fixpoint months_ok_from (fuel : nat) (doe : Z) : bool :=
  match fuel with
  | O => true
  | S fuel' =>
      let m := month_of_doe doe in
      (1 <=? m) && (m <=? 12) && months_ok_from fuel' (doe + 1)
  end.

(* ===================================================================== *)
(** ** The net-asset trend *)
(* ===================================================================== *)

Section TrendVocabulary.
Context {num : Type} {N : Number num} {host : Host}.

(** The transaction is dated in the year [currentYear] (local time). *)
Definition inYear (currentYear : Z) (tx : Transaction.t num) : bool :=
  strictEq (getFullYear (Transaction.date tx)) (Some currentYear).

(** The signed sum of the transactions of the year. *)
Definition yearTotal (transactions : list (Transaction.t num)) (currentYear : Z) : num :=
  fold_left signedStep (List.filter (inYear currentYear) transactions) zero.

(** The signed sum of the transactions of the year dated after January. *)
Definition afterJanuaryTotal (transactions : list (Transaction.t num)) (currentYear : Z) : num :=
  fold_left signedStep
    (List.filter (fun tx => inYear currentYear tx && negb (inMonth currentYear 0 tx)) transactions)
    zero.

(** The running balance before the point of index [i]. *)
Definition balanceBefore (points : list (NetAssetPoint.t num)) (initial : num) (i : nat) : num :=
  match i with
  | O => initial
  | S k =>
      match points !! k with
      | Some p => NetAssetPoint.netAsset p
      | None => initial
      end
  end.

End TrendVocabulary.

(* ===================================================================== *)
(** ** The monthly series *)
(* ===================================================================== *)

Section SeriesVocabulary.
Context {num : Type} {N : Number num} {host : Host}.

(** The label of the month of a transaction. *)
Definition label (tx : Transaction.t num) : string := monthYearLabel (Transaction.date tx).

Definition sameLabel (u t : Transaction.t num) : bool := String.eqb (label u) (label t).

(** The entry of the month of [t0]: its label, the sum of the amounts of
    the INCOME transactions of [l] with that label, the sum of the amounts
    of the others, the signed running sum of all of them, and the local
    first-of-month instant of [t0]. *)
Definition monthEntry (l : list (Transaction.t num)) (t0 : Transaction.t num) : MonthEntry.t num :=
  let members := List.filter (sameLabel t0) l in
  MonthEntry.mk (label t0)
    (fold_left plusStep (List.filter isIncome members) zero)
    (fold_left plusStep (List.filter (fun u => negb (isIncome u)) members) zero)
    (fold_left signedStep members zero)
    (monthSortKey (Transaction.date t0)).

(** One entry per label, opened by the first transaction with the label. *)
Definition monthlyEntries (l : list (Transaction.t num)) : list (MonthEntry.t num) :=
  List.map (monthEntry l) (openers sameLabel [] l).

(** The entries in the order [Array.prototype.sort] gives them by first-of-month instant. *)
Definition monthlySeries (l : list (Transaction.t num)) : list (MonthEntry.t num) :=
  Array_sort bySortKey (monthlyEntries l).

(** The property of the object [data] for the label of [h]. *)
Definition keyed (l : list (Transaction.t num)) (h : Transaction.t num)
  : string * MonthEntry.t num := (label h, monthEntry l h).

(** Every transaction has a first-of-month instant (its date is valid). *)
Definition wellKeyed (l : list (Transaction.t num)) : Prop :=
  forall tx, In tx l -> monthSortKey (Transaction.date tx) <> None.

(** Transactions have the same label exactly when they are of the same
    month: no two months of [l] a whole number of centuries apart. *)
Definition labelsFaithful (l : list (Transaction.t num)) : Prop :=
  forall a b, In a l -> In b l ->
    (label a = label b <-> monthSortKey (Transaction.date a) = monthSortKey (Transaction.date b)).

(** [a] is of a month before the month of [b]. *)
Definition monthBefore (a b : option Z) : Prop :=
  exists ka kb, a = Some ka /\ b = Some kb /\ ka < kb.

(** The entry [a] is of a month before the month of the entry [b]. *)
Definition entryBefore (a b : MonthEntry.t num) : Prop :=
  monthBefore (MonthEntry.sortKey a) (MonthEntry.sortKey b).

End SeriesVocabulary.

(* ===================================================================== *)
(** * Example data *)
(* ===================================================================== *)

(** The host used in the examples: local time is UTC. *)
Definition utcHost : Host := fixedOffsetHost 0.

(** Three entries typed as 0.1 (income), 0.3 (expense) and 0.2 (income). *)
Definition roundingLedger : list (Transaction.t float) := [
  Transaction.mk "1" (parseFloat "0.1") "salary" "2024-01-01T09:00:00.000Z" "" INCOME;
  Transaction.mk "2" (parseFloat "0.3") "food" "2024-01-02T09:00:00.000Z" "" EXPENSE;
  Transaction.mk "3" (parseFloat "0.2") "salary" "2024-01-03T09:00:00.000Z" "" INCOME
].

Definition integerLedger : list (Transaction.t Z) := [
  Transaction.mk "1" 100 "salary" "2024-01-01T09:00:00.000Z" "" INCOME;
  Transaction.mk "2" 30 "food" "2024-01-02T09:00:00.000Z" "" EXPENSE;
  Transaction.mk "3" 5 "salary" "2024-01-03T09:00:00.000Z" "" INCOME
].

(** The form with a non-numeric amount. *)
Definition nonNumericForm : Form.t :=
  Form.mk "abc" "lunch" "food" EXPENSE "2024-01-01T09:00" None.

Definition typedLedger : list (Transaction.t float) := [
  Transaction.mk "1" 1200%float "salary" "2024-01-05T08:00:00.000Z" "" INCOME;
  Transaction.mk "2" 12.5%float "food" "2024-01-03T12:30:00.000Z" "" EXPENSE;
  Transaction.mk "3" 40%float "investment" "2024-01-09T10:00:00.000Z" "" INCOME;
  Transaction.mk "4" 7%float "coffee" "2024-01-07T09:15:00.000Z" "" EXPENSE
].

(** Entered as local times 09:00 and 18:00 on 1 January 2024 and 08:00 on
    2 January 2024. *)
Definition morning : Transaction.t float :=
  Transaction.mk "a" 12.5%float "food" "2024-01-01T09:00" "" EXPENSE.

Definition evening : Transaction.t float :=
  Transaction.mk "b" 100%float "salary" "2024-01-01T18:00" "" INCOME.

Definition nextDay : Transaction.t float :=
  Transaction.mk "c" 3%float "coffee" "2024-01-02T08:00" "" EXPENSE.

(** The example of the specification, in a zone [offset] milliseconds east
    of UTC: the three transactions sorted DATE_DESC give two groups, 2
    January then 1 January, the second holding both transactions of 1
    January. *)
Definition twoDaysExample (offset : Z) : Prop :=
  sortedList (host := fixedOffsetHost offset) DATE_DESC [morning; evening; nextDay]
    = [nextDay; evening; morning]
  /\ groupedTransactions (host := fixedOffsetHost offset)
       (sortedList (host := fixedOffsetHost offset) DATE_DESC [morning; evening; nextDay])
     = [DailyGroup.mk "2024-01-02T08:00" [nextDay] 3%float 0%float;
        DailyGroup.mk "2024-01-01T18:00" [evening; morning] 12.5%float 100%float].

(** One income of 100 in January 2024. *)
Definition januaryLedger : list (Transaction.t float) := [
  Transaction.mk "1" 100%float "salary" "2024-01-15T12:00:00.000Z" "" INCOME
].

Definition yearLedger : list (Transaction.t Z) := [
  Transaction.mk "1" 500 "salary" "2023-11-30T10:00:00.000Z" "" INCOME;
  Transaction.mk "2" 100 "salary" "2024-01-15T12:00:00.000Z" "" INCOME;
  Transaction.mk "3" 30 "food" "2024-03-02T19:30:00.000Z" "" EXPENSE;
  Transaction.mk "4" 45 "transport" "2024-12-24T08:00:00.000Z" "" EXPENSE;
  Transaction.mk "5" 70 "salary" "2025-01-01T00:00:00.000Z" "" INCOME
].

(** A translation function with no entry for any key: [t] returns the key. *)
Definition untranslated (key : string) : string := key.

Definition knownBefore : list (Transaction.t Z) := [
  Transaction.mk "1" 30 "food" "2024-01-03T12:30:00.000Z" "" EXPENSE;
  Transaction.mk "2" 100 "salary" "2024-01-05T08:00:00.000Z" "" INCOME
].

Definition unknownExpense : Transaction.t Z :=
  Transaction.mk "3" 25 "crypto" "2024-01-06T08:00:00.000Z" "" EXPENSE.

Definition knownAfter : list (Transaction.t Z) := [
  Transaction.mk "4" 45 "coffee" "2024-01-07T09:15:00.000Z" "" EXPENSE;
  Transaction.mk "5" 12 "food" "2024-01-08T12:30:00.000Z" "" EXPENSE
].

(** The same ledger on binary64 numbers. *)
Definition mixedLedger : list (Transaction.t float) := [
  Transaction.mk "1" 30%float "food" "2024-01-03T12:30:00.000Z" "" EXPENSE;
  Transaction.mk "2" 100%float "salary" "2024-01-05T08:00:00.000Z" "" INCOME;
  Transaction.mk "3" 25%float "crypto" "2024-01-06T08:00:00.000Z" "" EXPENSE;
  Transaction.mk "4" 45%float "coffee" "2024-01-07T09:15:00.000Z" "" EXPENSE;
  Transaction.mk "5" 12%float "food" "2024-01-08T12:30:00.000Z" "" EXPENSE
].

(** One expense in December 2023 and one income in January 2024. *)
Definition december : Transaction.t Z :=
  Transaction.mk "d" 40 "food" "2023-12-20T10:00:00.000Z" "" EXPENSE.

Definition january : Transaction.t Z :=
  Transaction.mk "j" 100 "salary" "2024-01-05T10:00:00.000Z" "" INCOME.

(** The example of the specification: whichever is entered first,
    December 2023 precedes January 2024. *)
Definition decemberJanuaryExample : Prop :=
  monthlyData (host := utcHost) [january; december]
    = [MonthEntry.mk "Dec 23" 0 40 (-40) (Some 1701388800000);
       MonthEntry.mk "Jan 24" 100 0 100 (Some 1704067200000)]
  /\ monthlyData (host := utcHost) [december; january]
    = [MonthEntry.mk "Dec 23" 0 40 (-40) (Some 1701388800000);
       MonthEntry.mk "Jan 24" 100 0 100 (Some 1704067200000)].

(** Three transactions: October 1923, January 2000 and October 2023. *)
Definition centuryLedger : list (Transaction.t float) := [
  Transaction.mk "1" 10%float "food" "1923-10-05T12:00:00.000Z" "" EXPENSE;
  Transaction.mk "2" 20%float "food" "2000-01-05T12:00:00.000Z" "" EXPENSE;
  Transaction.mk "3" 30%float "food" "2023-10-05T12:00:00.000Z" "" EXPENSE
].

(* ===================================================================== *)
(** ** Orders of the date and amount sorts *)
(* ===================================================================== *)

(** The transaction is dated at the instant [k]. *)
Definition atInstant {num : Type} {host : Host} (k : Z) (t : Transaction.t num) : bool :=
  strictEq (getTime (Transaction.date t)) (Some k).

(** The transaction is of type [ty]. *)
Definition ofType {num : Type} (ty : TransactionType) (t : Transaction.t num) : bool :=
  TransactionType_eqb (Transaction.type t) ty.

(* ===================================================================== *)
(** ** What every group holds *)
(* ===================================================================== *)

Section GroupVocabulary.
Context {num : Type} {N : Number num} {host : Host}.

(** A group as [groupStep] keeps it: it has a first transaction, whose date
    is the date of the group; every later member is on the local day of
    that date; the totals are the sums of the amounts of the EXPENSE
    members and of the others, added up in the order of the members. *)
Definition wellFormedGroup (g : DailyGroup.t num) : Prop :=
  exists t0 rest,
    DailyGroup.transactions g = t0 :: rest
    /\ DailyGroup.date g = Transaction.date t0
    /\ Forall (fun u => sameDay (DailyGroup.date g) (Transaction.date u) = true) rest
    /\ DailyGroup.totalExpense g
       = fold_left plusStep (List.filter isExpense (DailyGroup.transactions g)) zero
    /\ DailyGroup.totalIncome g
       = fold_left plusStep
           (List.filter (fun u => negb (isExpense u)) (DailyGroup.transactions g)) zero.

(** The transactions of all the groups, group after group. *)
Definition groupMembers (groups : list (DailyGroup.t num)) : list (Transaction.t num) :=
  concat (List.map DailyGroup.transactions groups).

(** No group is on the local day of the date of an earlier group. *)
Definition daysApart (groups : list (DailyGroup.t num)) : Prop :=
  ForallOrdPairs
    (fun g g' => sameDay (DailyGroup.date g) (DailyGroup.date g') = false) groups.

End GroupVocabulary.

(** A transaction with an unreadable date, for the examples. *)
Definition undated : Transaction.t float :=
  Transaction.mk "u" 8%float "food" "yesterday" "" EXPENSE.

(* ===================================================================== *)
(** ** Deleting a transaction ([src/App.tsx]) *)
(* ===================================================================== *)

(** [handleDeleteTransaction] (lines 377-386), as the update of the
    [transactions] state; [confirmed] is the answer of [window.confirm],
    which is asked only when a transaction is being edited. *)
Definition handleDeleteTransaction (editingTransaction : option (Transaction.t float))
    (confirmed : bool) (prev : list (Transaction.t float)) : list (Transaction.t float) :=
  match editingTransaction with
  | None => prev
  | Some editingTransaction =>
      if confirmed then
        let idToDelete := Transaction.id editingTransaction in
        List.filter (fun t => negb (String.eqb (Transaction.id t) idToDelete)) prev
      else prev
  end.

(** The ids of the stored transactions, in order. *)
Definition ids {num : Type} (l : list (Transaction.t num)) : list string :=
  List.map Transaction.id l.

(** The form of the examples: 12.50 for lunch on 1 January 2024, 09:00
    local time; and the same form while the transaction ["2"] of
    [typedLedger] is being edited. *)
Definition lunchForm : Form.t :=
  Form.mk "12.50" "lunch" "food" EXPENSE "2024-01-01T09:00" None.

Definition editForm : Form.t :=
  Form.mk "12.50" "lunch" "food" EXPENSE "2024-01-01T09:00"
    (Some (Transaction.mk "2" 12.5%float "food" "2024-01-03T12:30:00.000Z" "" EXPENSE)).

(* ===================================================================== *)
(** ** The current month ([src/App.tsx], [src/components/StatsChart.tsx]) *)
(* ===================================================================== *)

Section CurrentMonth.
Context {num : Type} {N : Number num} {host : Host}.

(** [d.getMonth() === now.getMonth() && d.getFullYear() === now.getFullYear()]
    for [d = new Date(t.date)]; [now] is the time value of [new Date()]. *)
Definition inCurrentMonth (now : Z) (t : Transaction.t num) : bool :=
  strictEq (getMonth (Transaction.date t)) (Some (MonthFromTime (LocalTime now)))
  && strictEq (getFullYear (Transaction.date t)) (Some (YearFromTime (LocalTime now))).

(** [currentMonthSavings] of [App] (lines 138-154). *)
Definition currentMonthSavings (now : Z) (transactions : list (Transaction.t num)) : num :=
  let currentMonthTransactions := List.filter (inCurrentMonth now) transactions in
  let income := fold_left plusStep (List.filter isIncome currentMonthTransactions) zero in
  let expense := fold_left plusStep (List.filter isExpense currentMonthTransactions) zero in
  sub income expense.

(** [currentMonthExpense] of [StatsChart] (lines 147-157). *)
Definition currentMonthExpense (now : Z) (transactions : list (Transaction.t num)) : num :=
  fold_left plusStep
    (List.filter
       (fun tx =>
          isExpense tx
          && strictEq (getMonth (Transaction.date tx)) (Some (MonthFromTime (LocalTime now)))
          && strictEq (getFullYear (Transaction.date tx)) (Some (YearFromTime (LocalTime now))))
       transactions)
    zero.

(** The transaction is dated neither before the year nor in it: it is
    dated after the year, or its date is not valid. *)
Definition outsideTrend (currentYear : Z) (tx : Transaction.t num) : bool :=
  negb (beforeYear currentYear tx) && negb (inYear currentYear tx).

(** The category of the transaction is in the catalog. *)
Definition resolvable (tx : Transaction.t num) : bool :=
  match findCategory (Transaction.categoryId tx) with Some _ => true | None => false end.

End CurrentMonth.

(* ===================================================================== *)
(** ** The list item ([src/components/TransactionItem.tsx]) *)
(* ===================================================================== *)

(** [ALL_CATEGORIES.find(c => c.id === transaction.categoryId) || ALL_CATEGORIES[0]]
    (line 13); [None] is [undefined]. *)
Definition itemCategory {num : Type} (transaction : Transaction.t num) : option Category.t :=
  match findCategory (Transaction.categoryId transaction) with
  | Some category => Some category
  | None => List.nth_error ALL_CATEGORIES 0
  end.

(** [ALL_CATEGORIES.find(c => c.id === t.categoryId)?.name || t.categoryId]:
    the category column of the CSV export ([src/App.tsx], line 457) and the
    category sent to the advisor ([src/services/geminiService.ts], line 62). *)
Definition categoryLabel {num : Type} (t : Transaction.t num) : string :=
  match findCategory (Transaction.categoryId t) with
  | Some c => if String.eqb (Category.name c) "" then Transaction.categoryId t else Category.name c
  | None => Transaction.categoryId t
  end.

(* ===================================================================== *)
(** ** The savings goal card ([src/App.tsx], [renderHome]) *)
(* ===================================================================== *)

(** [Math.max(a, b)] and [Math.min(a, b)] (ECMA-262, 21.3.2.24-25): NaN
    when an argument is NaN; +0 is larger than -0. *)
Definition Math_max (a b : float) : float :=
  if PrimFloat.is_nan a || PrimFloat.is_nan b then nan
  else
    match classify b, classify a with
    | FloatClass.PZero, FloatClass.NZero => b
    | _, _ => if PrimFloat.ltb a b then b else a
    end.

Definition Math_min (a b : float) : float :=
  if PrimFloat.is_nan a || PrimFloat.is_nan b then nan
  else
    match classify b, classify a with
    | FloatClass.NZero, FloatClass.PZero => b
    | _, _ => if PrimFloat.ltb b a then b else a
    end.

(** Lines 482-484. *)
Definition hasGoal (savingsGoal : float) : bool := PrimFloat.ltb 0%float savingsGoal.

Definition progressPercent (currentMonthSavings savingsGoal : float) : float :=
  if hasGoal savingsGoal then
    Math_min
      (Math_max (PrimFloat.mul (PrimFloat.div currentMonthSavings savingsGoal) 100%float)
         0%float)
      100%float
  else 0%float.

Definition isGoalMet (currentMonthSavings savingsGoal : float) : bool :=
  hasGoal savingsGoal && PrimFloat.leb savingsGoal currentMonthSavings.

(* ===================================================================== *)
(** ** Reading the model's answer ([src/services/geminiService.ts]) *)
(* ===================================================================== *)

(** A value as [JSON.parse] returns it.  The fields of an object are its
    own properties, each key once. *)
#[warnings="-register-all"] Inductive JSON :=
  | JNull
  | JBool (b : bool)
  | JNumber (x : float)
  | JString (s : string)
  | JArray (items : list JSON)
  | JObject (fields : list (string * JSON)).

(** [v.key] for a key that no prototype defines ([amount], [categoryName],
    [type], [note], [date]): the own property of an object, [undefined]
    ([None]) on any other value, and a TypeError on [null]. *)
Definition getProperty (v : JSON) (key : string) : Completion (option JSON) :=
  match v with
  | JNull => Throw "TypeError"
  | JObject fields =>
      Normal (option_map snd (List.find (fun f => String.eqb (fst f) key) fields))
  | _ => Normal None
  end.

(** [ToBoolean]. *)
Definition truthy (v : option JSON) : bool :=
  match v with
  | None | Some JNull => false
  | Some (JBool b) => b
  | Some (JNumber x) => negb (PrimFloat.eqb x 0%float || PrimFloat.is_nan x)
  | Some (JString s) => negb (String.eqb s "")
  | Some (JArray _) | Some (JObject _) => true
  end.

(** [String.prototype.toLowerCase] on the letters A-Z; the other bytes are
    kept.  The names of the catalog are made of ASCII letters, spaces and
    [&], and no character outside ASCII lowers to one of their letters, so
    a string matches a name in lower case exactly when it does here. *)
Definition lower (c : ascii) : ascii :=
  let n := nat_of_ascii c in
  if ((65 <=? n) && (n <=? 90))%nat then ascii_of_nat (n + 32) else c.

Fixpoint toLowerCase (s : string) : string :=
  match s with
  | EmptyString => EmptyString
  | String c s' => String (lower c) (toLowerCase s')
  end.

(** What [parseTransactionInput] resolves to, when not [null]. *)
Module Parsed.
Record t := mk {
  amount : JSON;
  categoryId : string;
  type : TransactionType;
  note : option JSON;
  date : JSON
}.
End Parsed.

(** [result.categoryName?.toLowerCase()]: [undefined] when the name is
    [undefined] or [null], the lowered string when it is a string, and a
    TypeError otherwise (the value has no method [toLowerCase]). *)
Definition loweredName (categoryName : option JSON) : Completion (option string) :=
  match categoryName with
  | None | Some JNull => Normal None
  | Some (JString s) => Normal (Some (toLowerCase s))
  | Some _ => Throw "TypeError"
  end.

(** [ALL_CATEGORIES.find(c => c.name.toLowerCase() === name)] for the
    lowered [categoryName]; no name is [undefined]. *)
Definition matchCategory (name : option string) : option Category.t :=
  List.find
    (fun c =>
       match name with
       | Some n => String.eqb (toLowerCase (Category.name c)) n
       | None => false
       end)
    ALL_CATEGORIES.

(** [result.type === "INCOME"] *)
Definition isIncomeAnswer (type : option JSON) : bool :=
  match type with
  | Some (JString s) => String.eqb s "INCOME"
  | _ => false
  end.

(** [parseTransactionInput] from the parsed answer on (lines 35-54):
    [result] is the value of [JSON.parse(response.text || "{}")], [now] the
    time value of [new Date()]; [None] is [null], returned also from the
    [catch] block. *)
Definition parseTransactionInput (result : JSON) (now : Z) : option Parsed.t :=
  match getProperty result "amount" with
  | Throw _ => None
  | Normal amount =>
      if negb (truthy amount) then None
      else
        match getProperty result "categoryName", getProperty result "type",
              getProperty result "note", getProperty result "date" with
        | Normal categoryName, Normal type, Normal note, Normal date =>
            match loweredName categoryName with
            | Throw _ => None
            | Normal name =>
                match amount with
                | Some amount =>
                    Some (Parsed.mk amount
                            (match matchCategory name with
                             | Some category => Category.id category
                             | None =>
                                 if isIncomeAnswer type then "other_income" else "shopping"
                             end)
                            (if isIncomeAnswer type then INCOME else EXPENSE)
                            note
                            (if truthy date then
                               match date with Some d => d | None => JNull end
                             else JString (toISOString now)))
                | None => None
                end
            end
        | _, _, _, _ => None
        end
  end.

(* ===================================================================== *)
(** ** The calendar and the digits of a date string *)
(* ===================================================================== *)

(** The number that the digits [d] spell after digits read as [acc]. *)
Fixpoint uint_value (d : Decimal.uint) (acc : Z) : Z :=
  match d with
  | Decimal.Nil => acc
  | Decimal.D0 d' => uint_value d' (10 * acc + 0)
  | Decimal.D1 d' => uint_value d' (10 * acc + 1)
  | Decimal.D2 d' => uint_value d' (10 * acc + 2)
  | Decimal.D3 d' => uint_value d' (10 * acc + 3)
  | Decimal.D4 d' => uint_value d' (10 * acc + 4)
  | Decimal.D5 d' => uint_value d' (10 * acc + 5)
  | Decimal.D6 d' => uint_value d' (10 * acc + 6)
  | Decimal.D7 d' => uint_value d' (10 * acc + 7)
  | Decimal.D8 d' => uint_value d' (10 * acc + 8)
  | Decimal.D9 d' => uint_value d' (10 * acc + 9)
  end.

(** The days from 1 March of the year 0 to 1 March of the year [Y]. *)
Definition marchDays (Y : Z) : Z := 365 * Y + Y / 4 - Y / 100 + Y / 400.

(* ===================================================================== *)
(** ** The date of the form ([src/App.tsx]) *)
(* ===================================================================== *)

Section FormHandlers.
Context {host : Host}.
(** [Number.prototype.toString]: the digits it prints for a number are not
    modelled. *)
Variable Number_toString : float -> string.

(** The value of a [datetime-local] input for the date object [d] with time
    value [tv] (lines 44-48, 330-333, 397-399):
    [d.setMinutes(d.getMinutes() - d.getTimezoneOffset()); d.toISOString().slice(0, 16)].
    [getTimezoneOffset()] is [(t - LocalTime(t)) / msPerMinute]; [setMinutes]
    truncates its argument, rebuilds the local time with the new minutes
    and stores [TimeClip(UTC(...))]; [toISOString] throws a RangeError on
    an invalid date. *)
Definition toLocalInput (tv : option Z) : Completion string :=
  match tv with
  | None => Throw "RangeError: Invalid time value"
  | Some t =>
      let local := LocalTime t in
      let min := Z.quot (MinFromTime local * 60000 - (t - local)) 60000 in
      let date :=
        MakeDate (Day local)
          (MakeTime (HourFromTime local) min (SecFromTime local) (msFromTime local)) in
      match TimeClip (UTC date) with
      | Some u => Normal (substring 0 16 (toISOString u))
      | None => Throw "RangeError: Invalid time value"
      end
  end.

(** [handleTransactionClick] (lines 321-342): the form state it sets;
    [now] is the time value of [new Date()] in the [catch] block. *)
Definition handleTransactionClick (transaction : Transaction.t float) (now : Z)
  : Completion Form.t :=
  let date :=
    match toLocalInput (Date_parse (Transaction.date transaction)) with
    | Normal s => Normal s
    | Throw _ => toLocalInput (Some now)
    end in
  match date with
  | Normal date =>
      Normal (Form.mk (Number_toString (Transaction.amount transaction))
                (Transaction.note transaction) (Transaction.categoryId transaction)
                (Transaction.type transaction) date (Some transaction))
  | Throw e => Throw e
  end.

End FormHandlers.

(** [resetForm] (lines 388-400): the form state it sets. *)
Definition resetForm {host : Host} (now : Z) : Completion Form.t :=
  match List.nth_error EXPENSE_CATEGORIES 0, toLocalInput (Some now) with
  | Some category, Normal date =>
      Normal (Form.mk "" "" (Category.id category) EXPENSE date None)
  | None, _ => Throw "TypeError"
  | _, Throw e => Throw e
  end.

(** The instant [t] with its seconds and milliseconds dropped. *)
Definition startOfMinute (t : Z) : Z := t - t mod 60000.

(** A transaction opened in a zone one hour east of UTC. *)
Definition coffeeAtNoon : Transaction.t float :=
  Transaction.mk "4" 7%float "coffee" "2024-01-07T09:15:30.250Z" "flat white" EXPENSE.

(* ===================================================================== *)
(** * Properties *)
(* ===================================================================== *)

Lemma Z_ExactArith : ExactArith (fun z : Z => z).
Proof. split; simpl; intros; auto. Qed.

Lemma TransactionType_eqb_eq a b : TransactionType_eqb a b = true <-> a = b.
Proof. destruct a, b; simpl; split; congruence. Qed.

(** Two floats that the comparison tells apart are different. *)
Lemma float_neq (x y : float) : PrimFloat.eqb x y = false -> PrimFloat.eqb x x = true -> x <> y.
Proof. intros Hxy Hxx ->. congruence. Qed.

(* ===================================================================== *)
(** ** Totals *)
(* ===================================================================== *)

Section TotalsFacts.
Context {num : Type} {N : Number num}.
Variable toZ : num -> Z.
Context {E : ExactArith toZ}.

Lemma fold_signedStep l : forall acc,
  toZ (fold_left signedStep l acc) = toZ acc + sumZ (List.map (signedZ toZ) l).
Proof using E.
  induction l as [|t l IH]; intros acc; simpl.
  - lia.
  - rewrite IH. unfold signedStep, signedZ.
    destruct (isIncome t); rewrite ?toZ_add, ?toZ_sub; lia.
Qed.

Lemma fold_plusStep l : forall acc,
  toZ (fold_left plusStep l acc) = toZ acc + sumZ (List.map (amountZ toZ) l).
Proof using E.
  induction l as [|t l IH]; intros acc; simpl.
  - lia.
  - rewrite IH. unfold plusStep, amountZ. rewrite toZ_add. lia.
Qed.

Lemma isIncome_isExpense (t : Transaction.t num) : isExpense t = negb (isIncome t).
Proof. unfold isExpense, isIncome. destruct (Transaction.type t); reflexivity. Qed.

Lemma sumZ_signed_split (l : list (Transaction.t num)) :
  sumZ (List.map (signedZ toZ) l)
  = sumZ (List.map (amountZ toZ) (List.filter isIncome l))
    - sumZ (List.map (amountZ toZ) (List.filter isExpense l)).
Proof.
  induction l as [|t l IH]; simpl; [reflexivity|].
  rewrite isIncome_isExpense, IH. unfold signedZ.
  destruct (isIncome t); simpl;
    change (amountZ toZ t) with (toZ (Transaction.amount t)); lia.
Qed.

End TotalsFacts.


Lemma fold_plusStep_sumLeft {num : Type} {N : Number num} (l : list (Transaction.t num)) :
  forall acc, fold_left plusStep l acc = fold_left add (List.map Transaction.amount l) acc.
Proof. induction l as [|t l IH]; intros acc; simpl; [reflexivity | apply IH]. Qed.



(* ===================================================================== *)
(** ** Budgets and the savings goal *)
(* ===================================================================== *)

Lemma isNaN_guard (val : float) : isNaN (if isNaN val then 0%float else val) = false.
Proof. destruct (isNaN val) eqn:Hval; [reflexivity | exact Hval]. Qed.

(** C2, as stated, fails: a negative input is stored as it is, in the
    budget map and as the savings goal. *)
Lemma budget_negative_counterexample :
  onBudgetChange "food" "-5" ∅ !! "food" = Some (-5)%float
  /\ onSavingsGoalChange "-5" = (-5)%float
  /\ PrimFloat.ltb (-5)%float 0%float = true.
Proof. vm_compute. repeat split; reflexivity. Qed.

(** C2 (amended): the budget handler stores 0 when the input parses to NaN
    and the parsed number otherwise (a negative number included); the
    stored value is never NaN, the entries of the other categories are
    kept, and nothing is rejected.  The savings-goal handler has the same
    policy. *)
Theorem budget_nan_policy (catId value : string) (prev : gmap string float) :
  (isNaN (parseFloat value) = true ->
     onBudgetChange catId value prev !! catId = Some 0%float)
  /\ (isNaN (parseFloat value) = false ->
     onBudgetChange catId value prev !! catId = Some (parseFloat value))
  /\ (exists v, onBudgetChange catId value prev !! catId = Some v /\ isNaN v = false)
  /\ (forall k, k <> catId -> onBudgetChange catId value prev !! k = prev !! k)
  /\ (isNaN (parseFloat value) = true -> onSavingsGoalChange value = 0%float)
  /\ (isNaN (parseFloat value) = false -> onSavingsGoalChange value = parseFloat value)
  /\ isNaN (onSavingsGoalChange value) = false.
Proof.
  unfold onBudgetChange, onSavingsGoalChange. repeat split.
  - intros ->. apply lookup_insert_eq.
  - intros ->. apply lookup_insert_eq.
  - eexists. split; [apply lookup_insert_eq | apply isNaN_guard].
  - intros k Hk. apply lookup_insert_ne. congruence.
  - intros ->. reflexivity.
  - intros ->. reflexivity.
  - apply isNaN_guard.
Qed.

(** An empty or non-numeric input is stored as 0. *)
Example budget_nan_examples :
  onBudgetChange "food" "" ∅ !! "food" = Some 0%float
  /\ onBudgetChange "food" "abc" ∅ !! "food" = Some 0%float
  /\ onBudgetChange "food" "12.5" ∅ !! "food" = Some 12.5%float
  /\ onSavingsGoalChange "" = 0%float.
Proof. vm_compute. repeat split; reflexivity. Qed.

(* ===================================================================== *)
(** ** Creating a transaction *)
(* ===================================================================== *)

Section SaveFacts.
Context {host : Host}.

(** An empty amount, or one that parses to a number that is [<= 0], leaves
    the list as it is. *)
Lemma handleSaveTransaction_rejects (form : Form.t) (now : Z) (prev : list (Transaction.t float)) :
  Form.amount form = "" \/ PrimFloat.leb (parseFloat (Form.amount form)) 0%float = true ->
  handleSaveTransaction form now prev = Normal prev.
Proof.
  intros [Hempty | Hle]; unfold handleSaveTransaction.
  - rewrite Hempty. reflexivity.
  - rewrite Hle, orb_true_r. reflexivity.
Qed.

(** An amount that passes the guard, with a valid date and no transaction
    being edited, puts the new transaction at the head of the list; its id
    is the clock's value, and the stored list follows unchanged. *)
Lemma handleSaveTransaction_creates (form : Form.t) (now tv : Z) (prev : list (Transaction.t float)) :
  Form.amount form <> "" ->
  PrimFloat.leb (parseFloat (Form.amount form)) 0%float = false ->
  Date_parse (Form.date form) = Some tv ->
  Form.editingTransaction form = None ->
  handleSaveTransaction form now prev
  = Normal (Transaction.mk (Z_string now) (parseFloat (Form.amount form))
              (Form.selectedCategory form) (toISOString tv) (Form.note form) (Form.type form)
            :: prev).
Proof.
  intros Hne Hle Hdate Hedit. unfold handleSaveTransaction.
  apply String.eqb_neq in Hne. rewrite Hne, Hle, Hdate, Hedit. reflexivity.
Qed.

End SaveFacts.

(** C3, the failing input: the guard [parseFloat(amount) <= 0] is false
    for NaN, so a non-numeric amount is not rejected and a transaction
    with amount NaN is put at the head of the list. *)
Lemma handleSaveTransaction_nan_amount :
  handleSaveTransaction (host := fixedOffsetHost 0) nonNumericForm 1704099600000 []
  = Normal [Transaction.mk "1704099600000" nan "food" "2024-01-01T09:00:00.000Z" "lunch" EXPENSE].
Proof. vm_compute. reflexivity. Qed.

(* ===================================================================== *)
(** ** Loading the persisted state *)
(* ===================================================================== *)

Section LoadFacts.
Variable JSON_parse_transactions : string -> option (list (Transaction.t float)).
Variable JSON_parse_budgets : string -> option (gmap string float).

Local Abbreviation loadState := (load JSON_parse_transactions JSON_parse_budgets).

(** Missing entries leave the initial state. *)
Lemma load_empty : loadState ∅ = initialState.
Proof. reflexivity. Qed.

(** A stored text on which [JSON.parse] throws leaves the default. *)
Lemma load_malformed_json (localStorage : gmap string string) (s b : string) :
  localStorage !! "transactions" = Some s -> JSON_parse_transactions s = None ->
  localStorage !! "budgets" = Some b -> JSON_parse_budgets b = None ->
  AppState.transactions (loadState localStorage) = []
  /\ AppState.budgets (loadState localStorage) = ∅.
Proof.
  intros Hs Hps Hb Hpb. unfold load, getItem. rewrite Hs, Hb. simpl.
  destruct (String.eqb s ""), (String.eqb b ""); rewrite ?Hps, ?Hpb; auto.
Qed.

(** A stored language outside en, de, zh leaves the default. *)
Lemma load_unknown_language (localStorage : gmap string string) (s : string) :
  localStorage !! "language" = Some s -> parseLanguage s = None ->
  AppState.language (loadState localStorage) = en.
Proof.
  intros Hs Hp. unfold load, getItem. rewrite Hs. simpl.
  destruct (String.eqb s ""); rewrite ?Hp; reflexivity.
Qed.

(** C4, the failing input: [parseFloat] never throws, so the [catch] that
    would keep the default is never taken; a non-numeric stored
    [savingsGoal] makes the goal NaN, not 0. *)
Lemma load_nonnumeric_goal :
  isNaN (AppState.savingsGoal (loadState {["savingsGoal" := "abc"]})) = true.
Proof. vm_compute. reflexivity. Qed.

End LoadFacts.

(* ===================================================================== *)
(** ** Sorting *)
(* ===================================================================== *)

Section SortFacts.
Context {A : Type}.
Variable comparefn : A -> A -> Sign.

Lemma sort_insert_perm (x : A) (l : list A) : Permutation (sort_insert comparefn x l) (x :: l).
Proof.
  induction l as [|y l IH]; simpl; [reflexivity|].
  destruct (SortCompare comparefn x y); try reflexivity.
  rewrite IH. apply perm_swap.
Qed.

Lemma Array_sort_perm (l : list A) : Permutation (Array_sort comparefn l) l.
Proof.
  induction l as [|x l IH]; simpl; [reflexivity|].
  rewrite sort_insert_perm. constructor. exact IH.
Qed.

Lemma Array_sort_length (l : list A) : length (Array_sort comparefn l) = length l.
Proof. apply Permutation_length, Array_sort_perm. Qed.

(** The comparator is consistent on the elements satisfying [P]: the
    order it induces there is total and transitive. *)
Variable P : A -> Prop.
Hypothesis total : forall x y, P x -> P y -> SortCompare comparefn x y = Gt -> notAfter comparefn y x.
Hypothesis trans : forall x y z, P x -> P y -> P z -> notAfter comparefn x y -> notAfter comparefn y z -> notAfter comparefn x z.

Lemma sort_insert_sorted (x : A) (l : list A) :
  P x -> Forall P l -> StronglySorted (notAfter comparefn) l -> StronglySorted (notAfter comparefn) (sort_insert comparefn x l).
Proof using total trans.
  intros Px Pl Hs. induction Hs as [|y l Hs IH Hy]; simpl.
  - repeat constructor.
  - inversion Pl as [|? ? Py Pl']; subst.
    destruct (SortCompare comparefn x y) eqn:Hc.
    + constructor; [constructor; assumption|].
      assert (Hxy : notAfter comparefn x y) by (unfold notAfter; congruence).
      constructor; [exact Hxy|].
      rewrite Forall_forall in *. intros z Hz. apply (trans x y z); auto.
    + constructor; [constructor; assumption|].
      assert (Hxy : notAfter comparefn x y) by (unfold notAfter; congruence).
      constructor; [exact Hxy|].
      rewrite Forall_forall in *. intros z Hz. apply (trans x y z); auto.
    + constructor; [apply IH; assumption|].
      eapply Permutation_Forall; [symmetry; apply sort_insert_perm|].
      constructor; [apply total; assumption | exact Hy].
Qed.

Lemma Array_sort_sorted (l : list A) :
  Forall P l -> StronglySorted (notAfter comparefn) (Array_sort comparefn l).
Proof using total trans.
  induction l as [|x l IH]; intros Pl; simpl; [constructor|].
  inversion Pl; subst. apply sort_insert_sorted; auto.
  eapply Permutation_Forall; [symmetry; apply Array_sort_perm | assumption].
Qed.

End SortFacts.

(** In a strongly sorted list every earlier element is related to every
    later one. *)
Lemma StronglySorted_lookup {A : Type} (R : A -> A -> Prop) (l : list A) :
  StronglySorted R l ->
  forall (i j : nat) (a b : A), (i < j)%nat -> l !! i = Some a -> l !! j = Some b -> R a b.
Proof.
  induction 1 as [|x l Hs IH Hx]; intros i j a b Hij Ha Hb.
  - destruct i; discriminate.
  - destruct j as [|j]; [lia|]. simpl in Hb.
    destruct i as [|i]; simpl in Ha.
    + injection Ha as <-. rewrite Forall_forall in Hx. apply Hx.
      eapply list_elem_of_lookup_2. exact Hb.
    + apply (IH i j); auto. lia.
Qed.

Section SortedTransactionsFacts.
Context {num : Type} {N : Number num} {host : Host}.

Lemma notAfter_byType (first : TransactionType) (a b : Transaction.t num) :
  validDate a -> validDate b ->
  (notAfter (byType first) a b <-> typeOrder first a b).
Proof.
  unfold validDate, notAfter, typeOrder, notEarlier, SortCompare, byType, byDateDesc, timeDiff.
  intros Ha Hb.
  destruct (getTime (Transaction.date a)) as [ta|]; [|congruence].
  destruct (getTime (Transaction.date b)) as [tb|]; [|congruence].
  destruct (Transaction.type a), (Transaction.type b), first; simpl;
    try (destruct (Z.compare_spec tb ta); simpl);
    (split;
     [ intros Hc; split;
       [ intros; congruence
       | intros; try congruence; exists ta, tb; repeat split; try reflexivity; try lia; congruence ]
     | intros [H1 H2]; try congruence;
       try (destruct (H2 eq_refl) as (ta' & tb' & Hta & Htb & Hle);
            injection Hta as <-; injection Htb as <-; lia);
       try (specialize (H1 eq_refl); congruence) ]).
Qed.

Lemma byType_total (first : TransactionType) (x y : Transaction.t num) :
  validDate x -> validDate y ->
  SortCompare (byType first) x y = Gt -> notAfter (byType first) y x.
Proof.
  unfold validDate, notAfter, SortCompare, byType, byDateDesc, timeDiff.
  intros Hx Hy.
  destruct (getTime (Transaction.date x)) as [tx|]; [|congruence].
  destruct (getTime (Transaction.date y)) as [ty|]; [|congruence].
  destruct (Transaction.type x), (Transaction.type y), first; simpl;
    try (rewrite (Z.compare_antisym tx ty); destruct (tx ?= ty); simpl);
    congruence.
Qed.

Lemma typeOrder_trans (first : TransactionType) (x y z : Transaction.t num) :
  validDate x -> validDate y -> validDate z ->
  typeOrder first x y -> typeOrder first y z -> typeOrder first x z.
Proof.
  unfold validDate, typeOrder, notEarlier. intros Hx Hy Hz [Hxy1 Hxy2] [Hyz1 Hyz2].
  split; [auto|].
  intros Hxz.
  assert (Hty : Transaction.type x = Transaction.type y).
  { revert Hxz Hxy1 Hyz1. clear.
    destruct (Transaction.type x), (Transaction.type y), (Transaction.type z), first;
      intros Hxz Hxy1 Hyz1; try reflexivity; try discriminate;
      try (specialize (Hxy1 eq_refl); discriminate);
      try (specialize (Hyz1 eq_refl); discriminate). }
  destruct (Hxy2 Hty) as (tx & ty & Htx & Hty' & Hle1).
  destruct (Hyz2 ltac:(congruence)) as (ty2 & tz & Hty2 & Htz & Hle2).
  exists tx, tz. repeat split; auto. rewrite Hty' in Hty2. injection Hty2 as <-. lia.
Qed.

Lemma sortedList_byType_sorted (first : TransactionType) (l : list (Transaction.t num)) :
  Forall validDate l -> StronglySorted (typeOrder first) (Array_sort (byType first) l).
Proof.
  intros Hl.
  assert (Hs : StronglySorted (notAfter (byType first)) (Array_sort (byType first) l)).
  { apply (Array_sort_sorted (byType first) validDate); auto.
    - intros x y Hx Hy. apply byType_total; auto.
    - intros x y z Hx Hy Hz Hxy Hyz.
      apply (notAfter_byType first x z Hx Hz).
      apply (notAfter_byType first x y Hx Hy) in Hxy.
      apply (notAfter_byType first y z Hy Hz) in Hyz.
      exact (typeOrder_trans first x y z Hx Hy Hz Hxy Hyz). }
  assert (Hv : Forall validDate (Array_sort (byType first) l)).
  { eapply Permutation_Forall; [symmetry; apply Array_sort_perm | exact Hl]. }
  induction Hs as [|x s Hs IH Hx]; constructor.
  - apply IH. inversion Hv; assumption.
  - inversion Hv as [|? ? Vx Vs]; subst. rewrite Forall_forall in *.
    intros y Hy. apply notAfter_byType; auto.
Qed.


(** Every sort option yields a permutation of the list. *)
Lemma sortedList_perm (sortOption : SortOption) (l : list (Transaction.t num)) :
  Permutation (sortedList sortOption l) l.
Proof. apply Array_sort_perm. Qed.

(** C10: [sortedTransactions] allocates a new array, leaves the store's
    array and every other array of the heap as they were, and the new
    array holds a permutation of the store's transactions (the sorted
    list), each transaction unmodified. *)
Theorem sortedTransactions_sorts_a_copy (sortOption : SortOption) (transactions : nat)
    (h : list (list (Transaction.t num))) (stored : list (Transaction.t num)) :
  h !! transactions = Some stored ->
  exists (sorted : nat) (h' : list (list (Transaction.t num))),
    sortedTransactions sortOption transactions h = Some (sorted, h')
    /\ sorted <> transactions
    /\ h' !! transactions = Some stored
    /\ (forall r, (r < length h)%nat -> h' !! r = h !! r)
    /\ h' !! sorted = Some (sortedList sortOption stored)
    /\ Permutation (sortedList sortOption stored) stored.
Proof.
  intros Hstored.
  assert (Hlt : (transactions < length h)%nat) by (eapply lookup_lt_Some; eauto).
  exists (length h), (<[length h := sortedList sortOption stored]> (h ++ [stored])).
  assert (Hother : forall r, (r < length h)%nat ->
            <[length h := sortedList sortOption stored]> (h ++ [stored]) !! r = h !! r).
  { intros r Hr. rewrite list_lookup_insert_ne by lia. apply lookup_app_l. exact Hr. }
  repeat split.
  - unfold sortedTransactions, spread. rewrite Hstored.
    unfold sortInPlace. rewrite lookup_app_r by lia.
    replace (length h - length h)%nat with 0%nat by lia. reflexivity.
  - lia.
  - rewrite Hother by exact Hlt. exact Hstored.
  - exact Hother.
  - apply list_lookup_insert_eq. rewrite length_app. simpl. lia.
  - apply sortedList_perm.
Qed.

End SortedTransactionsFacts.

Lemma typedLedger_valid : Forall (validDate (host := utcHost)) typedLedger.
Proof. repeat constructor; vm_compute; discriminate. Qed.

Example sort_by_type_example :
  List.map Transaction.id (sortedList (host := utcHost) TYPE_EXPENSE typedLedger) = ["4"; "2"; "3"; "1"]
  /\ List.map Transaction.id (sortedList (host := utcHost) TYPE_INCOME typedLedger) = ["3"; "1"; "4"; "2"].
Proof. vm_compute. split; reflexivity. Qed.


Lemma sortedTransactions_sorts_a_copy_witness :
  exists (sorted : nat) (h' : list (list (Transaction.t float))),
    sortedTransactions (host := utcHost) AMOUNT_DESC 0%nat [typedLedger] = Some (sorted, h')
    /\ sorted <> 0%nat
    /\ h' !! 0%nat = Some typedLedger
    /\ (forall r, (r < length [typedLedger])%nat -> h' !! r = [typedLedger] !! r)
    /\ h' !! sorted = Some (sortedList (host := utcHost) AMOUNT_DESC typedLedger)
    /\ Permutation (sortedList (host := utcHost) AMOUNT_DESC typedLedger) typedLedger.
Proof.
  exact (sortedTransactions_sorts_a_copy (host := utcHost) AMOUNT_DESC 0%nat [typedLedger]
           typedLedger eq_refl).
Defined.

Example sortedTransactions_example :
  option_map (fun r => (fst r, List.map (List.map Transaction.id) (snd r)))
    (sortedTransactions (host := utcHost) AMOUNT_DESC 0%nat [typedLedger])
  = Some (1%nat, [["1"; "2"; "3"; "4"]; ["1"; "3"; "2"; "4"]]).
Proof. vm_compute. reflexivity. Qed.

(* ===================================================================== *)
(** ** Grouping by day *)
(* ===================================================================== *)

Lemma updateFirst_none {A : Type} (p : A -> bool) (f : A -> A) (l : list A) :
  (forall x, In x l -> p x = false) -> updateFirst p f l = None.
Proof.
  induction l as [|x l IH]; intros Hp; simpl; [reflexivity|].
  rewrite (Hp x) by (left; reflexivity).
  rewrite IH; [reflexivity|]. intros y Hy. apply Hp. right. exact Hy.
Qed.

Lemma updateFirst_some {A : Type} (p : A -> bool) (f : A -> A) (l1 l2 : list A) (x : A) :
  (forall y, In y l1 -> p y = false) -> p x = true ->
  updateFirst p f (l1 ++ x :: l2) = Some (l1 ++ f x :: l2).
Proof.
  induction l1 as [|y l1 IH]; intros Hp Hx; simpl.
  - rewrite Hx. reflexivity.
  - rewrite (Hp y) by (left; reflexivity).
    rewrite IH; [reflexivity | | exact Hx]. intros z Hz. apply Hp. right. exact Hz.
Qed.

(** A list either has no element satisfying [q], or splits at the first. *)
Lemma first_split {A : Type} (q : A -> bool) (l : list A) :
  (forall x, In x l -> q x = false)
  \/ exists l1 x l2, l = l1 ++ x :: l2 /\ q x = true /\ forall y, In y l1 -> q y = false.
Proof.
  induction l as [|x l IH].
  - left. intros x [].
  - destruct (q x) eqn:Hx.
    + right. exists [], x, l. repeat split; auto. intros y [].
    + destruct IH as [Hnone | (l1 & y & l2 & -> & Hy & Hl1)].
      * left. intros y [<- | Hy]; auto.
      * right. exists (x :: l1), y, l2. repeat split; auto.
        intros z [<- | Hz]; auto.
Qed.

Lemma filter_none {A : Type} (f : A -> bool) (l : list A) :
  (forall x, In x l -> f x = false) -> List.filter f l = [].
Proof.
  induction l as [|x l IH]; intros Hf; simpl; [reflexivity|].
  rewrite (Hf x) by (left; reflexivity). apply IH. intros y Hy. apply Hf. right. exact Hy.
Qed.

(** *** First occurrences

    The relation [same] is symmetric and transitive, and reflexive on the
    elements satisfying [P]. *)
Section FirstOccurrences.
Context {A : Type}.
Variable same : A -> A -> bool.
Variable P : A -> Prop.
Hypothesis same_sym : forall a b, same a b = same b a.
Hypothesis same_trans : forall a b c, same a b = true -> same b c = true -> same a c = true.
Hypothesis same_refl : forall a, P a -> same a a = true.

Lemma openers_snoc (l : list A) : forall earlier t,
  openers same earlier (l ++ [t])
  = openers same earlier l ++ (if opens same (earlier ++ l) t then [t] else []).
Proof.
  induction l as [|x l IH]; intros earlier t; simpl.
  - rewrite app_nil_r. destruct (opens same earlier t); reflexivity.
  - rewrite IH, <- app_assoc. simpl. destruct (opens same earlier x); reflexivity.
Qed.

Lemma opens_false (earlier : list A) (t u : A) :
  In u earlier -> same u t = true -> opens same earlier t = false.
Proof.
  intros Hu Hs. unfold opens. apply negb_false_iff, existsb_exists. exists u. split; assumption.
Qed.

Lemma opens_true (earlier : list A) (t u : A) :
  opens same earlier t = true -> In u earlier -> same u t = false.
Proof.
  intros Ho Hu. apply not_true_iff_false. intros Hs.
  rewrite (opens_false earlier t u Hu Hs) in Ho. discriminate.
Qed.

(** No opener is in the class of an earlier element. *)
Lemma openers_fresh (l : list A) : forall earlier h u,
  In h (openers same earlier l) -> In u earlier -> same u h = false.
Proof.
  induction l as [|x l IH]; intros earlier h u Hh Hu; simpl in Hh; [contradiction|].
  destruct (opens same earlier x) eqn:Hx.
  - destruct Hh as [<- | Hh].
    + eapply opens_true; eauto.
    + apply (IH (earlier ++ [x])); auto. apply in_or_app. left. exact Hu.
  - apply (IH (earlier ++ [x])); auto. apply in_or_app. left. exact Hu.
Qed.

(** The openers are in pairwise different classes. *)
Lemma openers_distinct (l : list A) : forall earlier l1 h l2 h',
  openers same earlier l = l1 ++ h :: l2 -> In h' l2 -> same h h' = false.
Proof.
  induction l as [|x l IH]; intros earlier l1 h l2 h' Heq Hh'; simpl in Heq.
  - destruct l1; discriminate.
  - destruct (opens same earlier x) eqn:Hx.
    + destruct l1 as [|y l1]; simpl in Heq.
      * injection Heq as <- Hl2.
        apply (openers_fresh l (earlier ++ [x])).
        -- rewrite Hl2. exact Hh'.
        -- apply in_or_app. right. left. reflexivity.
      * injection Heq as <- Hrest. eapply IH; eauto.
    + eapply IH; eauto.
Qed.

(** Every element satisfying [P] is in the class of an opener, or of an
    earlier element. *)
Lemma openers_cover (l : list A) : forall earlier u,
  Forall P l -> In u l ->
  (exists h, In h (openers same earlier l) /\ same h u = true)
  \/ (exists v, In v earlier /\ same v u = true).
Proof using same_refl same_trans.
  induction l as [|x l IH]; intros earlier u Hv Hu; [contradiction|].
  inversion Hv as [|? ? Vx Vl]; subst. simpl.
  assert (Hx : (opens same earlier x = true) \/ (exists v, In v earlier /\ same v x = true)).
  { unfold opens. destruct (existsb (fun u0 => same u0 x) earlier) eqn:He.
    - right. apply existsb_exists in He. exact He.
    - left. reflexivity. }
  destruct Hu as [<- | Hu].
  - destruct Hx as [Hx | Hx]; [|right; exact Hx].
    left. rewrite Hx. exists x. split; [left; reflexivity | apply same_refl; exact Vx].
  - destruct (IH (earlier ++ [x]) u Vl Hu) as [(h & Hh & Hs) | (v & Hin & Hs)].
    + left. exists h. split; [|exact Hs]. destruct (opens same earlier x); [right|]; exact Hh.
    + apply in_app_or in Hin. destruct Hin as [Hin | [<- | []]].
      * right. exists v. split; assumption.
      * destruct Hx as [Hx | (w & Hw & Hws)].
        -- left. rewrite Hx. exists x. split; [left; reflexivity | exact Hs].
        -- right. exists w. split; [exact Hw | eapply same_trans; eauto].
Qed.

Lemma openers_In (l : list A) : forall earlier h, In h (openers same earlier l) -> In h l.
Proof.
  induction l as [|x l IH]; intros earlier h Hh; simpl in *; [contradiction|].
  destruct (opens same earlier x); [destruct Hh as [<- | Hh]|]; eauto.
Qed.

(** Appending [t] to [l]: either [t] opens a class, and no opener of [l]
    is in its class, or it is in the class of exactly one opener. *)
Lemma openers_snoc_cases (l : list A) (t : A) :
  Forall P l ->
  (opens same l t = true /\ forall h, In h (openers same [] l) -> same h t = false)
  \/ (opens same l t = false
      /\ exists l1 h l2, openers same [] l = l1 ++ h :: l2 /\ same h t = true
           /\ (forall y, In y l1 -> same y t = false)
           /\ (forall y, In y l2 -> same y t = false)).
Proof using same_sym same_refl same_trans.
  intros Hl.
  destruct (first_split (fun h => same h t) (openers same [] l))
    as [Hnone | (l1 & h & l2 & Heq & Hh & Hl1)].
  - left. split; [|exact Hnone].
    unfold opens. apply negb_true_iff, not_true_iff_false. intros He.
    apply existsb_exists in He. destruct He as (u & Hu & Hs).
    destruct (openers_cover l [] u Hl Hu) as [(h & Hh & Hhs) | (v & [] & _)].
    specialize (Hnone h Hh). simpl in Hnone.
    rewrite (same_trans _ _ _ Hhs Hs) in Hnone. discriminate.
  - right. split.
    + apply (opens_false l t h); [|exact Hh].
      apply (openers_In l []). rewrite Heq. apply in_or_app. right. left. reflexivity.
    + exists l1, h, l2. repeat split; auto.
      intros h' Hh'. apply not_true_iff_false. intros Hs.
      assert (Hd := openers_distinct l [] l1 h l2 h' Heq Hh').
      rewrite same_sym in Hs. rewrite (same_trans _ _ _ Hh Hs) in Hd. discriminate.
Qed.

End FirstOccurrences.

Section GroupingFacts.
Context {num : Type} {N : Number num} {host : Host}.

Lemma strictEq_sym (a b : option Z) : strictEq a b = strictEq b a.
Proof. destruct a, b; simpl; auto. apply Z.eqb_sym. Qed.

Lemma strictEq_true (a b : option Z) : strictEq a b = true <-> exists z, a = Some z /\ b = Some z.
Proof.
  destruct a as [x|], b as [y|]; simpl; split; try discriminate.
  - intros Hxy. apply Z.eqb_eq in Hxy. subst. eauto.
  - intros (z & Hx & Hy). injection Hx as ->. injection Hy as ->. apply Z.eqb_refl.
  - intros (z & _ & Hz). discriminate.
  - intros (z & Hz & _). discriminate.
  - intros (z & Hz & _). discriminate.
Qed.

Lemma strictEq_trans (a b c : option Z) :
  strictEq a b = true -> strictEq b c = true -> strictEq a c = true.
Proof.
  rewrite !strictEq_true. intros (z & -> & ->) (z' & Hz & ->).
  injection Hz as <-. eauto.
Qed.

Lemma sameDay_sym (d1 d2 : string) : sameDay d1 d2 = sameDay d2 d1.
Proof.
  unfold sameDay.
  rewrite (strictEq_sym (getFullYear d1)), (strictEq_sym (getMonth d1)), (strictEq_sym (getDate d1)).
  reflexivity.
Qed.

Lemma sameDay_trans (d1 d2 d3 : string) :
  sameDay d1 d2 = true -> sameDay d2 d3 = true -> sameDay d1 d3 = true.
Proof.
  unfold sameDay. rewrite !andb_true_iff. intros [[Hy Hm] Hd] [[Hy' Hm'] Hd'].
  repeat split; eapply strictEq_trans; eauto.
Qed.

Lemma sameDay_refl (d : string) : getTime d <> None -> sameDay d d = true.
Proof.
  unfold sameDay, getFullYear, getMonth, getDate, getTime.
  destruct (Date_parse d); [|congruence]. intros _. simpl. rewrite !Z.eqb_refl. reflexivity.
Qed.

(** *** The code meets the specification *)

Lemma onSameDay_sym (a b : Transaction.t num) : onSameDay a b = onSameDay b a.
Proof. apply sameDay_sym. Qed.

Lemma onSameDay_trans (a b c : Transaction.t num) :
  onSameDay a b = true -> onSameDay b c = true -> onSameDay a c = true.
Proof. apply sameDay_trans. Qed.

Lemma onSameDay_refl (a : Transaction.t num) : validDate a -> onSameDay a a = true.
Proof. apply sameDay_refl. Qed.

Lemma dayGroup_snoc (l : list (Transaction.t num)) (h t : Transaction.t num) :
  dayGroup (l ++ [t]) h
  = if onSameDay h t then pushTransaction t (dayGroup l h) else dayGroup l h.
Proof.
  unfold dayGroup, pushTransaction. rewrite List.filter_app. simpl.
  destruct (onSameDay h t).
  - simpl. rewrite !List.filter_app. simpl.
    destruct (isExpense t); simpl; rewrite ?app_nil_r, ?fold_left_app; reflexivity.
  - rewrite app_nil_r. reflexivity.
Qed.

Lemma groupedTransactions_snoc (l : list (Transaction.t num)) (t : Transaction.t num) :
  groupedTransactions (l ++ [t]) = groupStep (groupedTransactions l) t.
Proof. unfold groupedTransactions. rewrite fold_left_app. reflexivity. Qed.

Lemma map_dayGroup_others (l hs : list (Transaction.t num)) (t : Transaction.t num) :
  (forall h, In h hs -> onSameDay h t = false) ->
  List.map (dayGroup (l ++ [t])) hs = List.map (dayGroup l) hs.
Proof.
  intros Hhs. apply map_ext_in. intros h Hh. rewrite dayGroup_snoc, (Hhs h Hh). reflexivity.
Qed.

(** The groups the code builds are the groups of the specification. *)
Lemma groupedTransactions_groupByDay (l : list (Transaction.t num)) :
  Forall validDate l -> groupedTransactions l = groupByDay l.
Proof.
  induction l as [|t l IH] using rev_ind; intros Hv; [reflexivity|].
  apply Forall_app in Hv. destruct Hv as [Hl Ht]. inversion Ht as [|? ? Vt _]; subst.
  rewrite groupedTransactions_snoc, (IH Hl). unfold groupByDay, groupStep.
  rewrite openers_snoc. simpl. rewrite List.map_app.
  destruct (openers_snoc_cases onSameDay validDate onSameDay_sym onSameDay_trans
              onSameDay_refl l t Hl)
    as [[Hopen Hnone] | [Hopen (l1 & h & l2 & Heq & Hh & Hl1 & Hl2)]]; rewrite Hopen.
  - (* no group for the day of [t]: a new group is pushed *)
    rewrite updateFirst_none.
    2:{ intros g Hg. apply in_map_iff in Hg. destruct Hg as (h & <- & Hh). simpl.
        apply (Hnone h Hh). }
    simpl. f_equal.
    + symmetry. apply map_dayGroup_others. exact Hnone.
    + f_equal. unfold dayGroup, pushTransaction. rewrite List.filter_app. simpl.
      rewrite (onSameDay_refl _ Vt).
      assert (Hempty : List.filter (onSameDay t) l = []).
      { apply filter_none. intros u Hu. rewrite onSameDay_sym.
        eapply opens_true; eauto. }
      rewrite Hempty. simpl. destruct (isExpense t); reflexivity.
  - (* the group of the day of [t] is found and updated *)
    rewrite Heq, List.map_app. simpl.
    rewrite updateFirst_some.
    2:{ intros g Hg. apply in_map_iff in Hg. destruct Hg as (h' & <- & Hh'). simpl.
        apply (Hl1 h' Hh'). }
    2:{ simpl. exact Hh. }
    rewrite app_nil_r, List.map_app. simpl.
    rewrite dayGroup_snoc, Hh. f_equal; [|f_equal].
    + symmetry. apply map_dayGroup_others. exact Hl1.
    + symmetry. apply map_dayGroup_others. exact Hl2.
Qed.

End GroupingFacts.

(** *** The example of three transactions on two days *)

Lemma compare_shift (a b o : Z) : (a - o ?= b - o) = (a ?= b).
Proof.
  destruct (Z.compare_spec a b) as [-> | Hlt | Hgt].
  - apply Z.compare_refl.
  - apply Z.compare_lt_iff. lia.
  - apply Z.compare_gt_iff. lia.
Qed.

Section FixedOffset.
Variable offset : Z.
Hypothesis offset_bound : -86400000 <= offset <= 86400000.

Local Abbreviation here := (fixedOffsetHost offset).

(** A date-time string without a zone is read as local time. *)
Lemma Date_parse_local (s : string) (day time : Z) :
  parseISO (list_ascii_of_string s) = Some (day, Some (time, ZoneLocal)) ->
  Z.abs (MakeDate day time) <= 8640000000000000 - 86400000 ->
  Date_parse (host := here) s = Some (MakeDate day time - offset).
Proof using offset_bound.
  intros Hp Hb. unfold Date_parse. rewrite Hp. unfold UTC, TimeClip. simpl.
  destruct (Z.leb_spec (Z.abs (MakeDate day time - offset)) 8640000000000000); [reflexivity|lia].
Qed.

Lemma LocalTime_parse_local (t : Z) : LocalTime (host := here) (t - offset) = t.
Proof. unfold LocalTime. simpl. lia. Qed.

Lemma SortCompare_byDateDesc_local (a b : Transaction.t float) (ta tb : Z) :
  getTime (host := here) (Transaction.date a) = Some (ta - offset) ->
  getTime (host := here) (Transaction.date b) = Some (tb - offset) ->
  SortCompare (byDateDesc (host := here)) a b = (tb ?= ta).
Proof.
  intros Ha Hb. unfold SortCompare, byDateDesc. rewrite Ha, Hb. unfold timeDiff.
  rewrite compare_shift. destruct (tb ?= ta); reflexivity.
Qed.

Lemma sorted_example :
  sortedList (host := here) DATE_DESC [morning; evening; nextDay] = [nextDay; evening; morning].
Proof using offset_bound.
  assert (Hm : getTime (host := here) (Transaction.date morning) = Some (1704099600000 - offset)).
  { apply (Date_parse_local _ 19723 32400000); [vm_compute; reflexivity | vm_compute; discriminate]. }
  assert (He : getTime (host := here) (Transaction.date evening) = Some (1704132000000 - offset)).
  { apply (Date_parse_local _ 19723 64800000); [vm_compute; reflexivity | vm_compute; discriminate]. }
  assert (Hn : getTime (host := here) (Transaction.date nextDay) = Some (1704182400000 - offset)).
  { apply (Date_parse_local _ 19724 28800000); [vm_compute; reflexivity | vm_compute; discriminate]. }
  unfold sortedList, comparator. cbn [Array_sort sort_insert].
  rewrite (SortCompare_byDateDesc_local _ _ _ _ He Hn). cbn [Z.compare Pos.compare Pos.compare_cont sort_insert].
  rewrite (SortCompare_byDateDesc_local _ _ _ _ Hm Hn). cbn [Z.compare Pos.compare Pos.compare_cont sort_insert].
  rewrite (SortCompare_byDateDesc_local _ _ _ _ Hm He). cbn [Z.compare Pos.compare Pos.compare_cont sort_insert].
  reflexivity.
Qed.

Lemma sameDay_local (s1 s2 : string) (t1 t2 : Z) :
  Date_parse (host := here) s1 = Some (t1 - offset) ->
  Date_parse (host := here) s2 = Some (t2 - offset) ->
  sameDay (host := here) s1 s2
  = (YearFromTime t1 =? YearFromTime t2) && (MonthFromTime t1 =? MonthFromTime t2)
    && (DateFromTime t1 =? DateFromTime t2).
Proof.
  intros H1 H2. unfold sameDay, getFullYear, getMonth, getDate. rewrite H1, H2. simpl.
  fold (LocalTime (host := here) (t1 - offset)). fold (LocalTime (host := here) (t2 - offset)).
  rewrite !LocalTime_parse_local. reflexivity.
Qed.

Lemma grouped_example :
  groupedTransactions (host := here) [nextDay; evening; morning]
  = [DailyGroup.mk "2024-01-02T08:00" [nextDay] 3%float 0%float;
     DailyGroup.mk "2024-01-01T18:00" [evening; morning] 12.5%float 100%float].
Proof using offset_bound.
  assert (Hm : Date_parse (host := here) "2024-01-01T09:00" = Some (1704099600000 - offset)).
  { apply (Date_parse_local _ 19723 32400000); [vm_compute; reflexivity | vm_compute; discriminate]. }
  assert (He : Date_parse (host := here) "2024-01-01T18:00" = Some (1704132000000 - offset)).
  { apply (Date_parse_local _ 19723 64800000); [vm_compute; reflexivity | vm_compute; discriminate]. }
  assert (Hn : Date_parse (host := here) "2024-01-02T08:00" = Some (1704182400000 - offset)).
  { apply (Date_parse_local _ 19724 28800000); [vm_compute; reflexivity | vm_compute; discriminate]. }
  unfold groupedTransactions. cbn [fold_left].
  unfold groupStep at 3. cbn [updateFirst app].
  unfold groupStep at 2. cbn [updateFirst pushTransaction DailyGroup.date Transaction.date nextDay evening].
  rewrite (sameDay_local _ _ _ _ Hn He).
  change ((YearFromTime 1704182400000 =? YearFromTime 1704132000000)
          && (MonthFromTime 1704182400000 =? MonthFromTime 1704132000000)
          && (DateFromTime 1704182400000 =? DateFromTime 1704132000000)) with false.
  cbn [option_map app].
  unfold groupStep. cbn [updateFirst pushTransaction DailyGroup.date Transaction.date morning].
  rewrite (sameDay_local _ _ _ _ Hn Hm), (sameDay_local _ _ _ _ He Hm).
  change ((YearFromTime 1704182400000 =? YearFromTime 1704099600000)
          && (MonthFromTime 1704182400000 =? MonthFromTime 1704099600000)
          && (DateFromTime 1704182400000 =? DateFromTime 1704099600000)) with false.
  change ((YearFromTime 1704132000000 =? YearFromTime 1704099600000)
          && (MonthFromTime 1704132000000 =? MonthFromTime 1704099600000)
          && (DateFromTime 1704132000000 =? DateFromTime 1704099600000)) with true.
  vm_compute. reflexivity.
Qed.

End FixedOffset.

(** C8: for every sequence of transactions (with the data model's dates,
    each parsing to a time value) [groupedTransactions] is [groupByDay]:
    one group per local calendar day, in the order in which the days first
    occur in the input, each holding the transactions of that day in input
    order, with [totalExpense] the sum of the amounts of its EXPENSE
    members and [totalIncome] the sum of the amounts of the others.  In
    particular, in every zone of fixed offset, the three transactions of
    the example sorted DATE_DESC give exactly two groups, 2 January then
    1 January, with both transactions of 1 January in one group. *)
Theorem groupedTransactions_by_day {num : Type} {N : Number num} {host : Host}
    (sortedTransactions : list (Transaction.t num)) :
  Forall validDate sortedTransactions ->
  groupedTransactions sortedTransactions = groupByDay sortedTransactions
  /\ (forall offset, -86400000 <= offset <= 86400000 -> twoDaysExample offset).
Proof.
  intros Hv. split.
  - apply groupedTransactions_groupByDay. exact Hv.
  - intros offset Hb. unfold twoDaysExample.
    rewrite (sorted_example offset Hb). split; [reflexivity|].
    apply grouped_example. exact Hb.
Qed.

Lemma twoDays_valid : Forall (validDate (host := utcHost)) [nextDay; evening; morning].
Proof. repeat constructor; vm_compute; discriminate. Qed.

Lemma groupedTransactions_by_day_witness :
  groupedTransactions (host := utcHost) [nextDay; evening; morning]
    = groupByDay (host := utcHost) [nextDay; evening; morning]
  /\ (forall offset, -86400000 <= offset <= 86400000 -> twoDaysExample offset).
Proof. exact (groupedTransactions_by_day (host := utcHost) [nextDay; evening; morning] twoDays_valid). Defined.

(** The specification itself, evaluated on the example in UTC. *)
Example groupByDay_example :
  List.map (fun g => (DailyGroup.date g, List.map Transaction.id (DailyGroup.transactions g)))
    (groupByDay (host := utcHost) [nextDay; evening; morning])
  = [("2024-01-02T08:00", ["c"]); ("2024-01-01T18:00", ["b"; "a"])].
Proof. vm_compute. reflexivity. Qed.

(* ===================================================================== *)
(** ** The category breakdown *)
(* ===================================================================== *)

Lemma updateFirst_In {A : Type} (p : A -> bool) (f : A -> A) (l l' : list A) :
  updateFirst p f l = Some l' ->
  forall y, In y l' -> In y l \/ exists x, In x l /\ y = f x.
Proof.
  revert l'. induction l as [|x l IH]; intros l' Hu y Hy; simpl in Hu; [discriminate|].
  destruct (p x).
  - injection Hu as <-. destruct Hy as [<- | Hy].
    + right. exists x. split; [left|]; reflexivity.
    + left. right. exact Hy.
  - destruct (updateFirst p f l) as [l''|]; [|discriminate]. injection Hu as <-.
    destruct Hy as [<- | Hy]; [left; left; reflexivity|].
    destruct (IH l'' eq_refl y Hy) as [Hin | (z & Hz & ->)].
    + left. right. exact Hin.
    + right. exists z. split; [right; exact Hz | reflexivity].
Qed.

Section BreakdownFacts.
Context {num : Type} {N : Number num}.
Variable t : string -> string.

Lemma namedAfter_mono (l l' : list (Transaction.t num)) (e : ExpenseEntry.t num) :
  (forall u, In u l -> In u l') -> namedAfter t l e -> namedAfter t l' e.
Proof. intros Hsub (u & c & Hu & Hrest). exists u, c. split; auto. Qed.

Lemma expenseStep_named (l : list (Transaction.t num)) (acc : list (ExpenseEntry.t num))
    (curr : Transaction.t num) :
  isExpense curr = true ->
  (forall e, In e acc -> namedAfter t l e) ->
  forall e, In e (expenseStep t acc curr) -> namedAfter t (l ++ [curr]) e.
Proof.
  intros Hexp Hacc e He.
  assert (Hold : forall e', In e' acc -> namedAfter t (l ++ [curr]) e').
  { intros e' He'. apply (namedAfter_mono l); [|auto].
    intros u Hu. apply in_or_app. left. exact Hu. }
  unfold expenseStep in He.
  destruct (findCategory (Transaction.categoryId curr)) as [category|] eqn:Hcat; [|auto].
  match type of He with context [updateFirst ?p ?f acc] =>
    destruct (updateFirst p f acc) as [acc'|] eqn:Hu end.
  - destruct (updateFirst_In _ _ _ _ Hu e He) as [Hin | (x & Hx & ->)]; [auto|].
    destruct (Hold x Hx) as (u & c & Hu1 & Hu2 & Hu3 & Hu4).
    exists u, c. repeat split; auto.
  - apply in_app_or in He. destruct He as [He | [<- | []]]; [auto|].
    exists curr, category. repeat split; auto. apply in_or_app. right. left. reflexivity.
Qed.

Lemma fold_expenseStep_named (l : list (Transaction.t num)) :
  Forall (fun u => isExpense u = true) l ->
  forall e, In e (fold_left (expenseStep t) l []) -> namedAfter t l e.
Proof.
  induction l as [|curr l IH] using rev_ind; intros Hl e He; [contradiction|].
  apply Forall_app in Hl. destruct Hl as [Hl Hc]. inversion Hc; subst.
  rewrite fold_left_app in He. simpl in He.
  eapply expenseStep_named; eauto.
Qed.

Lemma expenseData_named (l : list (Transaction.t num)) (e : ExpenseEntry.t num) :
  In e (expenseData t l) -> namedAfter t l e.
Proof.
  unfold expenseData. intros He.
  apply (Permutation_in _ (Array_sort_perm _ _)) in He.
  apply fold_expenseStep_named in He.
  - apply (namedAfter_mono (List.filter isExpense l)); [|exact He].
    intros u Hu. apply filter_In in Hu. tauto.
  - apply Forall_forall. intros u Hu. apply list_elem_of_In, filter_In in Hu. tauto.
Qed.

(** A transaction whose category is not in the catalog leaves the
    breakdown as it is. *)
Lemma expenseData_skips_unknown (l1 l2 : list (Transaction.t num)) (tx : Transaction.t num) :
  findCategory (Transaction.categoryId tx) = None ->
  expenseData t (l1 ++ tx :: l2) = expenseData t (l1 ++ l2).
Proof.
  intros Hcat. unfold expenseData. rewrite !List.filter_app. simpl.
  destruct (isExpense tx); [|reflexivity].
  rewrite !fold_left_app. simpl. unfold expenseStep at 2. rewrite Hcat. reflexivity.
Qed.

Variable toZ : num -> Z.
Context {E : ExactArith toZ}.

(** The breakdown is in descending order of value. *)
Lemma expenseData_sorted (l : list (Transaction.t num)) :
  StronglySorted (fun a b => toZ (ExpenseEntry.value b) <= toZ (ExpenseEntry.value a))
    (expenseData t l).
Proof using E.
  assert (Hn : forall a b : ExpenseEntry.t num,
            notAfter byValueDesc a b <-> toZ (ExpenseEntry.value b) <= toZ (ExpenseEntry.value a)).
  { intros a b. unfold notAfter, SortCompare, byValueDesc. rewrite toZ_sign, toZ_sub.
    destruct (Z.compare_spec (toZ (ExpenseEntry.value b) - toZ (ExpenseEntry.value a)) 0);
      simpl; split; intros; try lia; congruence. }
  unfold expenseData.
  match goal with |- StronglySorted _ (Array_sort _ ?l0) =>
    assert (Hs : StronglySorted (notAfter byValueDesc) (Array_sort byValueDesc l0)) end.
  { apply (Array_sort_sorted byValueDesc (fun _ => True)).
    - intros x y _ _ Hc. apply Hn. unfold SortCompare, byValueDesc in Hc.
      rewrite toZ_sign, toZ_sub in Hc.
      destruct (Z.compare_spec (toZ (ExpenseEntry.value y) - toZ (ExpenseEntry.value x)) 0);
        simpl in Hc; try discriminate. lia.
    - intros x y z _ _ _ Hxy Hyz. apply Hn. apply Hn in Hxy, Hyz. lia.
    - apply Forall_forall. auto. }
  induction Hs as [|x s Hs IH Hx]; constructor; [exact IH|].
  rewrite Forall_forall in *. intros y Hy. apply Hn. auto.
Qed.

End BreakdownFacts.

(** The totals do not read the category: they are the same whatever
    category each transaction is filed under. *)
Lemma totals_ignore_category {num : Type} {N : Number num}
    (l1 l2 : list (Transaction.t num)) (tx : Transaction.t num) (categoryId : string) :
  totalIncome (l1 ++ withCategory categoryId tx :: l2) = totalIncome (l1 ++ tx :: l2)
  /\ totalExpense (l1 ++ withCategory categoryId tx :: l2) = totalExpense (l1 ++ tx :: l2)
  /\ totalBalance (l1 ++ withCategory categoryId tx :: l2) = totalBalance (l1 ++ tx :: l2).
Proof.
  unfold totalIncome, totalExpense, totalBalance.
  rewrite !List.filter_app, !fold_left_app. cbn [List.filter].
  change (isIncome (withCategory categoryId tx)) with (isIncome tx).
  change (isExpense (withCategory categoryId tx)) with (isExpense tx).
  repeat split.
  - destruct (isIncome tx); reflexivity.
  - destruct (isExpense tx); reflexivity.
Qed.



Example expenseData_example :
  expenseData untranslated mixedLedger
    = [ExpenseEntry.mk "cat_coffee" 45%float "#8884d8";
       ExpenseEntry.mk "cat_food" 42%float "#8884d8"]
  /\ totalExpense mixedLedger = 112%float
  /\ totalIncome mixedLedger = 100%float
  /\ totalBalance mixedLedger = (-12)%float.
Proof. vm_compute. repeat split; reflexivity. Qed.

(* ===================================================================== *)
(** ** The calendar: months are 0..11 *)
(* ===================================================================== *)

Lemma months_ok_from_spec (fuel : nat) : forall doe,
  months_ok_from fuel doe = true ->
  forall k, doe <= k < doe + Z.of_nat fuel -> 1 <= month_of_doe k <= 12.
Proof.
  induction fuel as [|fuel IH]; intros doe Hn k Hk; [lia|].
  cbn [months_ok_from] in Hn. cbv zeta in Hn.
  apply andb_true_iff in Hn. destruct Hn as [Hm Hn].
  apply andb_true_iff in Hm. destruct Hm as [H1 H2].
  destruct (Z.eq_dec k doe) as [-> | Hne].
  - apply Z.leb_le in H1, H2. lia.
  - apply (IH (doe + 1)); [exact Hn | lia].
Qed.

(** Checked on each of the 146097 days of an era. *)
Lemma months_ok_era : months_ok_from (Z.to_nat 146097) 0 = true.
Proof. vm_compute. reflexivity. Qed.

Lemma month_of_doe_range (doe : Z) : 0 <= doe < 146097 -> 1 <= month_of_doe doe <= 12.
Proof.
  intros Hd.
  apply (months_ok_from_spec (Z.to_nat 146097) 0 months_ok_era).
  rewrite Z2Nat.id by lia. lia.
Qed.

Lemma MonthFromTime_range (t : Z) : 0 <= MonthFromTime t <= 11.
Proof.
  unfold MonthFromTime, civil_from_days. cbv zeta. cbn [fst snd].
  set (z := Day t + 719468).
  assert (Hd : 0 <= z - z / 146097 * 146097 < 146097).
  { pose proof (Z.mod_pos_bound z 146097 ltac:(lia)) as Hm.
    rewrite Z.mod_eq in Hm by lia. lia. }
  pose proof (month_of_doe_range _ Hd) as Hm. unfold month_of_doe in Hm. cbv zeta in Hm.
  lia.
Qed.

(* ===================================================================== *)
(** ** The net-asset trend *)
(* ===================================================================== *)

Section NetAssetFacts.
Context {num : Type} {N : Number num} {host : Host}.

Lemma netAssetFrom_length (l : list (Transaction.t num)) (Y : Z) (ms : list Z) : forall rb,
  length (netAssetFrom l Y ms rb) = length ms.
Proof. induction ms as [|m ms IH]; intros rb; simpl; [reflexivity | rewrite IH; reflexivity]. Qed.

(** Each point is the running balance before it plus the surplus of its month. *)
Lemma netAssetFrom_step (l : list (Transaction.t num)) (Y : Z) (ms : list Z) : forall rb i p m,
  netAssetFrom l Y ms rb !! i = Some p -> ms !! i = Some m ->
  NetAssetPoint.netAsset p
  = add (balanceBefore (netAssetFrom l Y ms rb) rb i) (monthlySurplus l Y m).
Proof.
  induction ms as [|m0 ms IH]; intros rb i p m Hp Hm; [destruct i; discriminate|].
  destruct i as [|i]; simpl in Hp, Hm.
  - injection Hp as <-. injection Hm as <-. reflexivity.
  - rewrite (IH _ i p m Hp Hm). f_equal.
    destruct i as [|i]; [reflexivity|]. cbn [balanceBefore netAssetFrom].
    rewrite lookup_cons_ne_0 by lia. cbn [Nat.pred].
    destruct (netAssetFrom l Y ms (add rb (monthlySurplus l Y m0)) !! i) eqn:Hi; [reflexivity|].
    apply lookup_ge_None in Hi. apply lookup_lt_Some in Hp. lia.
Qed.

Lemma months_lookup (i : nat) (m : Z) : months !! i = Some m -> m = Z.of_nat i.
Proof.
  unfold months. do 12 (destruct i as [|i]; [simpl; intros [= <-]; reflexivity|]).
  discriminate.
Qed.

Lemma netAssetData_step (l : list (Transaction.t num)) (Y : Z) (i : nat) (p : NetAssetPoint.t num) :
  netAssetData l Y !! i = Some p ->
  NetAssetPoint.netAsset p
  = add (balanceBefore (netAssetData l Y) (initialBalance l Y) i)
        (monthlySurplus l Y (Z.of_nat i)).
Proof.
  intros Hp. unfold netAssetData in *.
  assert (Hi : (i < length months)%nat).
  { rewrite <- (netAssetFrom_length l Y months (initialBalance l Y)).
    eapply lookup_lt_Some; eauto. }
  destruct (months !! i) as [m|] eqn:Hm.
  - rewrite (netAssetFrom_step _ _ _ _ _ _ _ Hp Hm). f_equal. f_equal.
    apply months_lookup. exact Hm.
  - apply lookup_ge_None in Hm. lia.
Qed.

Lemma getMonth_range (s : string) (m : Z) : getMonth s = Some m -> 0 <= m <= 11.
Proof.
  unfold getMonth. destruct (Date_parse s); simpl; [|discriminate].
  intros [= <-]. apply MonthFromTime_range.
Qed.

Variable toZ : num -> Z.
Context {E : ExactArith toZ}.

Local Abbreviation monthZ l Y i := (sumZ (List.map (signedZ toZ) (List.filter (inMonth Y i) l))).

Lemma sumZ_filter_cons (f : Transaction.t num -> bool) (tx : Transaction.t num)
    (l : list (Transaction.t num)) :
  sumZ (List.map (signedZ toZ) (List.filter f (tx :: l)))
  = (if f tx then signedZ toZ tx else 0) + sumZ (List.map (signedZ toZ) (List.filter f l)).
Proof. cbn [List.filter]. destruct (f tx); cbn [List.map sumZ]; lia. Qed.

(** A transaction of the year is in exactly one of its months. *)
Lemma month_indicator (tx : Transaction.t num) (Y s : Z) :
  sumZ (List.map (fun i => if inMonth Y i tx then s else 0) months)
  = if inYear Y tx then s else 0.
Proof.
  unfold months. cbn [List.map sumZ]. unfold inMonth, inYear.
  pose proof (getMonth_range (Transaction.date tx)) as Hrange.
  unfold getFullYear, getMonth in *.
  destruct (Date_parse (Transaction.date tx)) as [tv|]; cbn [option_map strictEq andb]; [|lia].
  destruct (YearFromTime (LocalTime tv) =? Y); cbn [andb]; [|lia].
  specialize (Hrange _ eq_refl).
  remember (MonthFromTime (LocalTime tv)) as m eqn:Hm. clear Hm.
  assert (Hcases : m = 0 \/ m = 1 \/ m = 2 \/ m = 3 \/ m = 4 \/ m = 5 \/ m = 6
                   \/ m = 7 \/ m = 8 \/ m = 9 \/ m = 10 \/ m = 11) by lia.
  clear Hrange.
  repeat (destruct Hcases as [-> | Hcases]); try subst m; cbn [Z.eqb Pos.eqb]; lia.
Qed.

(** The months of a year partition its transactions. *)
Lemma months_partition (l : list (Transaction.t num)) (Y : Z) :
  sumZ (List.map (fun i => monthZ l Y i) months)
  = sumZ (List.map (signedZ toZ) (List.filter (inYear Y) l)).
Proof.
  induction l as [|tx l IH]; [reflexivity|].
  rewrite sumZ_filter_cons, <- IH, <- (month_indicator tx Y (signedZ toZ tx)).
  unfold months. cbn [List.map sumZ]. rewrite !sumZ_filter_cons. lia.
Qed.

Lemma afterJanuary_split (l : list (Transaction.t num)) (Y : Z) :
  sumZ (List.map (signedZ toZ)
          (List.filter (fun tx => inYear Y tx && negb (inMonth Y 0 tx)) l))
  = sumZ (List.map (signedZ toZ) (List.filter (inYear Y) l)) - monthZ l Y 0.
Proof.
  induction l as [|tx l IH]; [reflexivity|].
  rewrite !sumZ_filter_cons, IH.
  assert (Himp : inMonth Y 0 tx = true -> inYear Y tx = true).
  { unfold inMonth, inYear. intros Hm. apply andb_true_iff in Hm. tauto. }
  destruct (inYear Y tx), (inMonth Y 0 tx); cbn [andb negb]; try lia.
Qed.

Lemma toZ_monthlySurplus (l : list (Transaction.t num)) (Y i : Z) :
  toZ (monthlySurplus l Y i) = monthZ l Y i.
Proof using E. unfold monthlySurplus. rewrite (fold_signedStep toZ), toZ_zero. lia. Qed.

(** The balance of a point is the balance before the run plus the
    surpluses of the months up to its own. *)
Lemma netAssetFrom_cumulative (l : list (Transaction.t num)) (Y : Z) (ms : list Z) :
  forall rb i p,
  netAssetFrom l Y ms rb !! i = Some p ->
  toZ (NetAssetPoint.netAsset p)
  = toZ rb + sumZ (List.map (fun i => monthZ l Y i) (take (S i) ms)).
Proof using E.
  induction ms as [|m ms IH]; intros rb i p Hp; [destruct i; discriminate|].
  destruct i as [|i]; cbn [netAssetFrom] in Hp; simpl in Hp.
  - injection Hp as <-. cbn [NetAssetPoint.netAsset].
    change (take 1 (m :: ms)) with [m]. cbn [List.map sumZ].
    rewrite toZ_add, toZ_monthlySurplus. lia.
  - rewrite (IH _ _ _ Hp). rewrite firstn_cons. cbn [List.map sumZ].
    rewrite toZ_add, toZ_monthlySurplus. lia.
Qed.

Lemma inMonth_inYear (Y i : Z) (tx : Transaction.t num) :
  inMonth Y i tx = true -> inYear Y tx = true.
Proof. unfold inMonth, inYear. intros Hm. apply andb_true_iff in Hm. tauto. Qed.

Lemma monthZ_empty_year (l : list (Transaction.t num)) (Y i : Z) :
  List.filter (inYear Y) l = [] -> monthZ l Y i = 0.
Proof.
  intros Hy. rewrite filter_none; [reflexivity|].
  intros tx Htx. apply not_true_iff_false. intros Hm.
  assert (Hin : In tx (List.filter (inYear Y) l)).
  { apply filter_In. split; [exact Htx | eapply inMonth_inYear; eauto]. }
  rewrite Hy in Hin. contradiction.
Qed.

Lemma netAssetData_exact (transactions : list (Transaction.t num)) (currentYear : Z) :
  toZ (initialBalance transactions currentYear)
    = sumZ (List.map (signedZ toZ) (List.filter (beforeYear currentYear) transactions))
  /\ (forall i : Z,
        toZ (monthlySurplus transactions currentYear i)
        = sumZ (List.map (signedZ toZ) (List.filter (inMonth currentYear i) transactions)))
  /\ (exists p0 p11 : NetAssetPoint.t num,
        netAssetData transactions currentYear !! 0%nat = Some p0
        /\ netAssetData transactions currentYear !! 11%nat = Some p11
        /\ sub (NetAssetPoint.netAsset p0) (NetAssetPoint.netAsset p11)
           = sub zero (afterJanuaryTotal transactions currentYear)
        /\ sub (initialBalance transactions currentYear) (NetAssetPoint.netAsset p11)
           = sub zero (yearTotal transactions currentYear))
  /\ (List.filter (inYear currentYear) transactions = [] ->
      forall (i : nat) (p : NetAssetPoint.t num),
        netAssetData transactions currentYear !! i = Some p ->
        NetAssetPoint.netAsset p = initialBalance transactions currentYear).
Proof using E.
  assert (Hlen : length (netAssetData transactions currentYear) = 12%nat).
  { unfold netAssetData. rewrite netAssetFrom_length. reflexivity. }
  split.
  { unfold initialBalance. rewrite (fold_signedStep toZ), toZ_zero. lia. }
  split; [intros i; apply toZ_monthlySurplus|].
  split.
  { destruct (lookup_lt_is_Some_2 (netAssetData transactions currentYear) 0%nat ltac:(lia))
      as [p0 H0].
    destruct (lookup_lt_is_Some_2 (netAssetData transactions currentYear) 11%nat ltac:(lia))
      as [p11 H11].
    exists p0, p11. split; [exact H0|]. split; [exact H11|].
    pose proof (netAssetFrom_cumulative _ _ _ _ _ _ H0) as C0.
    pose proof (netAssetFrom_cumulative _ _ _ _ _ _ H11) as C11.
    change (take 12 months) with months in C11.
    change (take 1 months) with [0] in C0. cbn [List.map sumZ] in C0.
    rewrite months_partition in C11.
    split; apply (toZ_inj (toZ := toZ)); rewrite !toZ_sub, toZ_zero.
    - unfold afterJanuaryTotal. rewrite (fold_signedStep toZ), toZ_zero, afterJanuary_split. lia.
    - unfold yearTotal. rewrite (fold_signedStep toZ), toZ_zero. lia. }
  intros Hempty i p Hp. apply (toZ_inj (toZ := toZ)).
  rewrite (netAssetFrom_cumulative _ _ _ _ _ _ Hp).
  assert (Hzero : forall ms, sumZ (List.map (fun i => monthZ transactions currentYear i) ms) = 0).
  { induction ms as [|m ms IH]; [reflexivity|]. cbn [List.map sumZ].
    rewrite IH, (monthZ_empty_year _ _ _ Hempty). lia. }
  rewrite Hzero. lia.
Qed.

End NetAssetFacts.



Example netAssetData_example :
  netAssetData (host := utcHost) yearLedger 2024
  = [NetAssetPoint.mk "Jan" 600; NetAssetPoint.mk "Feb" 600; NetAssetPoint.mk "Mar" 570;
     NetAssetPoint.mk "Apr" 570; NetAssetPoint.mk "May" 570; NetAssetPoint.mk "Jun" 570;
     NetAssetPoint.mk "Jul" 570; NetAssetPoint.mk "Aug" 570; NetAssetPoint.mk "Sep" 570;
     NetAssetPoint.mk "Oct" 570; NetAssetPoint.mk "Nov" 570; NetAssetPoint.mk "Dec" 525].
Proof. vm_compute. reflexivity. Qed.


(* ===================================================================== *)
(** ** The monthly series *)
(* ===================================================================== *)

(** Two lists in strictly ascending order with the same elements are equal. *)
Lemma sorted_unique {A : Type} (R : A -> A -> Prop) :
  (forall x y, R x y -> R y x -> False) ->
  forall l1 l2 : list A,
  StronglySorted R l1 -> StronglySorted R l2 ->
  (forall x, In x l1 <-> In x l2) -> l1 = l2.
Proof.
  intros Hasym l1. induction l1 as [|x l1 IH]; intros l2 H1 H2 Hmem.
  - destruct l2 as [|y l2]; [reflexivity|]. destruct (proj2 (Hmem y)). left. reflexivity.
  - destruct l2 as [|y l2]; [destruct (proj1 (Hmem x)); left; reflexivity|].
    inversion H1 as [|? ? S1 F1]; subst. inversion H2 as [|? ? S2 F2]; subst.
    rewrite Forall_forall in F1, F2.
    assert (Hxy : x = y).
    { destruct (proj1 (Hmem x) (or_introl eq_refl)) as [Hy | Hx]; [congruence|].
      destruct (proj2 (Hmem y) (or_introl eq_refl)) as [Hx' | Hy']; [assumption|].
      exfalso. apply (Hasym x y); [apply F1 | apply F2]; apply list_elem_of_In; assumption. }
    subst y. f_equal. apply IH; auto.
    intros z. split; intros Hz.
    + destruct (proj1 (Hmem z) (or_intror Hz)) as [<- | Hz']; [|exact Hz'].
      exfalso. apply (Hasym x x); apply F1, list_elem_of_In; exact Hz.
    + destruct (proj2 (Hmem z) (or_intror Hz)) as [<- | Hz']; [|exact Hz'].
      exfalso. apply (Hasym x x); apply F2, list_elem_of_In; exact Hz.
Qed.

Lemma StronglySorted_map {A B : Type} (f : A -> B) (R : A -> A -> Prop) (R' : B -> B -> Prop)
    (l : list A) :
  (forall x y, R x y -> R' (f x) (f y)) ->
  StronglySorted R l -> StronglySorted R' (List.map f l).
Proof.
  intros Hf Hs. induction Hs as [|x l Hs IH Hx]; simpl; constructor; [exact IH|].
  rewrite Forall_forall in Hx. apply Forall_forall. intros y Hy.
  apply list_elem_of_In, in_map_iff in Hy. destruct Hy as (z & <- & Hz).
  apply Hf, Hx, list_elem_of_In, Hz.
Qed.

(** Elements with pairwise different images have no duplicate image. *)
Lemma NoDup_map_distinct {A B : Type} (f : A -> B) (l : list A) :
  (forall l1 h l2 h', l = l1 ++ h :: l2 -> In h' l2 -> f h <> f h') ->
  List.NoDup (List.map f l).
Proof.
  induction l as [|x l IH]; intros Hd; simpl; constructor.
  - intros Hx. apply in_map_iff in Hx. destruct Hx as (y & Hy & Hin).
    apply (Hd [] x l y eq_refl Hin). congruence.
  - apply IH. intros l1 h l2 h' -> Hh'. apply (Hd (x :: l1) h l2 h'); auto.
Qed.

Lemma sumZ_perm (l l' : list Z) : Permutation l l' -> sumZ l = sumZ l'.
Proof. induction 1; simpl; lia. Qed.

Lemma filter_perm {A : Type} (f : A -> bool) (l l' : list A) :
  Permutation l l' -> Permutation (List.filter f l) (List.filter f l').
Proof.
  induction 1; simpl.
  - constructor.
  - destruct (f x); [constructor|]; assumption.
  - destruct (f x), (f y); try reflexivity. apply perm_swap.
  - etransitivity; eassumption.
Qed.

Section MonthlyFacts.
Context {num : Type} {N : Number num} {host : Host}.

(** *** The code meets the specification *)

Lemma sameLabel_sym (a b : Transaction.t num) : sameLabel a b = sameLabel b a.
Proof. apply String.eqb_sym. Qed.

Lemma sameLabel_trans (a b c : Transaction.t num) :
  sameLabel a b = true -> sameLabel b c = true -> sameLabel a c = true.
Proof. unfold sameLabel. rewrite !String.eqb_eq. congruence. Qed.

Lemma sameLabel_refl (a : Transaction.t num) : True -> sameLabel a a = true.
Proof. intros _. apply String.eqb_refl. Qed.

Lemma monthEntry_snoc (l : list (Transaction.t num)) (h t : Transaction.t num) :
  monthEntry (l ++ [t]) h
  = if sameLabel h t then recordTransaction t (monthEntry l h) else monthEntry l h.
Proof.
  unfold monthEntry, recordTransaction. rewrite List.filter_app. simpl.
  destruct (sameLabel h t).
  - simpl. rewrite !List.filter_app, !fold_left_app. simpl. unfold signedStep at 1.
    destruct (isIncome t); simpl; rewrite ?app_nil_r, ?fold_left_app; reflexivity.
  - rewrite app_nil_r. reflexivity.
Qed.

Lemma hasKey_keyed (l hs : list (Transaction.t num)) (t : Transaction.t num) :
  hasKey (label t) (List.map (keyed l) hs) = existsb (fun h => sameLabel h t) hs.
Proof. unfold hasKey. induction hs as [|h hs IH]; simpl; [reflexivity|]. rewrite IH. reflexivity. Qed.

Lemma updateKey_keyed (l hs : list (Transaction.t num)) (t : Transaction.t num) :
  updateKey (label t) (recordTransaction t) (List.map (keyed l) hs)
  = List.map (keyed (l ++ [t])) hs.
Proof.
  unfold updateKey. rewrite List.map_map. apply map_ext. intros h.
  unfold keyed. simpl. rewrite monthEntry_snoc. unfold sameLabel.
  destruct (String.eqb (label h) (label t)); reflexivity.
Qed.

Lemma fold_monthlyStep_snoc (l : list (Transaction.t num)) (t : Transaction.t num) :
  fold_left monthlyStep (l ++ [t]) [] = monthlyStep (fold_left monthlyStep l []) t.
Proof. rewrite fold_left_app. reflexivity. Qed.

(** The object [data] after the loop: one entry per label, in order of
    first occurrence. *)
Lemma fold_monthlyStep_keyed (l : list (Transaction.t num)) :
  fold_left monthlyStep l [] = List.map (keyed l) (openers sameLabel [] l).
Proof.
  induction l as [|t l IH] using rev_ind; [reflexivity|].
  rewrite fold_monthlyStep_snoc, IH, openers_snoc. simpl.
  unfold monthlyStep. fold (label t). rewrite hasKey_keyed.
  unfold opens. destruct (existsb (fun h => sameLabel h t) (openers sameLabel [] l)) eqn:Hex.
  - (* the label is a key of [data] *)
    assert (Hopen : existsb (fun u => sameLabel u t) l = true).
    { apply existsb_exists in Hex. destruct Hex as (h & Hh & Hs).
      apply existsb_exists. exists h. split; [eapply openers_In; eauto | exact Hs]. }
    rewrite Hopen. simpl. rewrite app_nil_r. apply updateKey_keyed.
  - (* a new key is added *)
    assert (Hopen : existsb (fun u => sameLabel u t) l = false).
    { apply not_true_iff_false. intros He. apply existsb_exists in He.
      destruct He as (u & Hu & Hs).
      destruct (openers_cover sameLabel (fun _ => True) sameLabel_trans sameLabel_refl
                  l [] u ltac:(apply Forall_forall; auto) Hu)
        as [(h & Hh & Hhs) | (v & [] & _)].
      assert (Hht : sameLabel h t = true) by (eapply sameLabel_trans; eauto).
      rewrite <- not_true_iff_false in Hex. apply Hex.
      apply existsb_exists. exists h. split; assumption. }
    rewrite Hopen. simpl.
    unfold updateKey. rewrite List.map_app. simpl. rewrite String.eqb_refl.
    rewrite List.map_app. f_equal.
    + fold (updateKey (label t) (recordTransaction t) (List.map (keyed l) (openers sameLabel [] l))).
      apply updateKey_keyed.
    + simpl. f_equal. unfold keyed. f_equal.
      unfold monthEntry, recordTransaction. rewrite List.filter_app. simpl.
      rewrite (sameLabel_refl t I).
      assert (Hempty : List.filter (sameLabel t) l = []).
      { apply filter_none. intros u Hu. rewrite sameLabel_sym.
        apply not_true_iff_false. intros Hs. rewrite <- not_true_iff_false in Hopen.
        apply Hopen. apply existsb_exists. exists u. split; assumption. }
      rewrite Hempty. simpl. unfold signedStep. destruct (isIncome t); reflexivity.
Qed.

(** [monthlyData] is the specification's series. *)
Lemma monthlyData_monthlySeries (l : list (Transaction.t num)) :
  monthlyData l = monthlySeries l.
Proof.
  unfold monthlyData, monthlySeries, monthlyEntries. rewrite fold_monthlyStep_keyed.
  rewrite List.map_map. reflexivity.
Qed.

(** *** Order *)

Lemma monthBefore_asym (a b : option Z) : monthBefore a b -> monthBefore b a -> False.
Proof.
  intros (ka & kb & -> & -> & Hlt) (kb' & ka' & [= <-] & [= <-] & Hlt'). lia.
Qed.

Lemma monthlyEntries_key (l : list (Transaction.t num)) (e : MonthEntry.t num) :
  In e (monthlyEntries l) ->
  exists h, In h l /\ In h (openers sameLabel [] l) /\ e = monthEntry l h.
Proof.
  unfold monthlyEntries. intros He. apply in_map_iff in He. destruct He as (h & <- & Hh).
  exists h. repeat split; auto. eapply openers_In; eauto.
Qed.

Lemma monthlyEntries_NoDup (l : list (Transaction.t num)) :
  labelsFaithful l -> List.NoDup (List.map MonthEntry.sortKey (monthlyEntries l)).
Proof.
  intros Hf. unfold monthlyEntries. rewrite List.map_map. simpl.
  apply NoDup_map_distinct. intros l1 h l2 h' Heq Hh' Hk.
  assert (Hin : forall x, In x (l1 ++ h :: l2) -> In x l).
  { intros x Hx. rewrite <- Heq in Hx. eapply openers_In; eauto. }
  assert (Hd := openers_distinct sameLabel l [] l1 h l2 h' Heq Hh').
  unfold sameLabel in Hd. apply String.eqb_neq in Hd. apply Hd.
  apply Hf; auto.
  - apply Hin. apply in_or_app. right. left. reflexivity.
  - apply Hin. apply in_or_app. right. right. exact Hh'.
Qed.

Lemma sorted_le_NoDup_lt (s : list (MonthEntry.t num)) :
  StronglySorted (notAfter bySortKey) s ->
  Forall (fun e => MonthEntry.sortKey e <> None) s ->
  List.NoDup (List.map MonthEntry.sortKey s) ->
  StronglySorted entryBefore s.
Proof.
  induction 1 as [|x s Hs IH Hx]; intros Hv Hn; constructor.
  - apply IH; [inversion Hv | inversion Hn]; assumption.
  - inversion Hv as [|? ? Vx Vs]; subst. inversion Hn as [|? ? Nx Ns]; subst.
    rewrite Forall_forall in Hx, Vs. apply Forall_forall. intros y Hy.
    specialize (Hx y Hy). specialize (Vs y Hy).
    unfold notAfter, SortCompare, bySortKey, timeDiff in Hx.
    unfold entryBefore, monthBefore.
    destruct (MonthEntry.sortKey x) as [kx|] eqn:Ex; [|congruence].
    destruct (MonthEntry.sortKey y) as [ky|] eqn:Ey; [|congruence].
    exists kx, ky. repeat split.
    destruct (Z.compare_spec kx ky) as [Heq | Hlt | Hgt]; simpl in Hx; try congruence; try lia.
    exfalso. apply Nx. subst ky. rewrite <- Ey. apply in_map. apply list_elem_of_In. exact Hy.
Qed.

Lemma bySortKey_consistent :
  (forall x y : MonthEntry.t num,
     MonthEntry.sortKey x <> None -> MonthEntry.sortKey y <> None ->
     SortCompare bySortKey x y = Gt -> notAfter bySortKey y x)
  /\ (forall x y z : MonthEntry.t num,
     MonthEntry.sortKey x <> None -> MonthEntry.sortKey y <> None -> MonthEntry.sortKey z <> None ->
     notAfter bySortKey x y -> notAfter bySortKey y z -> notAfter bySortKey x z).
Proof.
  unfold notAfter, SortCompare, bySortKey, timeDiff. split.
  - intros x y Hx Hy.
    destruct (MonthEntry.sortKey x) as [kx|]; [|congruence].
    destruct (MonthEntry.sortKey y) as [ky|]; [|congruence].
    rewrite (Z.compare_antisym kx ky). destruct (kx ?= ky); simpl; congruence.
  - intros x y z Hx Hy Hz.
    destruct (MonthEntry.sortKey x) as [kx|]; [|congruence].
    destruct (MonthEntry.sortKey y) as [ky|]; [|congruence].
    destruct (MonthEntry.sortKey z) as [kz|]; [|congruence].
    destruct (Z.compare_spec kx ky), (Z.compare_spec ky kz), (Z.compare_spec kx kz);
      simpl; try congruence; lia.
Qed.

(** The series is in strictly ascending order of first-of-month instant. *)
Lemma monthlySeries_sorted (l : list (Transaction.t num)) :
  wellKeyed l -> labelsFaithful l -> StronglySorted entryBefore (monthlySeries l).
Proof.
  intros Hk Hf. unfold monthlySeries.
  assert (Hv : Forall (fun e => MonthEntry.sortKey e <> None) (monthlyEntries l)).
  { apply Forall_forall. intros e He. apply list_elem_of_In, monthlyEntries_key in He.
    destruct He as (h & Hh & _ & ->). simpl. apply Hk. exact Hh. }
  apply sorted_le_NoDup_lt.
  - apply (Array_sort_sorted bySortKey (fun e => MonthEntry.sortKey e <> None));
      [apply bySortKey_consistent | apply bySortKey_consistent | exact Hv].
  - eapply Permutation_Forall; [symmetry; apply Array_sort_perm | exact Hv].
  - eapply Permutation_NoDup; [apply Permutation_map; symmetry; apply Array_sort_perm|].
    apply monthlyEntries_NoDup. exact Hf.
Qed.

(** *** Independence of the input order *)

Lemma wellKeyed_perm (l l' : list (Transaction.t num)) :
  Permutation l l' -> wellKeyed l -> wellKeyed l'.
Proof. intros Hp Hk tx Htx. apply Hk. eapply Permutation_in; [symmetry|]; eauto. Qed.

Lemma labelsFaithful_perm (l l' : list (Transaction.t num)) :
  Permutation l l' -> labelsFaithful l -> labelsFaithful l'.
Proof.
  intros Hp Hf a b Ha Hb. apply Hf; eapply Permutation_in; try eassumption; symmetry; exact Hp.
Qed.

(** Every transaction has the label of an opener. *)
Lemma openers_label (l : list (Transaction.t num)) (tx : Transaction.t num) :
  In tx l -> exists h, In h (openers sameLabel [] l) /\ label h = label tx.
Proof.
  intros Htx.
  destruct (openers_cover sameLabel (fun _ => True) sameLabel_trans sameLabel_refl
              l [] tx ltac:(apply Forall_forall; auto) Htx)
    as [(h & Hh & Hs) | (v & [] & _)].
  exists h. split; [exact Hh|]. apply String.eqb_eq. exact Hs.
Qed.

Section Projection.
Context {B : Type}.
Variable f : MonthEntry.t num -> B.
Variable kf : B -> option Z.
Hypothesis kf_key : forall e, kf (f e) = MonthEntry.sortKey e.

Lemma series_member_perm (l l' : list (Transaction.t num)) (x : B) :
  Permutation l l' ->
  (forall h h', In h l -> In h' l' -> label h = label h' ->
     f (monthEntry l h) = f (monthEntry l' h')) ->
  In x (List.map f (monthlySeries l)) -> In x (List.map f (monthlySeries l')).
Proof.
  intros Hp Hf Hx. apply in_map_iff in Hx. destruct Hx as (e & <- & He).
  unfold monthlySeries in He. apply (Permutation_in _ (Array_sort_perm _ _)) in He.
  apply monthlyEntries_key in He. destruct He as (h & Hh & _ & ->).
  assert (Hh' : In h l') by (eapply Permutation_in; eauto).
  destruct (openers_label l' h Hh') as (h' & Ho & Hl).
  rewrite (Hf h h' Hh (openers_In _ _ _ _ Ho) (eq_sym Hl)).
  apply in_map. unfold monthlySeries.
  apply (Permutation_in _ (Permutation_sym (Array_sort_perm _ _))).
  unfold monthlyEntries. apply in_map. exact Ho.
Qed.

Lemma series_map_perm (l l' : list (Transaction.t num)) :
  wellKeyed l -> labelsFaithful l -> Permutation l l' ->
  (forall h h', In h l -> In h' l' -> label h = label h' ->
     f (monthEntry l h) = f (monthEntry l' h')) ->
  List.map f (monthlySeries l') = List.map f (monthlySeries l).
Proof using kf_key.
  intros Hk Hfa Hp Hf.
  apply (sorted_unique (fun a b => monthBefore (kf a) (kf b))).
  - intros x y. apply monthBefore_asym.
  - apply (StronglySorted_map f entryBefore).
    + intros x y Hxy. rewrite !kf_key. exact Hxy.
    + apply monthlySeries_sorted;
        [eapply wellKeyed_perm | eapply labelsFaithful_perm]; eauto.
  - apply (StronglySorted_map f entryBefore).
    + intros x y Hxy. rewrite !kf_key. exact Hxy.
    + apply monthlySeries_sorted; assumption.
  - intros x. split.
    + apply series_member_perm; [symmetry; exact Hp|].
      intros h' h Hh' Hh Hl. symmetry. apply Hf; auto.
    + apply series_member_perm; assumption.
Qed.

End Projection.

(** The months of the series and their order do not depend on the order
    of the transactions. *)
Lemma monthlySeries_months_perm (l l' : list (Transaction.t num)) :
  wellKeyed l -> labelsFaithful l -> Permutation l l' ->
  List.map (fun e => (MonthEntry.month e, MonthEntry.sortKey e)) (monthlySeries l')
  = List.map (fun e => (MonthEntry.month e, MonthEntry.sortKey e)) (monthlySeries l).
Proof.
  intros Hk Hf Hp.
  apply (series_map_perm (fun e => (MonthEntry.month e, MonthEntry.sortKey e)) snd); auto.
  intros h h' Hh Hh' Hl. simpl. f_equal; [exact Hl|].
  apply Hf; auto. eapply Permutation_in; [symmetry|]; eauto.
Qed.

Variable toZ : num -> Z.
Context {E : ExactArith toZ}.

Lemma fold_plusStep_perm (l l' : list (Transaction.t num)) :
  Permutation l l' -> fold_left plusStep l zero = fold_left plusStep l' zero.
Proof using E.
  intros Hp. apply (toZ_inj (toZ := toZ)). rewrite !(fold_plusStep toZ).
  f_equal. apply sumZ_perm, Permutation_map, Hp.
Qed.

Lemma fold_signedStep_perm (l l' : list (Transaction.t num)) :
  Permutation l l' -> fold_left signedStep l zero = fold_left signedStep l' zero.
Proof using E.
  intros Hp. apply (toZ_inj (toZ := toZ)). rewrite !(fold_signedStep toZ).
  f_equal. apply sumZ_perm, Permutation_map, Hp.
Qed.

Lemma monthEntry_perm (l l' : list (Transaction.t num)) (h h' : Transaction.t num) :
  Permutation l l' -> label h = label h' ->
  monthSortKey (Transaction.date h) = monthSortKey (Transaction.date h') ->
  monthEntry l h = monthEntry l' h'.
Proof using E.
  intros Hp Hl Hk. unfold monthEntry.
  assert (Hm : Permutation (List.filter (sameLabel h) l) (List.filter (sameLabel h') l')).
  { rewrite (filter_ext (sameLabel h) (sameLabel h')).
    - apply filter_perm. exact Hp.
    - intros u. unfold sameLabel. rewrite Hl. reflexivity. }
  rewrite Hl, Hk. f_equal.
  - apply fold_plusStep_perm, filter_perm, Hm.
  - apply fold_plusStep_perm, filter_perm, Hm.
  - apply fold_signedStep_perm, Hm.
Qed.

(** In exact arithmetic the whole series does not depend on the order of
    the transactions. *)
Lemma monthlySeries_perm (l l' : list (Transaction.t num)) :
  wellKeyed l -> labelsFaithful l -> Permutation l l' ->
  monthlySeries l' = monthlySeries l.
Proof using E.
  intros Hk Hf Hp.
  rewrite <- (List.map_id (monthlySeries l')), <- (List.map_id (monthlySeries l)).
  apply (series_map_perm (fun e => e) MonthEntry.sortKey); auto.
  intros h h' Hh Hh' Hl. apply monthEntry_perm; auto.
  apply Hf; auto. eapply Permutation_in; [symmetry|]; eauto.
Qed.

(** In exact arithmetic the surplus of an entry is its income minus its expense. *)
Lemma monthEntry_surplus (l : list (Transaction.t num)) (h : Transaction.t num) :
  MonthEntry.surplus (monthEntry l h)
  = sub (MonthEntry.income (monthEntry l h)) (MonthEntry.expense (monthEntry l h)).
Proof using E.
  unfold monthEntry. simpl. apply (toZ_inj (toZ := toZ)).
  rewrite toZ_sub, (fold_signedStep toZ), !(fold_plusStep toZ), toZ_zero.
  rewrite (sumZ_signed_split toZ).
  rewrite (filter_ext isExpense (fun u => negb (isIncome u))); [lia|].
  intros u. apply isIncome_isExpense.
Qed.

End MonthlyFacts.



Lemma decemberJanuary_wellKeyed : wellKeyed (host := utcHost) [january; december].
Proof.
  intros tx [<- | [<- | []]]; vm_compute; discriminate.
Qed.

Lemma decemberJanuary_faithful : labelsFaithful (host := utcHost) [january; december].
Proof.
  intros a b [<- | [<- | []]] [<- | [<- | []]]; vm_compute; split; intros H;
    try reflexivity; discriminate.
Qed.


(* ===================================================================== *)
(** ** Further properties of sorting *)
(* ===================================================================== *)

Lemma StronglySorted_weaken {A : Type} (P : A -> Prop) (R R' : A -> A -> Prop) (l : list A) :
  (forall x y, P x -> P y -> R x y -> R' x y) ->
  Forall P l -> StronglySorted R l -> StronglySorted R' l.
Proof.
  intros HR Hl Hs. induction Hs as [|x l Hs IH Hx]; constructor.
  - apply IH. inversion Hl; assumption.
  - inversion Hl as [|? ? Px Pl]; subst.
    rewrite List.Forall_forall in *. intros y Hy. apply HR; auto.
Qed.

Section StabilityFacts.
Context {A : Type}.
Variable comparefn : A -> A -> Sign.
Variable p : A -> bool.
Hypothesis ties : forall x y, p x = true -> p y = true -> SortCompare comparefn x y <> Gt.

Lemma sort_insert_stable (x : A) (l : list A) :
  List.filter p (sort_insert comparefn x l) = List.filter p (x :: l).
Proof using ties.
  induction l as [|y l IH]; [reflexivity|].
  cbn [sort_insert]. destruct (SortCompare comparefn x y) eqn:Hc; try reflexivity.
  cbn [List.filter] in *. rewrite IH.
  destruct (p x) eqn:Hx, (p y) eqn:Hy; try reflexivity.
  exfalso. exact (ties x y Hx Hy Hc).
Qed.

(** The elements of a class of ties keep the order they have in the input. *)
Lemma Array_sort_stable (l : list A) :
  List.filter p (Array_sort comparefn l) = List.filter p l.
Proof using ties.
  induction l as [|x l IH]; [reflexivity|].
  cbn [Array_sort]. rewrite sort_insert_stable. cbn [List.filter]. rewrite IH. reflexivity.
Qed.

End StabilityFacts.

Section DateSortFacts.
Context {num : Type} {N : Number num} {host : Host}.

Lemma notAfter_byDateDesc (a b : Transaction.t num) :
  validDate a -> validDate b -> (notAfter byDateDesc a b <-> notEarlier a b).
Proof.
  unfold validDate, notAfter, notEarlier, SortCompare, byDateDesc, timeDiff.
  intros Ha Hb.
  destruct (getTime (Transaction.date a)) as [ta|]; [|congruence].
  destruct (getTime (Transaction.date b)) as [tb|]; [|congruence].
  destruct (Z.compare_spec tb ta); simpl; split; try congruence.
  - intros _. exists ta, tb. repeat split; lia.
  - intros _. exists ta, tb. repeat split; lia.
  - intros (ta' & tb' & Hta & Htb & Hle). injection Hta as <-. injection Htb as <-. lia.
Qed.

Lemma notAfter_byDateAsc (a b : Transaction.t num) :
  validDate a -> validDate b -> (notAfter byDateAsc a b <-> notEarlier b a).
Proof.
  unfold validDate, notAfter, notEarlier, SortCompare, byDateAsc, timeDiff.
  intros Ha Hb.
  destruct (getTime (Transaction.date a)) as [ta|]; [|congruence].
  destruct (getTime (Transaction.date b)) as [tb|]; [|congruence].
  destruct (Z.compare_spec ta tb); simpl; split; try congruence.
  - intros _. exists tb, ta. repeat split; lia.
  - intros _. exists tb, ta. repeat split; lia.
  - intros (tb' & ta' & Htb & Hta & Hle). injection Hta as <-. injection Htb as <-. lia.
Qed.

Lemma notEarlier_trans (x y z : Transaction.t num) :
  notEarlier x y -> notEarlier y z -> notEarlier x z.
Proof.
  intros (tx & ty & Hx & Hy & Hle1) (ty' & tz & Hy' & Hz & Hle2).
  rewrite Hy in Hy'. injection Hy' as <-. exists tx, tz. repeat split; auto. lia.
Qed.

Lemma notEarlier_total (x y : Transaction.t num) :
  validDate x -> validDate y -> notEarlier x y \/ notEarlier y x.
Proof.
  unfold validDate, notEarlier. intros Hx Hy.
  destruct (getTime (Transaction.date x)) as [tx|]; [|congruence].
  destruct (getTime (Transaction.date y)) as [ty|]; [|congruence].
  destruct (Z.le_gt_cases ty tx); [left | right]; eexists _, _; repeat split; lia.
Qed.

Lemma sortedList_sorted_valid (sortOption : SortOption) (R : Transaction.t num -> Transaction.t num -> Prop)
    (l : list (Transaction.t num)) :
  (forall a b, validDate a -> validDate b -> (notAfter (comparator sortOption) a b <-> R a b)) ->
  (forall x y, validDate x -> validDate y -> R x y \/ R y x) ->
  (forall x y z, R x y -> R y z -> R x z) ->
  Forall validDate l -> StronglySorted R (sortedList sortOption l).
Proof.
  intros Hiff Htotal Htrans Hl.
  assert (Hv : Forall validDate (sortedList sortOption l)).
  { eapply Permutation_Forall; [symmetry; apply Array_sort_perm | exact Hl]. }
  apply (StronglySorted_weaken validDate (notAfter (comparator sortOption))); auto.
  - intros x y Hx Hy. apply Hiff; assumption.
  - apply (Array_sort_sorted (comparator sortOption) validDate); auto.
    + intros x y Hx Hy Hgt. apply Hiff; auto.
      destruct (Htotal x y Hx Hy) as [Hxy | Hyx]; [|exact Hyx].
      apply Hiff in Hxy; auto. unfold notAfter in Hxy. congruence.
    + intros x y z Hx Hy Hz Hxy Hyz. apply Hiff; auto.
      apply (Htrans x y z); apply Hiff; auto.
Qed.

End DateSortFacts.



Example sort_by_date_example :
  List.map Transaction.id (sortedList (host := utcHost) DATE_DESC typedLedger) = ["3"; "4"; "1"; "2"]
  /\ List.map Transaction.id (sortedList (host := utcHost) DATE_ASC typedLedger) = ["2"; "1"; "4"; "3"].
Proof. vm_compute. split; reflexivity. Qed.

Section AmountSortFacts.
Context {num : Type} {N : Number num} {host : Host}.
Variable toZ : num -> Z.
Context {E : ExactArith toZ}.

Lemma notAfter_byAmountDesc (a b : Transaction.t num) :
  notAfter byAmountDesc a b <-> toZ (Transaction.amount b) <= toZ (Transaction.amount a).
Proof using E.
  unfold notAfter, SortCompare, byAmountDesc. rewrite toZ_sign, toZ_sub.
  destruct (Z.compare_spec (toZ (Transaction.amount b) - toZ (Transaction.amount a)) 0);
    simpl; split; intros; try congruence; lia.
Qed.

Lemma notAfter_byAmountAsc (a b : Transaction.t num) :
  notAfter byAmountAsc a b <-> toZ (Transaction.amount a) <= toZ (Transaction.amount b).
Proof using E.
  unfold notAfter, SortCompare, byAmountAsc. rewrite toZ_sign, toZ_sub.
  destruct (Z.compare_spec (toZ (Transaction.amount a) - toZ (Transaction.amount b)) 0);
    simpl; split; intros; try congruence; lia.
Qed.

Lemma sortedList_amount_sorted (l : list (Transaction.t num)) :
  StronglySorted (fun a b => toZ (Transaction.amount b) <= toZ (Transaction.amount a))
    (sortedList AMOUNT_DESC l)
  /\ StronglySorted (fun a b => toZ (Transaction.amount a) <= toZ (Transaction.amount b))
       (sortedList AMOUNT_ASC l).
Proof using E.
  assert (Hall : forall s : list (Transaction.t num), Forall (fun _ => True) s).
  { intros s. apply List.Forall_forall. auto. }
  split.
  - apply (StronglySorted_weaken (fun _ => True) (notAfter byAmountDesc)); auto.
    + intros x y _ _. apply notAfter_byAmountDesc.
    + apply (Array_sort_sorted byAmountDesc (fun _ => True)); auto.
      * intros x y _ _ Hgt. apply notAfter_byAmountDesc.
        assert (Hn : ~ notAfter byAmountDesc x y) by (unfold notAfter; congruence).
        rewrite notAfter_byAmountDesc in Hn. lia.
      * intros x y z _ _ _. rewrite !notAfter_byAmountDesc. lia.
  - apply (StronglySorted_weaken (fun _ => True) (notAfter byAmountAsc)); auto.
    + intros x y _ _. apply notAfter_byAmountAsc.
    + apply (Array_sort_sorted byAmountAsc (fun _ => True)); auto.
      * intros x y _ _ Hgt. apply notAfter_byAmountAsc.
        assert (Hn : ~ notAfter byAmountAsc x y) by (unfold notAfter; congruence).
        rewrite notAfter_byAmountAsc in Hn. lia.
      * intros x y z _ _ _. rewrite !notAfter_byAmountAsc. lia.
Qed.

End AmountSortFacts.



Section StableSortFacts.
Context {num : Type} {N : Number num} {host : Host}.

Lemma atInstant_ties (k : Z) (x y : Transaction.t num) :
  atInstant k x = true -> atInstant k y = true ->
  SortCompare byDateDesc x y = Eq /\ SortCompare byDateAsc x y = Eq.
Proof.
  unfold atInstant. rewrite !strictEq_true.
  intros (z & Hx & Hz) (z' & Hy & Hz'). injection Hz as <-. injection Hz' as <-.
  unfold SortCompare, byDateDesc, byDateAsc, timeDiff. rewrite Hx, Hy, Z.compare_refl.
  split; reflexivity.
Qed.

Lemma sortedList_date_stable (k : Z) (l : list (Transaction.t num)) :
  List.filter (atInstant k) (sortedList DATE_DESC l) = List.filter (atInstant k) l
  /\ List.filter (atInstant k) (sortedList DATE_ASC l) = List.filter (atInstant k) l.
Proof.
  split; apply Array_sort_stable; intros x y Hx Hy;
    destruct (atInstant_ties k x y Hx Hy) as [Hd Ha]; simpl; congruence.
Qed.

Lemma sortedList_type_stable (first ty : TransactionType) (k : Z) (l : list (Transaction.t num)) :
  List.filter (fun t => ofType ty t && atInstant k t) (Array_sort (byType first) l)
  = List.filter (fun t => ofType ty t && atInstant k t) l.
Proof.
  apply Array_sort_stable. intros x y Hx Hy.
  apply andb_true_iff in Hx. destruct Hx as [Tx Kx].
  apply andb_true_iff in Hy. destruct Hy as [Ty Ky].
  unfold ofType in *. apply TransactionType_eqb_eq in Tx, Ty.
  destruct (atInstant_ties k x y Kx Ky) as [Hd _].
  unfold SortCompare in *. unfold byType. rewrite Tx, Ty.
  replace (TransactionType_eqb ty ty) with true by (destruct ty; reflexivity).
  rewrite Hd. discriminate.
Qed.

Lemma sortedList_amount_stable (toZ : num -> Z) (E : ExactArith toZ) (k : Z)
    (l : list (Transaction.t num)) :
  List.filter (fun t => toZ (Transaction.amount t) =? k) (sortedList AMOUNT_DESC l)
  = List.filter (fun t => toZ (Transaction.amount t) =? k) l
  /\ List.filter (fun t => toZ (Transaction.amount t) =? k) (sortedList AMOUNT_ASC l)
     = List.filter (fun t => toZ (Transaction.amount t) =? k) l.
Proof.
  split; apply Array_sort_stable; intros x y Hx Hy;
    apply Z.eqb_eq in Hx, Hy; simpl.
  - assert (H : notAfter byAmountDesc x y) by (apply (notAfter_byAmountDesc toZ); lia).
    exact H.
  - assert (H : notAfter byAmountAsc x y) by (apply (notAfter_byAmountAsc toZ); lia).
    exact H.
Qed.

End StableSortFacts.


(* ===================================================================== *)
(** ** What grouping keeps, whatever the input *)
(* ===================================================================== *)

Lemma updateFirst_cases {A : Type} (p : A -> bool) (f : A -> A) (l : list A) :
  (updateFirst p f l = None /\ forall x, In x l -> p x = false)
  \/ (exists l1 x l2, l = l1 ++ x :: l2 /\ p x = true /\ (forall y, In y l1 -> p y = false)
        /\ updateFirst p f l = Some (l1 ++ f x :: l2)).
Proof.
  destruct (first_split p l) as [Hnone | (l1 & x & l2 & -> & Hx & Hl1)].
  - left. split; [apply updateFirst_none|]; exact Hnone.
  - right. exists l1, x, l2. repeat split; auto. apply updateFirst_some; auto.
Qed.

Lemma ForallOrdPairs_snoc {A : Type} (R : A -> A -> Prop) (l : list A) (x : A) :
  ForallOrdPairs R l -> Forall (fun y => R y x) l -> ForallOrdPairs R (l ++ [x]).
Proof.
  induction 1 as [|a l Ha Hl IH]; intros Hx; simpl.
  - repeat constructor.
  - inversion Hx as [|? ? Hax Hlx]; subst. constructor; [|apply IH; exact Hlx].
    apply Forall_app. split; [exact Ha | repeat constructor; exact Hax].
Qed.

Lemma ForallOrdPairs_map_eq {A B : Type} (f : A -> B) (R : B -> B -> Prop) (l : list A) :
  forall l', List.map f l = List.map f l' ->
  ForallOrdPairs (fun a b => R (f a) (f b)) l -> ForallOrdPairs (fun a b => R (f a) (f b)) l'.
Proof.
  induction l as [|a l IH]; intros [|a' l'] Heq Hl; try discriminate; [constructor|].
  simpl in Heq. injection Heq as Ha Heq. inversion Hl as [|? ? Hal Hl']; subst.
  constructor; [|apply IH; assumption].
  rewrite List.Forall_forall in *. intros b' Hb'. rewrite <- Ha.
  assert (Hin : In (f b') (List.map f l)) by (rewrite Heq; apply in_map; exact Hb').
  apply in_map_iff in Hin. destruct Hin as (b & Hfb & Hb). rewrite <- Hfb. apply Hal. exact Hb.
Qed.

Section GroupInvariantFacts.
Context {num : Type} {N : Number num} {host : Host}.

Lemma wellFormedGroup_new (t : Transaction.t num) :
  wellFormedGroup (pushTransaction t (DailyGroup.mk (Transaction.date t) [] zero zero)).
Proof.
  exists t, []. unfold pushTransaction. simpl.
  repeat split; try constructor; destruct (isExpense t); reflexivity.
Qed.

Lemma wellFormedGroup_push (t : Transaction.t num) (g : DailyGroup.t num) :
  wellFormedGroup g -> sameDay (DailyGroup.date g) (Transaction.date t) = true ->
  wellFormedGroup (pushTransaction t g).
Proof.
  intros (t0 & rest & Htr & Hdate & Hrest & He & Hi) Hsame.
  exists t0, (rest ++ [t]). unfold pushTransaction. cbn [DailyGroup.transactions
    DailyGroup.date DailyGroup.totalExpense DailyGroup.totalIncome].
  rewrite He, Hi, Htr.
  split; [reflexivity|]. split; [exact Hdate|]. split; [|split].
  - apply Forall_app. split; [exact Hrest | repeat constructor; exact Hsame].
  - rewrite List.filter_app, fold_left_app. cbn [List.filter].
    destruct (isExpense t); reflexivity.
  - rewrite List.filter_app, fold_left_app. cbn [List.filter].
    destruct (isExpense t); reflexivity.
Qed.

Lemma groupMembers_app (gs gs' : list (DailyGroup.t num)) :
  groupMembers (gs ++ gs') = groupMembers gs ++ groupMembers gs'.
Proof. unfold groupMembers. rewrite List.map_app, concat_app. reflexivity. Qed.

(** Every list of groups that [groupedTransactions] builds. *)
Lemma groupedTransactions_invariant (l : list (Transaction.t num)) :
  Permutation (groupMembers (groupedTransactions l)) l
  /\ Forall wellFormedGroup (groupedTransactions l)
  /\ Forall (fun g => sublist (DailyGroup.transactions g) l) (groupedTransactions l)
  /\ daysApart (groupedTransactions l).
Proof.
  induction l as [|t l IH] using rev_ind.
  - repeat split; constructor.
  - destruct IH as (Hperm & Hwf & Hsub & Hapart).
    rewrite groupedTransactions_snoc. unfold groupStep.
    destruct (updateFirst_cases (fun g => sameDay (DailyGroup.date g) (Transaction.date t))
                (pushTransaction t) (groupedTransactions l))
      as [[-> Hnone] | (l1 & g & l2 & Heq & Hg & Hl1 & ->)].
    + (* a new group *)
      repeat split.
      * rewrite groupMembers_app. unfold groupMembers at 2. simpl.
        apply Permutation_app; [exact Hperm | reflexivity].
      * apply Forall_app. split; [exact Hwf | repeat constructor; apply wellFormedGroup_new].
      * apply Forall_app. split.
        -- eapply List.Forall_impl; [|exact Hsub]. intros g Hg. simpl in Hg.
           apply sublist_inserts_r. exact Hg.
        -- repeat constructor. simpl. apply sublist_inserts_l. reflexivity.
      * apply ForallOrdPairs_snoc; [exact Hapart|].
        apply List.Forall_forall. intros g Hg. simpl. apply Hnone. exact Hg.
    + (* the group of the day is extended *)
      rewrite Heq in Hperm, Hwf, Hsub, Hapart.
      apply Forall_app in Hwf. destruct Hwf as [Hwf1 Hwf2].
      inversion Hwf2 as [|? ? Hwfg Hwf2']; subst.
      apply Forall_app in Hsub. destruct Hsub as [Hsub1 Hsub2].
      inversion Hsub2 as [|? ? Hsubg Hsub2']; subst.
      repeat split.
      * rewrite groupMembers_app in *. unfold groupMembers in *. simpl in *.
        rewrite <- Hperm, <- ?app_assoc. apply Permutation_app_head.
        rewrite <- ?app_assoc. apply Permutation_app_head.
        apply Permutation_app_comm.
      * apply Forall_app. split; [exact Hwf1|].
        constructor; [apply wellFormedGroup_push; assumption | exact Hwf2'].
      * apply Forall_app. split; [|constructor].
        -- eapply List.Forall_impl; [|exact Hsub1]. intros g' Hg'. simpl in Hg'.
           apply sublist_inserts_r. exact Hg'.
        -- simpl. apply sublist_app; [exact Hsubg | reflexivity].
        -- eapply List.Forall_impl; [|exact Hsub2']. intros g' Hg'. simpl in Hg'.
           apply sublist_inserts_r. exact Hg'.
      * unfold daysApart in *.
        apply (ForallOrdPairs_map_eq DailyGroup.date (fun d d' => sameDay d d' = false)
                 (l1 ++ g :: l2)); [|exact Hapart].
        rewrite !List.map_app. reflexivity.
Qed.

Lemma sameDay_valid_r (d d' : string) : sameDay d d' = true -> getTime d' <> None.
Proof.
  unfold sameDay, getFullYear, getTime. intros H.
  apply andb_true_iff in H. destruct H as [H _].
  apply andb_true_iff in H. destruct H as [H _].
  apply strictEq_true in H. destruct H as (z & _ & Hz).
  destruct (Date_parse d'); [discriminate | discriminate].
Qed.

Lemma sameDay_valid_l (d d' : string) : sameDay d d' = true -> getTime d <> None.
Proof. rewrite sameDay_sym. apply sameDay_valid_r. Qed.

End GroupInvariantFacts.

(** X4: whatever the transactions and their order (sorted or not, dates
    valid or not), [groupedTransactions] puts every transaction in exactly
    one group: the members of the groups together are a permutation of the
    input.  No group is empty; the date of a group is the date of its first
    member and every other member is on the local day of that date; the
    members of a group are in input order; the totals of a group are the
    sums of the amounts of its EXPENSE members and of its other members;
    and no two groups are on the same day. *)
Theorem groupedTransactions_partition {num : Type} {N : Number num} {host : Host}
    (sortedTransactions : list (Transaction.t num)) :
  Permutation (groupMembers (groupedTransactions sortedTransactions)) sortedTransactions
  /\ Forall wellFormedGroup (groupedTransactions sortedTransactions)
  /\ Forall (fun g => sublist (DailyGroup.transactions g) sortedTransactions)
       (groupedTransactions sortedTransactions)
  /\ daysApart (groupedTransactions sortedTransactions).
Proof. apply groupedTransactions_invariant. Qed.

(** X5: a transaction whose date does not parse is never merged with
    another one: the group it is in holds that transaction alone and
    carries its date. *)
Theorem groupedTransactions_invalid_date {num : Type} {N : Number num} {host : Host}
    (sortedTransactions : list (Transaction.t num)) (g : DailyGroup.t num)
    (t : Transaction.t num) :
  In g (groupedTransactions sortedTransactions) ->
  In t (DailyGroup.transactions g) ->
  getTime (Transaction.date t) = None ->
  DailyGroup.transactions g = [t] /\ DailyGroup.date g = Transaction.date t.
Proof.
  intros Hg Ht Hinvalid.
  destruct (groupedTransactions_invariant sortedTransactions) as (_ & Hwf & _ & _).
  rewrite List.Forall_forall in Hwf.
  destruct (Hwf g Hg) as (t0 & rest & Htr & Hdate & Hrest & _ & _).
  rewrite Htr in Ht. rewrite List.Forall_forall in Hrest.
  destruct Ht as [<- | Ht].
  - destruct rest as [|u rest]; [split; assumption|].
    exfalso. apply (sameDay_valid_l (DailyGroup.date g) (Transaction.date u)).
    + apply Hrest. left. reflexivity.
    + rewrite Hdate. exact Hinvalid.
  - exfalso. apply (sameDay_valid_r (DailyGroup.date g) (Transaction.date t)).
    + apply Hrest. exact Ht.
    + exact Hinvalid.
Qed.

Lemma groupedTransactions_invalid_date_witness :
  DailyGroup.transactions (DailyGroup.mk "yesterday" [undated] 8%float 0%float) = [undated]
  /\ DailyGroup.date (DailyGroup.mk "yesterday" [undated] 8%float 0%float)
     = Transaction.date undated.
Proof.
  apply (groupedTransactions_invalid_date (host := utcHost) [morning; undated; evening]
           (DailyGroup.mk "yesterday" [undated] 8%float 0%float) undated).
  - vm_compute. right. left. reflexivity.
  - left. reflexivity.
  - vm_compute. reflexivity.
Defined.

(* ===================================================================== *)
(** ** Deleting, editing, and the ids *)
(* ===================================================================== *)

Lemma filter_sublist {A : Type} (f : A -> bool) (l : list A) : sublist (List.filter f l) l.
Proof.
  induction l as [|x l IH]; simpl; [constructor|].
  destruct (f x); [apply sublist_skip | apply sublist_cons]; exact IH.
Qed.

Lemma filter_idem {A : Type} (f : A -> bool) (l : list A) :
  List.filter f (List.filter f l) = List.filter f l.
Proof.
  induction l as [|x l IH]; simpl; [reflexivity|].
  destruct (f x) eqn:Hx; simpl; rewrite ?Hx, IH; reflexivity.
Qed.

Lemma filter_all {A : Type} (f : A -> bool) (l : list A) :
  (forall x, In x l -> f x = true) -> List.filter f l = l.
Proof.
  induction l as [|x l IH]; intros Hf; simpl; [reflexivity|].
  rewrite (Hf x) by (left; reflexivity). f_equal. apply IH. intros y Hy. apply Hf. right. exact Hy.
Qed.

(** X6: a confirmed delete removes every transaction that carries the id of
    the edited one and nothing else; the transactions kept stay in their
    order; deleting again changes nothing; without confirmation, or with no
    transaction being edited, the list is as it was. *)
Theorem handleDeleteTransaction_removes (editingTransaction : Transaction.t float)
    (prev : list (Transaction.t float)) :
  (forall t, In t (handleDeleteTransaction (Some editingTransaction) true prev)
             <-> In t prev /\ Transaction.id t <> Transaction.id editingTransaction)
  /\ sublist (handleDeleteTransaction (Some editingTransaction) true prev) prev
  /\ handleDeleteTransaction (Some editingTransaction) true
       (handleDeleteTransaction (Some editingTransaction) true prev)
     = handleDeleteTransaction (Some editingTransaction) true prev
  /\ handleDeleteTransaction (Some editingTransaction) false prev = prev
  /\ (forall confirmed, handleDeleteTransaction None confirmed prev = prev).
Proof.
  unfold handleDeleteTransaction. split; [|split; [|split; [|split]]].
  - intros t. rewrite filter_In, negb_true_iff, String.eqb_neq. reflexivity.
  - apply filter_sublist.
  - apply filter_idem.
  - reflexivity.
  - intros confirmed. reflexivity.
Qed.

Section StoreFacts.
Context {host : Host}.

(** The form passes the guard of [handleSaveTransaction] and its date
    reads as the instant [tv]. *)
Lemma handleSaveTransaction_edits (form : Form.t) (now tv : Z) (e : Transaction.t float)
    (prev : list (Transaction.t float)) :
  Form.amount form <> "" ->
  PrimFloat.leb (parseFloat (Form.amount form)) 0%float = false ->
  Date_parse (Form.date form) = Some tv ->
  Form.editingTransaction form = Some e ->
  handleSaveTransaction form now prev
  = Normal (List.map (fun t =>
      if String.eqb (Transaction.id t) (Transaction.id e) then
        Transaction.mk (Transaction.id t) (parseFloat (Form.amount form))
          (Form.selectedCategory form) (toISOString tv) (Form.note form) (Form.type form)
      else t) prev).
Proof.
  intros Hne Hle Hdate Hedit. unfold handleSaveTransaction.
  apply String.eqb_neq in Hne. rewrite Hne, Hle, Hdate, Hedit. reflexivity.
Qed.

End StoreFacts.

(** X7: saving a new transaction and then deleting it gives back the list
    as it was, when no stored transaction carries the id minted for the
    new one (the reading of the clock). *)
Theorem create_then_delete {host : Host} (form : Form.t) (now tv : Z)
    (prev : list (Transaction.t float)) :
  Form.amount form <> "" ->
  PrimFloat.leb (parseFloat (Form.amount form)) 0%float = false ->
  Date_parse (Form.date form) = Some tv ->
  Form.editingTransaction form = None ->
  ~ In (Z_string now) (ids prev) ->
  exists created,
    handleSaveTransaction form now prev = Normal (created :: prev)
    /\ Transaction.id created = Z_string now
    /\ handleDeleteTransaction (Some created) true (created :: prev) = prev.
Proof.
  intros Hne Hle Hdate Hedit Hfresh.
  eexists. split; [apply handleSaveTransaction_creates; eassumption|].
  split; [reflexivity|].
  unfold handleDeleteTransaction. cbn [List.filter Transaction.id].
  rewrite String.eqb_refl. cbn [negb]. apply filter_all.
  intros t Ht. apply negb_true_iff, String.eqb_neq. intros Hid.
  apply Hfresh. unfold ids. rewrite <- Hid. apply in_map. exact Ht.
Qed.

Lemma create_then_delete_witness :
  exists created,
    handleSaveTransaction (host := utcHost) lunchForm 1704099600000 typedLedger
      = Normal (created :: typedLedger)
    /\ Transaction.id created = Z_string 1704099600000
    /\ handleDeleteTransaction (Some created) true (created :: typedLedger) = typedLedger.
Proof.
  apply (create_then_delete (host := utcHost) lunchForm 1704099600000 1704099600000 typedLedger).
  - discriminate.
  - vm_compute. reflexivity.
  - vm_compute. reflexivity.
  - reflexivity.
  - vm_compute. intuition discriminate.
Defined.

(** X8: saving while a transaction is being edited keeps the length of the
    list, the ids and the positions; every transaction with another id is
    untouched; every transaction with the edited id takes the fields of
    the form and keeps its id; and when no stored transaction carries the
    edited id (it was deleted meanwhile) the list is as it was. *)
Theorem edit_keeps_ids_and_others {host : Host} (form : Form.t) (now tv : Z)
    (e : Transaction.t float) (prev : list (Transaction.t float)) :
  Form.amount form <> "" ->
  PrimFloat.leb (parseFloat (Form.amount form)) 0%float = false ->
  Date_parse (Form.date form) = Some tv ->
  Form.editingTransaction form = Some e ->
  exists next,
    handleSaveTransaction form now prev = Normal next
    /\ ids next = ids prev
    /\ (forall (i : nat) t, prev !! i = Some t -> Transaction.id t <> Transaction.id e ->
          next !! i = Some t)
    /\ (forall (i : nat) t, prev !! i = Some t -> Transaction.id t = Transaction.id e ->
          next !! i
          = Some (Transaction.mk (Transaction.id t) (parseFloat (Form.amount form))
                    (Form.selectedCategory form) (toISOString tv) (Form.note form)
                    (Form.type form)))
    /\ (~ In (Transaction.id e) (ids prev) -> next = prev).
Proof.
  intros Hne Hle Hdate Hedit.
  eexists. split; [apply handleSaveTransaction_edits; eassumption|].
  repeat split.
  - unfold ids. rewrite List.map_map. apply map_ext. intros t.
    destruct (String.eqb (Transaction.id t) (Transaction.id e)); reflexivity.
  - intros i t Hi Hid. rewrite list_lookup_fmap, Hi. simpl.
    apply String.eqb_neq in Hid. rewrite Hid. reflexivity.
  - intros i t Hi Hid. rewrite list_lookup_fmap, Hi. simpl.
    apply String.eqb_eq in Hid. rewrite Hid. reflexivity.
  - intros Hnot. rewrite <- (List.map_id prev) at 2. apply map_ext_in. intros t Ht.
    destruct (String.eqb_spec (Transaction.id t) (Transaction.id e)) as [Heq|]; [|reflexivity].
    exfalso. apply Hnot. unfold ids. rewrite <- Heq. apply in_map. exact Ht.
Qed.

Lemma edit_keeps_ids_and_others_witness :
  exists next,
    handleSaveTransaction (host := utcHost) editForm 1704099600000 typedLedger = Normal next
    /\ ids next = ids typedLedger
    /\ (forall (i : nat) t, typedLedger !! i = Some t -> Transaction.id t <> "2" ->
          next !! i = Some t)
    /\ (forall (i : nat) t, typedLedger !! i = Some t -> Transaction.id t = "2" ->
          next !! i
          = Some (Transaction.mk (Transaction.id t) (parseFloat "12.50") "food"
                    (toISOString 1704099600000) "lunch" EXPENSE))
    /\ (~ In "2" (ids typedLedger) -> next = typedLedger).
Proof.
  apply (edit_keeps_ids_and_others (host := utcHost) editForm 1704099600000 1704099600000
           (Transaction.mk "2" 12.5%float "food" "2024-01-03T12:30:00.000Z" "" EXPENSE)
           typedLedger).
  - discriminate.
  - vm_compute. reflexivity.
  - vm_compute. reflexivity.
  - reflexivity.
Defined.

(** *** The ids are readings of the clock *)

Lemma to_uint_nonnil (n : N) : N.to_uint n <> Decimal.Nil.
Proof.
  rewrite <- (DecimalN.Unsigned.of_to n) at 1. rewrite DecimalN.Unsigned.to_of.
  apply DecimalFacts.unorm_nonnil.
Qed.

Lemma nat_string_inj (a b : Z) : 0 <= a -> 0 <= b -> nat_string a = nat_string b -> a = b.
Proof.
  unfold nat_string. intros Ha Hb Heq.
  apply (f_equal NilZero.uint_of_string) in Heq.
  rewrite !NilZero.usu in Heq by apply to_uint_nonnil.
  injection Heq as Heq. apply DecimalN.Unsigned.to_uint_inj in Heq.
  apply Z2N.inj in Heq; assumption.
Qed.

(** A number is printed with a digit first. *)
Lemma nat_string_head (z : Z) :
  exists c s, nat_string z = String c s /\ digit_val c <> None.
Proof.
  unfold nat_string. destruct (N.to_uint (Z.to_N z)); simpl;
    eexists _, _; (split; [reflexivity | vm_compute; discriminate]).
Qed.

Lemma Z_string_inj (a b : Z) : Z_string a = Z_string b -> a = b.
Proof.
  unfold Z_string.
  destruct (Z.ltb_spec a 0) as [Ha|Ha], (Z.ltb_spec b 0) as [Hb|Hb]; intros Heq.
  - injection Heq as Heq. apply nat_string_inj in Heq; lia.
  - destruct (nat_string_head b) as (c & s & Hs & Hc). rewrite Hs in Heq.
    injection Heq as <- _. exfalso. apply Hc. vm_compute. reflexivity.
  - destruct (nat_string_head a) as (c & s & Hs & Hc). rewrite Hs in Heq.
    injection Heq as -> _. exfalso. apply Hc. vm_compute. reflexivity.
  - apply nat_string_inj; assumption.
Qed.

Lemma NoDup_ids_filter (f : Transaction.t float -> bool) (l : list (Transaction.t float)) :
  NoDup (ids l) -> NoDup (ids (List.filter f l)).
Proof.
  unfold ids. induction l as [|x l IH]; simpl; intros Hl; [constructor|].
  apply NoDup_cons in Hl. destruct Hl as [Hx Hl].
  destruct (f x); [|apply IH; exact Hl].
  simpl. apply NoDup_cons. split; [|apply IH; exact Hl].
  intros Hin. apply Hx. apply list_elem_of_In in Hin. apply list_elem_of_In.
  apply in_map_iff in Hin. destruct Hin as (y & Hy & Hin).
  apply in_map_iff. exists y. split; [exact Hy|]. apply filter_In in Hin. tauto.
Qed.

(** X9: the ids stay pairwise different.  When they are in the stored
    list, they are after a save whose clock reading is not among them (a
    rejected save and an edit keep the ids as they are), and after a
    delete.  Different readings of the clock give different ids. *)
Theorem unique_ids_kept {host : Host} (prev : list (Transaction.t float)) :
  NoDup (ids prev) ->
  (forall form now next,
     handleSaveTransaction form now prev = Normal next ->
     ~ In (Z_string now) (ids prev) -> NoDup (ids next))
  /\ (forall editingTransaction confirmed,
        NoDup (ids (handleDeleteTransaction editingTransaction confirmed prev)))
  /\ (forall now now', Z_string now = Z_string now' -> now = now').
Proof.
  intros Hprev. split; [|split].
  - intros form now next Hsave Hfresh. unfold handleSaveTransaction in Hsave.
    destruct (String.eqb (Form.amount form) "" || PrimFloat.leb (parseFloat (Form.amount form)) 0%float).
    { injection Hsave as <-. exact Hprev. }
    destruct (Date_parse (Form.date form)) as [tv|]; [|discriminate].
    destruct (Form.editingTransaction form) as [e|]; injection Hsave as <-.
    + replace (ids _) with (ids prev); [exact Hprev|].
      unfold ids. rewrite List.map_map. apply map_ext. intros t.
      destruct (String.eqb (Transaction.id t) (Transaction.id e)); reflexivity.
    + unfold ids. simpl. apply NoDup_cons. split; [|exact Hprev].
      intros Hin. apply Hfresh. apply list_elem_of_In. exact Hin.
  - intros [e|] confirmed; simpl; [|exact Hprev].
    destruct confirmed; [|exact Hprev]. apply NoDup_ids_filter. exact Hprev.
  - apply Z_string_inj.
Qed.

Lemma typedLedger_ids : NoDup (ids typedLedger).
Proof.
  unfold ids. simpl.
  repeat (apply NoDup_cons; split; [rewrite list_elem_of_In; simpl; intuition discriminate|]).
  constructor.
Qed.

Lemma unique_ids_kept_witness :
  (forall form now next,
     handleSaveTransaction (host := utcHost) form now typedLedger = Normal next ->
     ~ In (Z_string now) (ids typedLedger) -> NoDup (ids next))
  /\ (forall editingTransaction confirmed,
        NoDup (ids (handleDeleteTransaction editingTransaction confirmed typedLedger)))
  /\ (forall now now', Z_string now = Z_string now' -> now = now').
Proof. exact (unique_ids_kept (host := utcHost) typedLedger typedLedger_ids). Defined.

(* ===================================================================== *)
(** ** What the aggregations conserve *)
(* ===================================================================== *)

Lemma sumZ_app (l l' : list Z) : sumZ (l ++ l') = sumZ l + sumZ l'.
Proof. induction l as [|x l IH]; simpl; lia. Qed.

(** The classes of the openers partition the list: a weight summed class
    by class is the weight summed over the list. *)
Section PartitionFacts.
Context {A : Type}.
Variable same : A -> A -> bool.
Hypothesis same_sym : forall a b, same a b = same b a.
Hypothesis same_trans : forall a b c, same a b = true -> same b c = true -> same a c = true.
Hypothesis same_refl : forall a, same a a = true.
Variable w : A -> Z.

Local Abbreviation classWeight l h := (sumZ (List.map w (List.filter (same h) l))).

Lemma classWeight_snoc (l : list A) (t h : A) :
  classWeight (l ++ [t]) h = classWeight l h + (if same h t then w t else 0).
Proof.
  rewrite List.filter_app, List.map_app, sumZ_app. simpl.
  destruct (same h t); simpl; lia.
Qed.

Lemma classWeight_others (l hs : list A) (t : A) :
  (forall h, In h hs -> same h t = false) ->
  sumZ (List.map (fun h => classWeight (l ++ [t]) h) hs)
  = sumZ (List.map (fun h => classWeight l h) hs).
Proof.
  intros Hhs. induction hs as [|h hs IH]; [reflexivity|].
  cbn [List.map sumZ]. rewrite classWeight_snoc, (Hhs h) by (left; reflexivity).
  rewrite IH; [lia|]. intros h' Hh'. apply Hhs. right. exact Hh'.
Qed.

Lemma openers_partition (l : list A) :
  sumZ (List.map (fun h => classWeight l h) (openers same [] l)) = sumZ (List.map w l).
Proof using same_sym same_trans same_refl.
  induction l as [|t l IH] using rev_ind; [reflexivity|].
  rewrite openers_snoc, List.map_app, !sumZ_app. simpl.
  destruct (openers_snoc_cases same (fun _ => True) same_sym same_trans
              (fun a _ => same_refl a) l t ltac:(apply List.Forall_forall; auto))
    as [[Hopen Hnone] | [Hopen (l1 & h & l2 & Heq & Hh & Hl1 & Hl2)]]; rewrite Hopen.
  - rewrite (classWeight_others l _ t Hnone), IH. rewrite List.map_app, sumZ_app.
    cbn [List.map sumZ]. rewrite classWeight_snoc, same_refl.
    assert (Hempty : List.filter (same t) l = []).
    { apply filter_none. intros u Hu. rewrite same_sym. eapply opens_true; eauto. }
    rewrite Hempty. simpl. lia.
  - rewrite List.map_app, sumZ_app. cbn [List.map sumZ].
    rewrite <- IH, Heq, !List.map_app, !sumZ_app. cbn [List.map sumZ].
    rewrite (classWeight_others l l1 t Hl1), (classWeight_others l l2 t Hl2).
    rewrite classWeight_snoc, Hh. lia.
Qed.

End PartitionFacts.

Section ConservationFacts.
Context {num : Type} {N : Number num} {host : Host}.
Variable toZ : num -> Z.
Context {E : ExactArith toZ}.

Lemma toZ_fold_plusStep_filter (f : Transaction.t num -> bool) (l : list (Transaction.t num)) :
  toZ (fold_left plusStep (List.filter f l) zero)
  = sumZ (List.map (fun u => if f u then toZ (Transaction.amount u) else 0) l).
Proof using E.
  rewrite (fold_plusStep toZ), toZ_zero.
  induction l as [|u l IH]; [reflexivity|].
  cbn [List.filter List.map sumZ]. destruct (f u); cbn [List.map sumZ];
    unfold amountZ in *; lia.
Qed.

Lemma sumZ_map_filter {A : Type} (f : A -> bool) (w : A -> Z) (l : list A) :
  sumZ (List.map (fun u => if f u then w u else 0) l) = sumZ (List.map w (List.filter f l)).
Proof.
  induction l as [|u l IH]; [reflexivity|].
  cbn [List.filter List.map sumZ]. destruct (f u); cbn [List.map sumZ]; lia.
Qed.

(** The sums of the fields of the monthly entries before sorting. *)
Lemma monthlyEntries_sums (l : list (Transaction.t num)) :
  sumZ (List.map (fun e => toZ (MonthEntry.income e)) (monthlyEntries l))
    = sumZ (List.map (amountZ toZ) (List.filter isIncome l))
  /\ sumZ (List.map (fun e => toZ (MonthEntry.expense e)) (monthlyEntries l))
    = sumZ (List.map (amountZ toZ) (List.filter isExpense l))
  /\ sumZ (List.map (fun e => toZ (MonthEntry.surplus e)) (monthlyEntries l))
    = sumZ (List.map (signedZ toZ) l).
Proof using E.
  unfold monthlyEntries. rewrite !List.map_map. unfold monthEntry. cbn [MonthEntry.income
    MonthEntry.expense MonthEntry.surplus].
  assert (Hrefl : forall a : Transaction.t num, sameLabel a a = true)
    by (intros a; apply String.eqb_refl).
  repeat split.
  - rewrite <- sumZ_map_filter with (w := amountZ toZ).
    rewrite <- (openers_partition sameLabel sameLabel_sym sameLabel_trans Hrefl
                  (fun u => if isIncome u then amountZ toZ u else 0) l).
    f_equal. apply map_ext. intros h. rewrite toZ_fold_plusStep_filter. reflexivity.
  - rewrite <- sumZ_map_filter with (w := amountZ toZ).
    rewrite <- (openers_partition sameLabel sameLabel_sym sameLabel_trans Hrefl
                  (fun u => if isExpense u then amountZ toZ u else 0) l).
    f_equal. apply map_ext. intros h. rewrite toZ_fold_plusStep_filter.
    f_equal. apply map_ext. intros u. rewrite isIncome_isExpense. reflexivity.
  - rewrite <- (openers_partition sameLabel sameLabel_sym sameLabel_trans Hrefl
                  (signedZ toZ) l).
    f_equal. apply map_ext. intros h. rewrite (fold_signedStep toZ), toZ_zero. lia.
Qed.

End ConservationFacts.



Section GroupTotalsFacts.
Context {num : Type} {N : Number num} {host : Host}.
Variable toZ : num -> Z.
Context {E : ExactArith toZ}.

Lemma groups_sums (f : Transaction.t num -> bool) (field : DailyGroup.t num -> num)
    (groups : list (DailyGroup.t num)) :
  Forall (fun g => field g = fold_left plusStep (List.filter f (DailyGroup.transactions g)) zero)
    groups ->
  sumZ (List.map (fun g => toZ (field g)) groups)
  = sumZ (List.map (amountZ toZ) (List.filter f (groupMembers groups))).
Proof using E.
  induction 1 as [|g groups Hg Hgs IH]; [reflexivity|].
  unfold groupMembers in *. cbn [List.map concat sumZ].
  rewrite List.filter_app, List.map_app, sumZ_app, <- IH, Hg.
  rewrite (fold_plusStep toZ), toZ_zero. lia.
Qed.

End GroupTotalsFacts.



(** *** The category breakdown *)

Lemma updateFirst_sum {A : Type} (p : A -> bool) (f : A -> A) (w : A -> Z) (d : Z)
    (l l' : list A) :
  (forall x, w (f x) = w x + d) ->
  updateFirst p f l = Some l' -> sumZ (List.map w l') = sumZ (List.map w l) + d.
Proof.
  intros Hf Hu.
  destruct (updateFirst_cases p f l) as [[Hn _] | (l1 & x & l2 & -> & _ & _ & Hs)].
  - congruence.
  - rewrite Hs in Hu. injection Hu as <-.
    rewrite !List.map_app, !sumZ_app. cbn [List.map sumZ]. rewrite Hf. lia.
Qed.

Lemma updateFirst_map {A B : Type} (p : A -> bool) (f : A -> A) (g : A -> B) (l l' : list A) :
  (forall x, g (f x) = g x) ->
  updateFirst p f l = Some l' -> List.map g l' = List.map g l.
Proof.
  intros Hf Hu.
  destruct (updateFirst_cases p f l) as [[Hn _] | (l1 & x & l2 & -> & _ & _ & Hs)].
  - congruence.
  - rewrite Hs in Hu. injection Hu as <-.
    rewrite !List.map_app. cbn [List.map]. rewrite Hf. reflexivity.
Qed.

Section BreakdownSums.
Context {num : Type} {N : Number num}.
Variable t : string -> string.

Lemma fold_expenseStep_names (l : list (Transaction.t num)) :
  NoDup (List.map ExpenseEntry.name (fold_left (expenseStep t) l [])).
Proof.
  induction l as [|curr l IH] using rev_ind; [constructor|].
  rewrite fold_left_app. cbn [fold_left]. unfold expenseStep at 1.
  destruct (findCategory (Transaction.categoryId curr)) as [category|]; [|exact IH].
  match goal with |- context [updateFirst ?p ?f ?acc] =>
    destruct (updateFirst_cases p f acc) as [[Hu Hnone] | (l1 & x & l2 & Heq & _ & _ & Hu)];
    rewrite Hu end.
  - rewrite List.map_app. cbn [List.map ExpenseEntry.name].
    apply NoDup_app. split; [exact IH|].
    split; [|apply NoDup_singleton].
    intros n Hn Hn'. apply list_elem_of_In in Hn.
    apply list_elem_of_In in Hn'. destruct Hn' as [<- | []].
    apply in_map_iff in Hn. destruct Hn as (e & He & Hin).
    specialize (Hnone e Hin). cbv beta in Hnone. rewrite He, String.eqb_refl in Hnone.
    discriminate.
  - replace (List.map ExpenseEntry.name _)
      with (List.map ExpenseEntry.name (fold_left (expenseStep t) l [])); [exact IH|].
    rewrite Heq, !List.map_app. reflexivity.
Qed.

Variable toZ : num -> Z.
Context {E : ExactArith toZ}.

Lemma fold_expenseStep_sum (l : list (Transaction.t num)) :
  sumZ (List.map (fun e => toZ (ExpenseEntry.value e)) (fold_left (expenseStep t) l []))
  = sumZ (List.map (amountZ toZ) (List.filter resolvable l)).
Proof using E.
  induction l as [|curr l IH] using rev_ind; [reflexivity|].
  rewrite fold_left_app, List.filter_app, List.map_app, sumZ_app, <- IH.
  cbn [fold_left List.filter]. unfold expenseStep at 1, resolvable at 1.
  destruct (findCategory (Transaction.categoryId curr)) as [category|]; [|simpl; lia].
  cbn [List.map sumZ]. unfold amountZ at 1.
  match goal with |- context [updateFirst ?p ?f ?acc] =>
    destruct (updateFirst p f acc) as [acc'|] eqn:Hu end.
  - pose proof (updateFirst_sum _ _ (fun e => toZ (ExpenseEntry.value e))
                  (toZ (Transaction.amount curr)) _ _
                  (fun x => toZ_add (ExpenseEntry.value x) (Transaction.amount curr)) Hu) as Hs.
    rewrite Hs. lia.
  - rewrite List.map_app, sumZ_app. simpl. lia.
Qed.

End BreakdownSums.


Example expenseData_sum_example :
  sumZ (List.map ExpenseEntry.value (expenseData untranslated yearLedger)) = 75
  /\ totalExpense yearLedger = 75.
Proof. vm_compute. split; reflexivity. Qed.

(* ===================================================================== *)
(** ** The trend, the balance and the current month *)
(* ===================================================================== *)

Section TrendBalanceFacts.
Context {num : Type} {N : Number num} {host : Host}.
Variable toZ : num -> Z.
Context {E : ExactArith toZ}.

(** Every transaction is dated before the year, in it, or outside the trend. *)
Lemma trend_split (l : list (Transaction.t num)) (Y : Z) :
  sumZ (List.map (signedZ toZ) l)
  = sumZ (List.map (signedZ toZ) (List.filter (beforeYear Y) l))
    + sumZ (List.map (signedZ toZ) (List.filter (inYear Y) l))
    + sumZ (List.map (signedZ toZ) (List.filter (outsideTrend Y) l)).
Proof.
  induction l as [|tx l IH]; [reflexivity|].
  rewrite !(sumZ_filter_cons toZ). cbn [List.map sumZ]. rewrite IH.
  assert (Hex : beforeYear Y tx = true -> inYear Y tx = false).
  { unfold beforeYear, inYear, strictEq.
    destruct (getFullYear (Transaction.date tx)) as [y|]; [|discriminate].
    intros Hlt. apply Z.ltb_lt in Hlt. apply Z.eqb_neq. lia. }
  unfold outsideTrend.
  destruct (beforeYear Y tx) eqn:Hb; [rewrite (Hex eq_refl)|destruct (inYear Y tx)];
    cbn [negb andb]; lia.
Qed.

Lemma december_balance (l : list (Transaction.t num)) (Y : Z) (p11 : NetAssetPoint.t num) :
  netAssetData l Y !! 11%nat = Some p11 ->
  toZ (NetAssetPoint.netAsset p11)
  = toZ (totalBalance l) - sumZ (List.map (signedZ toZ) (List.filter (outsideTrend Y) l)).
Proof using E.
  intros H11. unfold netAssetData in H11.
  rewrite (netAssetFrom_cumulative toZ _ _ _ _ _ _ H11).
  change (take 12 months) with months. rewrite (months_partition toZ).
  unfold initialBalance, totalBalance. rewrite !(fold_signedStep toZ), toZ_zero.
  rewrite (trend_split l Y). lia.
Qed.

End TrendBalanceFacts.



Example december_example :
  option_map NetAssetPoint.netAsset (netAssetData (host := utcHost) yearLedger 2024 !! 11%nat)
    = Some 525
  /\ totalBalance yearLedger = 595
  /\ List.map Transaction.id (List.filter (outsideTrend (host := utcHost) 2024) yearLedger)
     = ["5"].
Proof. vm_compute. repeat split; reflexivity. Qed.

Section CurrentMonthFacts.
Context {num : Type} {N : Number num} {host : Host}.

Lemma inCurrentMonth_inMonth (now : Z) (tx : Transaction.t num) :
  inCurrentMonth now tx
  = inMonth (YearFromTime (LocalTime now)) (MonthFromTime (LocalTime now)) tx.
Proof. unfold inCurrentMonth, inMonth. apply andb_comm. Qed.

Lemma filter_filter_andb {A : Type} (f g : A -> bool) (l : list A) :
  List.filter f (List.filter g l) = List.filter (fun x => f x && g x) l.
Proof.
  induction l as [|x l IH]; [reflexivity|].
  cbn [List.filter]. destruct (g x); cbn [List.filter]; rewrite ?andb_true_r, ?andb_false_r;
    [destruct (f x)|]; rewrite IH; reflexivity.
Qed.

Lemma currentMonthSavings_expense (now : Z) (l : list (Transaction.t num)) :
  currentMonthSavings now l
  = sub (fold_left plusStep (List.filter isIncome (List.filter (inCurrentMonth now) l)) zero)
        (currentMonthExpense now l).
Proof.
  unfold currentMonthSavings, currentMonthExpense. f_equal. f_equal.
  rewrite filter_filter_andb. apply filter_ext. intros tx.
  unfold inCurrentMonth. rewrite andb_assoc. reflexivity.
Qed.

End CurrentMonthFacts.


Example currentMonth_example :
  currentMonthSavings (host := utcHost) 1710000000000 yearLedger = -30
  /\ currentMonthExpense (host := utcHost) 1710000000000 yearLedger = 30
  /\ toISOString 1710000000000 = "2024-03-09T16:00:00.000Z".
Proof. vm_compute. repeat split; reflexivity. Qed.

(* ===================================================================== *)
(** ** The catalog *)
(* ===================================================================== *)

Lemma find_some_In {A : Type} (f : A -> bool) (l : list A) (x : A) :
  List.find f l = Some x -> In x l /\ f x = true.
Proof. apply find_some. Qed.

(** X15: looking a category up by id.  Every catalog category is found
    under its own id; whatever is found carries the id asked for and is in
    the catalog; the expense categories are of type EXPENSE and the income
    categories of type INCOME.  The list item always has a category of the
    catalog to show: the one found, or the first of the catalog (food)
    when the id is unknown, where the CSV export and the advisor show the
    unknown id itself. *)
Theorem catalog_lookup {num : Type} (transaction : Transaction.t num) :
  (forall c, In c ALL_CATEGORIES -> findCategory (Category.id c) = Some c)
  /\ (forall k c, findCategory k = Some c -> Category.id c = k /\ In c ALL_CATEGORIES)
  /\ (forall c, In c EXPENSE_CATEGORIES -> Category.type c = EXPENSE)
  /\ (forall c, In c INCOME_CATEGORIES -> Category.type c = INCOME)
  /\ (exists c, itemCategory transaction = Some c /\ In c ALL_CATEGORIES
                /\ (findCategory (Transaction.categoryId transaction) = Some c
                    \/ (findCategory (Transaction.categoryId transaction) = None
                        /\ Category.id c = "food")))
  /\ (forall c, findCategory (Transaction.categoryId transaction) = Some c ->
        categoryLabel transaction = Category.name c)
  /\ (findCategory (Transaction.categoryId transaction) = None ->
        categoryLabel transaction = Transaction.categoryId transaction).
Proof.
  assert (Hfound : forall k c, findCategory k = Some c -> Category.id c = k /\ In c ALL_CATEGORIES).
  { intros k c Hc. apply find_some_In in Hc. destruct Hc as [Hin Hk].
    apply String.eqb_eq in Hk. split; assumption. }
  split; [|split; [exact Hfound|split; [|split; [|split; [|split]]]]].
  - intros c Hc. unfold ALL_CATEGORIES, EXPENSE_CATEGORIES, INCOME_CATEGORIES in Hc.
    cbn [app] in Hc.
    repeat (destruct Hc as [<- | Hc]; [vm_compute; reflexivity|]). contradiction.
  - intros c Hc. unfold EXPENSE_CATEGORIES in Hc.
    repeat (destruct Hc as [<- | Hc]; [reflexivity|]). contradiction.
  - intros c Hc. unfold INCOME_CATEGORIES in Hc.
    repeat (destruct Hc as [<- | Hc]; [reflexivity|]). contradiction.
  - unfold itemCategory.
    destruct (findCategory (Transaction.categoryId transaction)) as [c|] eqn:Hc.
    + exists c. split; [reflexivity|]. split; [apply (Hfound _ _ Hc) | left; reflexivity].
    + eexists. split; [reflexivity|]. split; [left; reflexivity | right; split; reflexivity].
  - intros c Hc. unfold categoryLabel. rewrite Hc.
    destruct (Hfound _ _ Hc) as [_ Hin].
    unfold ALL_CATEGORIES, EXPENSE_CATEGORIES, INCOME_CATEGORIES in Hin. cbn [app] in Hin.
    repeat (destruct Hin as [<- | Hin]; [reflexivity|]). contradiction.
  - intros Hc. unfold categoryLabel. rewrite Hc. reflexivity.
Qed.

(* ===================================================================== *)
(** ** The progress towards the savings goal *)
(* ===================================================================== *)

Lemma SFcompare_antisym (x y : spec_float) (c : comparison) :
  SFcompare x y = Some c -> SFcompare y x = Some (CompOpp c).
Proof.
  destruct x as [sx|sx| |sx mx ex], y as [sy|sy| |sy my ey]; simpl;
    intros [= <-]; try reflexivity;
    try (destruct sx; reflexivity); try (destruct sy; reflexivity);
    try (destruct sx, sy; reflexivity).
  destruct sx, sy; try reflexivity;
    rewrite (Z.compare_antisym ex ey); destruct (ex ?= ey); simpl; try reflexivity;
    change (PosDef.Pos.compare_cont Eq my mx) with (Pos.compare my mx);
    change (PosDef.Pos.compare_cont Eq mx my) with (Pos.compare mx my);
    rewrite (Pos.compare_antisym mx my); destruct (mx ?= my)%positive; reflexivity.
Qed.

Lemma is_nan_false (x y : float) :
  PrimFloat.is_nan x = false -> PrimFloat.is_nan y = false ->
  exists c, SFcompare (Prim2SF x) (Prim2SF y) = Some c.
Proof.
  unfold PrimFloat.is_nan. intros Hx Hy.
  rewrite negb_false_iff, FloatAxioms.eqb_spec in Hx, Hy. unfold SFeqb in Hx, Hy.
  destruct (Prim2SF x) as [sx|sx| |sx mx ex], (Prim2SF y) as [sy|sy| |sy my ey];
    simpl in *; try discriminate; eexists; reflexivity.
Qed.

(** On numbers, what is not less is greater or equal. *)
Lemma float_not_lt (x y : float) :
  PrimFloat.is_nan x = false -> PrimFloat.is_nan y = false ->
  PrimFloat.ltb x y = false -> PrimFloat.leb y x = true.
Proof.
  intros Hx Hy. rewrite FloatAxioms.ltb_spec, FloatAxioms.leb_spec. unfold SFltb, SFleb.
  destruct (is_nan_false x y Hx Hy) as [c Hc]. rewrite Hc, (SFcompare_antisym _ _ _ Hc).
  destruct c; simpl; congruence.
Qed.

Lemma Math_max_zero (x : float) :
  PrimFloat.is_nan x = false ->
  PrimFloat.is_nan (Math_max x 0%float) = false
  /\ PrimFloat.leb 0%float (Math_max x 0%float) = true.
Proof.
  intros Hx. unfold Math_max. rewrite Hx. cbn [orb].
  change (PrimFloat.is_nan 0%float) with false. cbv iota.
  change (classify 0%float) with FloatClass.PZero. cbv iota.
  assert (Hlt : (PrimFloat.is_nan (if PrimFloat.ltb x 0%float then 0%float else x) = false
                 /\ PrimFloat.leb 0%float (if PrimFloat.ltb x 0%float then 0%float else x) = true)).
  { destruct (PrimFloat.ltb x 0%float) eqn:Hc; [split; reflexivity|].
    split; [exact Hx | apply float_not_lt; auto]. }
  destruct (classify x); try exact Hlt. split; reflexivity.
Qed.

Lemma Math_min_hundred (m : float) :
  PrimFloat.is_nan m = false -> PrimFloat.leb 0%float m = true ->
  PrimFloat.is_nan (Math_min m 100%float) = false
  /\ PrimFloat.leb 0%float (Math_min m 100%float) = true
  /\ PrimFloat.leb (Math_min m 100%float) 100%float = true.
Proof.
  intros Hm H0. unfold Math_min. rewrite Hm. cbn [orb].
  change (PrimFloat.is_nan 100%float) with false. cbv iota.
  change (classify 100%float) with FloatClass.PNormal. cbv iota.
  destruct (PrimFloat.ltb 100%float m) eqn:Hc.
  - repeat split; reflexivity.
  - repeat split; auto. apply float_not_lt; auto.
Qed.

(** X16: the progress shown on the savings-goal card is 0 when there is no
    goal (the goal is not greater than 0); with a goal it is NaN exactly
    when the rate [currentMonthSavings / savingsGoal * 100] is NaN, and
    otherwise it lies between 0 and 100, whatever the savings (negative,
    or beyond the goal). *)
Theorem progressPercent_bounds (currentMonthSavings savingsGoal : float) :
  (hasGoal savingsGoal = false -> progressPercent currentMonthSavings savingsGoal = 0%float)
  /\ (hasGoal savingsGoal = true ->
      PrimFloat.is_nan
        (PrimFloat.mul (PrimFloat.div currentMonthSavings savingsGoal) 100%float) = true ->
      PrimFloat.is_nan (progressPercent currentMonthSavings savingsGoal) = true)
  /\ (PrimFloat.is_nan
        (PrimFloat.mul (PrimFloat.div currentMonthSavings savingsGoal) 100%float) = false ->
      PrimFloat.is_nan (progressPercent currentMonthSavings savingsGoal) = false
      /\ PrimFloat.leb 0%float (progressPercent currentMonthSavings savingsGoal) = true
      /\ PrimFloat.leb (progressPercent currentMonthSavings savingsGoal) 100%float = true).
Proof.
  unfold progressPercent. split; [|split].
  - intros ->. reflexivity.
  - intros -> Hnan. unfold Math_max. rewrite Hnan. reflexivity.
  - intros Hnum. destruct (hasGoal savingsGoal); [|repeat split; reflexivity].
    destruct (Math_max_zero _ Hnum) as [Hm H0]. apply Math_min_hundred; assumption.
Qed.

Example progressPercent_examples :
  progressPercent 50%float 200%float = 25%float
  /\ progressPercent 500%float 200%float = 100%float
  /\ progressPercent (-30)%float 200%float = 0%float
  /\ progressPercent 50%float 0%float = 0%float
  /\ PrimFloat.is_nan (progressPercent nan 200%float) = true
  /\ isGoalMet 500%float 200%float = true
  /\ isGoalMet nan 200%float = false.
Proof. vm_compute. repeat split; reflexivity. Qed.

(* ===================================================================== *)
(** ** Reading the model's answer *)
(* ===================================================================== *)

Lemma getProperty_object (result : JSON) (key : string) (v : option JSON) :
  getProperty result "amount" = Normal v -> exists w, getProperty result key = Normal w.
Proof. destruct result; simpl; intros H; try discriminate; eexists; reflexivity. Qed.

Lemma toLowerCase_names (c c' : Category.t) :
  In c ALL_CATEGORIES -> In c' ALL_CATEGORIES ->
  toLowerCase (Category.name c) = toLowerCase (Category.name c') -> c = c'.
Proof.
  unfold ALL_CATEGORIES, EXPENSE_CATEGORIES, INCOME_CATEGORIES. cbn [app].
  intros Hc Hc'.
  repeat (destruct Hc as [<- | Hc]);
    try contradiction;
    repeat (destruct Hc' as [<- | Hc']); try contradiction;
    vm_compute; intros H; try reflexivity; discriminate.
Qed.

Lemma find_unique {A : Type} (f : A -> bool) (l : list A) (x : A) :
  In x l -> f x = true -> (forall y, In y l -> f y = true -> y = x) -> List.find f l = Some x.
Proof.
  induction l as [|y l IH]; intros Hin Hx Hu; [contradiction|].
  simpl. destruct (f y) eqn:Hy.
  - f_equal. apply Hu; [left; reflexivity | exact Hy].
  - destruct Hin as [-> | Hin]; [congruence|].
    apply IH; auto. intros z Hz. apply Hu. right. exact Hz.
Qed.


Example parseTransactionInput_examples :
  option_map Parsed.categoryId
    (parseTransactionInput
       (JObject [("amount", JNumber 4.5%float); ("categoryName", JString "COFFEE");
                 ("type", JString "EXPENSE"); ("note", JString "latte")]) 0)
    = Some "coffee"
  /\ option_map Parsed.categoryId
       (parseTransactionInput
          (JObject [("amount", JNumber 900%float); ("categoryName", JString "Bonus");
                    ("type", JString "INCOME"); ("note", JString "")]) 0)
     = Some "other_income"
  /\ parseTransactionInput (JObject [("amount", JNumber 0%float)]) 0 = None
  /\ parseTransactionInput (JObject []) 0 = None
  /\ parseTransactionInput
       (JObject [("amount", JNumber 4.5%float); ("categoryName", JNumber 3%float)]) 0
     = None.
Proof. vm_compute. repeat split; reflexivity. Qed.

(* ===================================================================== *)
(** ** Dates written and read back *)
(* ===================================================================== *)

Ltac split_ifs :=
  repeat match goal with |- context [if ?b then _ else _] =>
    let H := fresh "H" in destruct b eqn:H;
    [ first [apply Z.ltb_lt in H | apply Z.leb_le in H]
    | first [apply Z.ltb_ge in H | apply Z.leb_gt in H] ] end.

Lemma civil_from_days_spec (z : Z) :
  exists Y doy mp,
    civil_from_days z
    = (Y + (if mp <? 10 then 0 else 1), (if mp <? 10 then mp + 3 else mp - 9),
       doy - (153 * mp + 2) / 5 + 1)
    /\ z = marchDays Y + doy - 719468
    /\ 0 <= doy < marchDays (Y + 1) - marchDays Y
    /\ mp = (5 * doy + 2) / 153 /\ 0 <= mp <= 11.
Proof.
  unfold civil_from_days. cbv zeta.
  set (z' := z + 719468). set (era := z' / 146097). set (doe := z' - era * 146097).
  set (yoe := (doe - doe / 1460 + doe / 36524 - doe / 146096) / 365).
  set (doy := doe - (365 * yoe + yoe / 4 - yoe / 100)).
  set (mp := (5 * doy + 2) / 153).
  assert (Hdoe : 0 <= doe < 146097) by (subst doe era; Z.to_euclidean_division_equations; lia).
  assert (Hyoe : 0 <= yoe <= 399 /\ 0 <= doy <= 365
                 /\ doe < 365 * (yoe + 1) + (yoe + 1) / 4 - (yoe + 1) / 100 + (yoe + 1) / 400).
  { clearbody doe. subst doy yoe. Z.to_euclidean_division_equations; lia. }
  assert (Hmp : 0 <= mp <= 11) by (subst mp; Z.to_euclidean_division_equations; lia).
  exists (yoe + era * 400), doy, mp.
  split.
  { f_equal. f_equal. split_ifs; lia. }
  assert (Hz : z = era * 146097 + doe - 719468) by (subst doe z'; lia).
  assert (HG : marchDays (yoe + era * 400) = era * 146097 + 365 * yoe + yoe / 4 - yoe / 100
               /\ marchDays (yoe + 1 + era * 400)
                  = era * 146097 + 365 * (yoe + 1) + (yoe + 1) / 4 - (yoe + 1) / 100
                    + (yoe + 1) / 400).
  { unfold marchDays. destruct Hyoe as [Hy _]. clearbody yoe era.
    split; Z.to_euclidean_division_equations; lia. }
  destruct HG as [HG0 HG1].
  replace (yoe + era * 400 + 1) with (yoe + 1 + era * 400) by lia.
  rewrite HG0, HG1.
  split; [subst doy; lia|]. split; [subst doy; lia|].
  split; [reflexivity | exact Hmp].
Qed.

Lemma days_from_civil_closed (y m d : Z) :
  days_from_civil y m d
  = marchDays (if m <=? 2 then y - 1 else y)
    + (153 * (if 2 <? m then m - 3 else m + 9) + 2) / 5 + d - 1 - 719468.
Proof.
  unfold days_from_civil, marchDays. cbv zeta.
  generalize (if m <=? 2 then y - 1 else y). intros Y.
  generalize ((153 * (if 2 <? m then m - 3 else m + 9) + 2) / 5). intros k.
  Z.to_euclidean_division_equations; lia.
Qed.

(** The civil date of a day is a date of the calendar, and it is the date
    of that day. *)
Lemma civil_round_trip (z : Z) :
  exists y m d,
    civil_from_days z = (y, m, d)
    /\ days_from_civil y m d = z /\ 1 <= m <= 12 /\ 1 <= d <= DaysInMonth y m.
Proof.
  destruct (civil_from_days_spec z) as (Y & doy & mp & -> & Hz & Hdoy & Hmp & Hr).
  eexists _, _, _. split; [reflexivity|].
  unfold DaysInMonth. rewrite !days_from_civil_closed.
  assert (Hc : mp = 0 \/ mp = 1 \/ mp = 2 \/ mp = 3 \/ mp = 4 \/ mp = 5 \/ mp = 6
               \/ mp = 7 \/ mp = 8 \/ mp = 9 \/ mp = 10 \/ mp = 11) by lia.
  clear Hr.
  repeat (destruct Hc as [Hc | Hc]); rewrite Hc in *; clear Hc;
    cbn [Z.ltb Z.leb Z.compare Pos.compare Pos.compare_cont];
    repeat match goal with
    | |- context [marchDays ?a] =>
        first [ constr_eq a Y; fail 1 | constr_eq a (Y + 1); fail 1
              | replace (marchDays a) with (marchDays Y)
                  by (f_equal; split_ifs; Z.to_euclidean_division_equations; lia)
              | replace (marchDays a) with (marchDays (Y + 1))
                  by (f_equal; split_ifs; Z.to_euclidean_division_equations; lia) ]
    end.
  all: revert Hz Hdoy; generalize (marchDays (Y + 1)); generalize (marchDays Y);
    intros G0 G1 Hz Hdoy.
  all: split_ifs; Z.to_euclidean_division_equations; lia.
Qed.

(** The year of a day within the range of time values has at most six digits. *)
Lemma civil_year_range (z : Z) :
  -100000000 <= z <= 100000000 -> -271821 <= fst (fst (civil_from_days z)) <= 275760.
Proof.
  intros Hz. destruct (civil_from_days_spec z) as (Y & doy & mp & -> & Hz' & Hdoy & Hmp & Hr).
  cbn [fst]. unfold marchDays in *. split_ifs; Z.to_euclidean_division_equations; lia.
Qed.

(** *** Reading what was printed *)

Lemma chars_app (a b : string) :
  list_ascii_of_string (a ++ b) = list_ascii_of_string a ++ list_ascii_of_string b.
Proof. induction a as [|c a IH]; simpl; [reflexivity | rewrite IH; reflexivity]. Qed.

Lemma string_length_app (a b : string) :
  String.length (a ++ b) = (String.length a + String.length b)%nat.
Proof. induction a as [|c a IH]; simpl; [reflexivity | rewrite IH; reflexivity]. Qed.

Lemma chars_length (s : string) : length (list_ascii_of_string s) = String.length s.
Proof. induction s as [|c s IH]; simpl; [reflexivity | rewrite IH; reflexivity]. Qed.

Lemma take_digits_add (a b : nat) : forall (s : list ascii) (acc : Z),
  take_digits (a + b) s acc
  = match take_digits a s acc with
    | Some (v, s') => take_digits b s' v
    | None => None
    end.
Proof.
  induction a as [|a IH]; intros s acc; [reflexivity|].
  cbn [Nat.add take_digits]. destruct s as [|c s]; [reflexivity|].
  destruct (digit_val c); [apply IH | reflexivity].
Qed.

Lemma take_digits_zeros (m : nat) (s : list ascii) :
  take_digits m (list_ascii_of_string (zeros m) ++ s) 0 = Some (0, s).
Proof. induction m as [|m IH]; [reflexivity|]. cbn. exact IH. Qed.

Lemma take_digits_uint (d : Decimal.uint) : forall (r : list ascii) (acc : Z),
  take_digits (Decimal.nb_digits d) (list_ascii_of_string (NilEmpty.string_of_uint d) ++ r) acc
  = Some (uint_value d acc, r).
Proof. induction d; intros r acc; cbn; [reflexivity | apply IHd ..]. Qed.

Lemma uint_value_pos (d : Decimal.uint) : forall acc : positive,
  uint_value d (Z.pos acc) = Z.pos (Pos.of_uint_acc d acc).
Proof.
  induction d; intros acc; cbn [uint_value Pos.of_uint_acc]; [reflexivity | ..];
    match goal with |- uint_value _ ?a = Z.pos (Pos.of_uint_acc _ ?p) =>
      replace a with (Z.pos p) by lia; apply IHd end.
Qed.

Lemma uint_value_of_uint (d : Decimal.uint) : uint_value d 0 = Z.of_N (N.of_uint d).
Proof.
  unfold N.of_uint. induction d; cbn [uint_value Pos.of_uint]; [reflexivity | exact IHd | ..];
    match goal with |- uint_value _ ?a = Z.of_N (N.pos (Pos.of_uint_acc _ ?p)) =>
      change a with (Z.pos p); apply uint_value_pos end.
Qed.

Lemma uint_value_lower (d : Decimal.uint) : forall acc : Z,
  0 <= acc -> acc * 10 ^ Z.of_nat (Decimal.nb_digits d) <= uint_value d acc.
Proof.
  induction d; intros acc Hacc; cbn [uint_value Decimal.nb_digits];
    [rewrite Z.pow_0_r; lia | ..];
    (rewrite Nat2Z.inj_succ, Z.pow_succ_r by lia;
     etransitivity; [|apply IHd; lia];
     assert (0 < 10 ^ Z.of_nat (Decimal.nb_digits d)) by (apply Z.pow_pos_nonneg; lia); nia).
Qed.

Lemma nzhead_D0 (d u : Decimal.uint) : Decimal.nzhead d <> Decimal.D0 u.
Proof. induction d; cbn; try discriminate. exact IHd. Qed.

Lemma to_uint_digits (n : N) (k : nat) :
  (1 <= k)%nat -> Z.of_N n < 10 ^ Z.of_nat k -> (Decimal.nb_digits (N.to_uint n) <= k)%nat.
Proof.
  intros Hk Hn.
  pose proof (uint_value_of_uint (N.to_uint n)) as Hv.
  rewrite DecimalN.Unsigned.of_to in Hv.
  assert (Hnorm : N.to_uint n = Decimal.unorm (N.to_uint n)).
  { rewrite <- (DecimalN.Unsigned.of_to n) at 1. apply DecimalN.Unsigned.to_of. }
  revert Hv. rewrite Hnorm. unfold Decimal.unorm.
  pose proof (nzhead_D0 (N.to_uint n)) as Hnz.
  destruct (Decimal.nzhead (N.to_uint n)) as [|u|u|u|u|u|u|u|u|u|u];
    try (exfalso; apply (Hnz u); reflexivity);
    [cbn; lia | ..];
    (cbn [uint_value Decimal.nb_digits]; intros Hv;
     match type of Hv with uint_value _ ?a = _ =>
       pose proof (uint_value_lower u a ltac:(lia)) as Hl end;
     assert (H10 : 10 ^ Z.of_nat (Decimal.nb_digits u) < 10 ^ Z.of_nat k)
       by (assert (0 < 10 ^ Z.of_nat (Decimal.nb_digits u)) by (apply Z.pow_pos_nonneg; lia);
           nia);
     apply Z.pow_lt_mono_r_iff in H10; lia).
Qed.

Lemma string_of_uint_length (d : Decimal.uint) :
  String.length (NilEmpty.string_of_uint d) = Decimal.nb_digits d.
Proof. induction d; cbn; [reflexivity | rewrite IHd; reflexivity ..]. Qed.

Lemma nat_string_NilEmpty (z : Z) :
  nat_string z = NilEmpty.string_of_uint (N.to_uint (Z.to_N z)).
Proof.
  unfold nat_string. pose proof (to_uint_nonnil (Z.to_N z)) as Hn.
  destruct (N.to_uint (Z.to_N z)); [congruence | reflexivity ..].
Qed.

(** A number below [10^k] padded to [k] digits reads back as the number. *)
Lemma take_digits_padded (k : nat) (n : Z) (r : list ascii) :
  (1 <= k)%nat -> 0 <= n < 10 ^ Z.of_nat k ->
  take_digits k (list_ascii_of_string (padStart k (nat_string n)) ++ r) 0 = Some (n, r)
  /\ String.length (padStart k (nat_string n)) = k.
Proof.
  intros Hk Hn. unfold padStart. rewrite nat_string_NilEmpty.
  set (d := N.to_uint (Z.to_N n)).
  assert (Hd : (Decimal.nb_digits d <= k)%nat).
  { apply to_uint_digits; [exact Hk | rewrite Z2N.id; lia]. }
  rewrite string_of_uint_length. split.
  - rewrite chars_app, <- app_assoc.
    replace k with ((k - Decimal.nb_digits d) + Decimal.nb_digits d)%nat at 1 by lia.
    rewrite take_digits_add, take_digits_zeros, take_digits_uint.
    rewrite uint_value_of_uint. unfold d. rewrite DecimalN.Unsigned.of_to, Z2N.id; [reflexivity | lia].
  - rewrite string_length_app, string_of_uint_length.
    assert (Hz : forall m, String.length (zeros m) = m)
      by (induction m as [|m IH]; [reflexivity | cbn; rewrite IH; reflexivity]).
    rewrite Hz. lia.
Qed.

Lemma take_digits_head (k : nat) (c : ascii) (s : list ascii) (acc : Z) (v : Z * list ascii) :
  take_digits (S k) (c :: s) acc = Some v -> digit_val c <> None.
Proof. cbn [take_digits]. destruct (digit_val c); [discriminate | discriminate]. Qed.

Lemma iso_year_digit (c : ascii) (s : list ascii) :
  digit_val c <> None -> iso_year (c :: s) = take_digits 4 (c :: s) 0.
Proof.
  unfold iso_year.
  destruct c as [[] [] [] [] [] [] [] []]; intros H; try reflexivity;
    exfalso; apply H; reflexivity.
Qed.

(** The year as [toISOString] prints it reads back as the year. *)
Lemma iso_year_printed (y : Z) (r : list ascii) :
  -999999 <= y <= 999999 ->
  iso_year
    (list_ascii_of_string
       (if (0 <=? y) && (y <=? 9999) then padStart 4 (nat_string y)
        else ((if (y <? 0)%Z then "-" else "+") ++ padStart 6 (nat_string (Z.abs y)))%string)
     ++ r)
  = Some (y, r).
Proof.
  intros Hy.
  destruct (Z.leb_spec 0 y) as [H0|H0]; cbn [andb].
  - destruct (Z.leb_spec y 9999) as [H1|H1].
    + destruct (take_digits_padded 4 y r ltac:(lia) ltac:(lia)) as [Hread Hlen].
      destruct (list_ascii_of_string (padStart 4 (nat_string y))) as [|c s] eqn:Hs.
      { apply (f_equal (@length ascii)) in Hs. rewrite chars_length, Hlen in Hs. discriminate. }
      cbn [app] in *. rewrite iso_year_digit; [exact Hread|].
      eapply take_digits_head. exact Hread.
    + destruct (Z.ltb_spec y 0) as [H2|H2]; [lia|].
      rewrite chars_app, <- app_assoc. cbn [list_ascii_of_string app iso_year].
      destruct (take_digits_padded 6 (Z.abs y) r ltac:(lia) ltac:(lia)) as [Hread _].
      rewrite Hread. f_equal. f_equal. lia.
  - destruct (Z.ltb_spec y 0) as [H2|H2]; [|lia].
    rewrite chars_app, <- app_assoc. cbn [list_ascii_of_string app iso_year].
    destruct (take_digits_padded 6 (Z.abs y) r ltac:(lia) ltac:(lia)) as [Hread _].
    rewrite Hread. destruct (Z.eqb_spec (Z.abs y) 0) as [He|He]; [lia|].
    f_equal. f_equal. lia.
Qed.

(** A year of four digits reads back as the year. *)
Lemma iso_year_printed_4 (y : Z) (r : list ascii) :
  0 <= y <= 9999 ->
  iso_year (list_ascii_of_string (padStart 4 (nat_string y)) ++ r) = Some (y, r).
Proof.
  intros Hy. pose proof (iso_year_printed y r ltac:(lia)) as H.
  replace ((0 <=? y) && (y <=? 9999)) with true in H
    by (symmetry; rewrite andb_true_iff, !Z.leb_le; lia).
  exact H.
Qed.

(** A date-time as [toISOString] lays it out reads back field by field. *)
Lemma parseISO_printed (ys Ms Ds Hs Ns Ss Ls : list ascii) (y m d h mi s ms : Z) :
  (forall r, iso_year (ys ++ r) = Some (y, r)) ->
  (forall r, take_digits 2 (Ms ++ r) 0 = Some (m, r)) ->
  (forall r, take_digits 2 (Ds ++ r) 0 = Some (d, r)) ->
  (forall r, take_digits 2 (Hs ++ r) 0 = Some (h, r)) ->
  (forall r, take_digits 2 (Ns ++ r) 0 = Some (mi, r)) ->
  (forall r, take_digits 2 (Ss ++ r) 0 = Some (s, r)) ->
  (forall r, take_digits 3 (Ls ++ r) 0 = Some (ms, r)) ->
  1 <= m <= 12 -> 1 <= d <= DaysInMonth y m ->
  0 <= h <= 23 -> 0 <= mi <= 59 -> 0 <= s <= 59 ->
  parseISO (ys ++ "-"%char :: Ms ++ "-"%char :: Ds ++ "T"%char :: Hs ++ ":"%char :: Ns
               ++ ":"%char :: Ss ++ "."%char :: Ls ++ ["Z"%char])
  = Some (MakeDay y (m - 1) d, Some (MakeTime h mi s ms, ZoneUTC)).
Proof.
  intros Hy Hm Hd Hh Hn Hsec Hl Rm Rd Rh Rn Rs.
  unfold parseISO. rewrite Hy. unfold iso_month_day. cbv beta iota.
  rewrite Hm. cbv beta iota. rewrite Hd.
  replace ((1 <=? m) && (m <=? 12) && (1 <=? d) && (d <=? DaysInMonth y m)) with true
    by (symmetry; rewrite !andb_true_iff, !Z.leb_le; lia).
  cbv beta iota. unfold iso_time. rewrite Hh.
  cbn [expect Ascii.eqb Bool.eqb]. cbv beta iota. rewrite Hn. cbv beta iota.
  rewrite Hsec. cbv beta iota. rewrite Hl.
  replace ((0 <=? s) && (s <=? 59) && (mi <=? 59)
           && ((h <=? 23) || (h =? 24) && (mi =? 0) && (s =? 0) && (ms =? 0))) with true.
  2:{ symmetry. apply andb_true_iff. split.
      - rewrite !andb_true_iff, !Z.leb_le. lia.
      - apply orb_true_iff. left. apply Z.leb_le. lia. }
  reflexivity.
Qed.

Lemma MakeDay_civil (y m d : Z) : 1 <= m <= 12 -> MakeDay y (m - 1) d = days_from_civil y m d.
Proof.
  intros Hm. unfold MakeDay.
  replace ((m - 1) / 12) with 0 by (Z.to_euclidean_division_equations; lia).
  replace ((m - 1) mod 12 + 1) with m by (Z.to_euclidean_division_equations; lia).
  replace (y + 0) with y by lia. rewrite !days_from_civil_closed. lia.
Qed.

Lemma time_fields (t : Z) :
  0 <= HourFromTime t <= 23 /\ 0 <= MinFromTime t <= 59 /\ 0 <= SecFromTime t <= 59
  /\ 0 <= msFromTime t <= 999
  /\ MakeTime (HourFromTime t) (MinFromTime t) (SecFromTime t) (msFromTime t) = TimeWithinDay t.
Proof.
  unfold HourFromTime, MinFromTime, SecFromTime, msFromTime, MakeTime, TimeWithinDay, msPerDay.
  Z.to_euclidean_division_equations; lia.
Qed.

Lemma Day_range (t : Z) :
  Z.abs t <= 8640000000000000 -> -100000000 <= Day t <= 100000000.
Proof. unfold Day, msPerDay. intros Ht. Z.to_euclidean_division_equations; lia. Qed.

(** What [toISOString] prints, [Date.parse] reads back as the same instant,
    on every host. *)
Lemma toISOString_parse {host : Host} (t : Z) :
  Z.abs t <= 8640000000000000 -> Date_parse (toISOString t) = Some t.
Proof.
  intros Ht.
  destruct (civil_round_trip (Day t)) as (y & m & d & Hc & Hdays & Hm & Hd).
  pose proof (civil_year_range (Day t) (Day_range t Ht)) as Hy. rewrite Hc in Hy. cbn [fst] in Hy.
  destruct (time_fields t) as (Rh & Rn & Rs & Rl & Htime).
  unfold Date_parse, toISOString. cbv zeta.
  unfold YearFromTime, MonthFromTime, DateFromTime. rewrite Hc. cbn [fst snd].
  replace (m - 1 + 1) with m by lia.
  rewrite !chars_app. cbn [list_ascii_of_string]. rewrite <- ?app_assoc. cbn [app].
  rewrite (parseISO_printed _ _ _ _ _ _ _ y m d (HourFromTime t) (MinFromTime t)
             (SecFromTime t) (msFromTime t)); try lia.
  - rewrite (MakeDay_civil y m d Hm), Hdays, Htime. unfold MakeDate, TimeClip.
    replace (Day t * msPerDay + TimeWithinDay t) with t
      by (unfold Day, TimeWithinDay, msPerDay; Z.to_euclidean_division_equations; lia).
    destruct (Z.leb_spec (Z.abs t) 8640000000000000); [reflexivity | lia].
  - intros r. apply iso_year_printed. lia.
  - intros r. apply (take_digits_padded 2 m r); [lia | cbn; lia].
  - intros r. apply (take_digits_padded 2 d r); [lia|].
    unfold DaysInMonth in Hd. rewrite !days_from_civil_closed in Hd.
    revert Hd. unfold marchDays. split_ifs; cbn; Z.to_euclidean_division_equations; lia.
  - intros r. apply (take_digits_padded 2 (HourFromTime t) r); [lia | cbn; lia].
  - intros r. apply (take_digits_padded 2 (MinFromTime t) r); [lia | cbn; lia].
  - intros r. apply (take_digits_padded 2 (SecFromTime t) r); [lia | cbn; lia].
  - intros r. apply (take_digits_padded 3 (msFromTime t) r); [lia | cbn; lia].
Qed.

Lemma substring_app (a b : string) : forall n : nat,
  (String.length a <= n)%nat ->
  substring 0 n (a ++ b) = (a ++ substring 0 (n - String.length a) b)%string.
Proof.
  induction a as [|c a IH]; intros n Hn; simpl.
  - rewrite Nat.sub_0_r. reflexivity.
  - simpl in Hn. destruct n as [|n]; [lia|]. simpl.
    transitivity (String c (a ++ substring 0 (n - String.length a) b));
      [f_equal; apply IH; lia | reflexivity].
Qed.

Lemma substring_0_0 (s : string) : substring 0 0 s = "".
Proof. destruct s; reflexivity. Qed.

(** A date-time to the minute, without zone, reads as a local time. *)
Lemma parseISO_minute (ys Ms Ds Hs Ns : list ascii) (y m d h mi : Z) :
  (forall r, iso_year (ys ++ r) = Some (y, r)) ->
  (forall r, take_digits 2 (Ms ++ r) 0 = Some (m, r)) ->
  (forall r, take_digits 2 (Ds ++ r) 0 = Some (d, r)) ->
  (forall r, take_digits 2 (Hs ++ r) 0 = Some (h, r)) ->
  (forall r, take_digits 2 (Ns ++ r) 0 = Some (mi, r)) ->
  1 <= m <= 12 -> 1 <= d <= DaysInMonth y m -> 0 <= h <= 23 -> 0 <= mi <= 59 ->
  parseISO (ys ++ "-"%char :: Ms ++ "-"%char :: Ds ++ "T"%char :: Hs ++ ":"%char :: Ns)
  = Some (MakeDay y (m - 1) d, Some (MakeTime h mi 0 0, ZoneLocal)).
Proof.
  intros Hy Hm Hd Hh Hn Rm Rd Rh Rn.
  unfold parseISO. rewrite Hy. unfold iso_month_day. cbv beta iota.
  rewrite Hm. cbv beta iota. rewrite Hd.
  replace ((1 <=? m) && (m <=? 12) && (1 <=? d) && (d <=? DaysInMonth y m)) with true
    by (symmetry; rewrite !andb_true_iff, !Z.leb_le; lia).
  cbv beta iota. unfold iso_time. rewrite Hh.
  cbn [expect Ascii.eqb Bool.eqb]. cbv beta iota.
  rewrite <- (app_nil_r Ns), Hn. cbv beta iota.
  replace ((0 <=? 0) && (0 <=? 59) && (mi <=? 59)
           && ((h <=? 23) || (h =? 24) && (mi =? 0) && (0 =? 0) && (0 =? 0))) with true.
  2:{ symmetry. apply andb_true_iff. split.
      - rewrite !andb_true_iff, !Z.leb_le. lia.
      - apply orb_true_iff. left. apply Z.leb_le. lia. }
  reflexivity.
Qed.

Lemma year_bounds (u : Z) :
  0 <= YearFromTime u <= 9999 -> -62167219200000 <= u < 253402300800000.
Proof.
  unfold YearFromTime.
  destruct (civil_from_days_spec (Day u)) as (Y & doy & mp & -> & Hz & Hdoy & Hmp & Hr).
  cbn [fst]. intros Hy.
  assert (Hd : -719528 <= Day u < 2932897).
  { rewrite Hz. revert Hdoy Hy. rewrite Hmp. unfold marchDays.
    split_ifs; intros; Z.to_euclidean_division_equations; lia. }
  revert Hd. unfold Day, msPerDay. intros Hd. Z.to_euclidean_division_equations; lia.
Qed.

(** The first sixteen characters of what [toISOString] prints for an
    instant of the years 0 to 9999 read, as a local time in a zone at a
    whole number of minutes from UTC, as the start of the minute. *)
Lemma local_minute_parse (offset k u : Z) :
  offset = 60000 * k -> -86400000 <= offset <= 86400000 ->
  0 <= YearFromTime u <= 9999 ->
  Date_parse (host := fixedOffsetHost offset) (substring 0 16 (toISOString u))
  = Some (startOfMinute u - offset).
Proof.
  intros Hk Ho Hyear. pose proof (year_bounds u Hyear) as Hu.
  destruct (civil_round_trip (Day u)) as (y & m & d & Hc & Hdays & Hm & Hd).
  destruct (time_fields u) as (Rh & Rn & Rs & Rl & Htime).
  assert (Hy : y = YearFromTime u) by (unfold YearFromTime; rewrite Hc; reflexivity).
  assert (Hd99 : d < 100).
  { unfold DaysInMonth in Hd. rewrite !days_from_civil_closed in Hd.
    revert Hd. unfold marchDays. split_ifs; cbn; Z.to_euclidean_division_equations; lia. }
  unfold toISOString. cbv zeta.
  unfold MonthFromTime, DateFromTime. rewrite <- Hy, Hc. cbn [fst snd].
  replace (m - 1 + 1) with m by lia.
  replace ((0 <=? y) && (y <=? 9999)) with true
    by (symmetry; rewrite andb_true_iff, !Z.leb_le; lia).
  destruct (take_digits_padded 4 y [] ltac:(lia) ltac:(lia)) as [_ Ly].
  destruct (take_digits_padded 2 m [] ltac:(lia) ltac:(cbn; lia)) as [_ Lm].
  destruct (take_digits_padded 2 d [] ltac:(lia) ltac:(cbn; lia)) as [_ Ld].
  destruct (take_digits_padded 2 (HourFromTime u) [] ltac:(lia) ltac:(cbn; lia)) as [_ Lh].
  destruct (take_digits_padded 2 (MinFromTime u) [] ltac:(lia) ltac:(cbn; lia)) as [_ Ln].
  rewrite substring_app by lia. rewrite Ly. cbn [Nat.sub].
  rewrite (substring_app "-") by (cbn; lia). cbn [String.length Nat.sub].
  rewrite substring_app by lia. rewrite Lm. cbn [Nat.sub].
  rewrite (substring_app "-") by (cbn; lia). cbn [String.length Nat.sub].
  rewrite substring_app by lia. rewrite Ld. cbn [Nat.sub].
  rewrite (substring_app "T") by (cbn; lia). cbn [String.length Nat.sub].
  rewrite substring_app by lia. rewrite Lh. cbn [Nat.sub].
  rewrite (substring_app ":") by (cbn; lia). cbn [String.length Nat.sub].
  rewrite substring_app by lia. rewrite Ln. cbn [Nat.sub]. rewrite substring_0_0.
  unfold Date_parse.
  rewrite !chars_app. cbn [list_ascii_of_string]. rewrite <- ?app_assoc. cbn [app].
  rewrite app_nil_r.
  rewrite (parseISO_minute _ _ _ _ _ y m d (HourFromTime u) (MinFromTime u)); try lia.
  - rewrite (MakeDay_civil y m d Hm), Hdays. unfold UTC, MakeDate, TimeClip. cbn [LocalTZA fixedOffsetHost].
    assert (Hs : Day u * msPerDay + MakeTime (HourFromTime u) (MinFromTime u) 0 0
                 = startOfMinute u).
    { unfold startOfMinute, HourFromTime, MinFromTime, MakeTime, TimeWithinDay, Day, msPerDay.
      Z.to_euclidean_division_equations; lia. }
    rewrite Hs.
    assert (Hb : Z.abs (startOfMinute u - offset) <= 8640000000000000).
    { unfold startOfMinute. Z.to_euclidean_division_equations; lia. }
    destruct (Z.leb_spec (Z.abs (startOfMinute u - offset)) 8640000000000000);
      [reflexivity | lia].
  - intros r. apply iso_year_printed_4. lia.
  - intros r. apply (take_digits_padded 2 m r); [lia | cbn; lia].
  - intros r. apply (take_digits_padded 2 d r); [lia | cbn; lia].
  - intros r. apply (take_digits_padded 2 (HourFromTime u) r); [lia | cbn; lia].
  - intros r. apply (take_digits_padded 2 (MinFromTime u) r); [lia | cbn; lia].
Qed.

Lemma Date_parse_range {host : Host} (s : string) (tv : Z) :
  Date_parse s = Some tv -> Z.abs tv <= 8640000000000000.
Proof.
  assert (Hclip : forall x, TimeClip x = Some tv -> Z.abs tv <= 8640000000000000).
  { intros x. unfold TimeClip. destruct (Z.leb_spec (Z.abs x) 8640000000000000); [|discriminate].
    intros [= <-]. assumption. }
  unfold Date_parse.
  destruct (parseISO (list_ascii_of_string s)) as [[day [[time [| mins |]]|]]|];
    try apply Hclip.
  destruct (legacyDateParse s); [apply Hclip | discriminate].
Qed.

(** X18: the dates the store writes are valid.  Whatever the form and the
    host, when [handleSaveTransaction] returns normally every transaction of
    the new list is one of the old list or carries a date that reads back,
    with [Date.parse], as exactly the instant the date of the form denoted;
    so a list whose dates are all valid stays so after a save, and after a
    delete. *)
Theorem saved_dates_read_back {host : Host} (form : Form.t) (now : Z)
    (prev next : list (Transaction.t float)) :
  handleSaveTransaction form now prev = Normal next ->
  (forall t, In t next ->
     In t prev
     \/ (exists tv, Date_parse (Form.date form) = Some tv
                    /\ Transaction.date t = toISOString tv
                    /\ getTime (Transaction.date t) = Some tv))
  /\ (Forall validDate prev -> Forall validDate next)
  /\ (forall editingTransaction confirmed,
        Forall validDate prev ->
        Forall validDate (handleDeleteTransaction editingTransaction confirmed prev)).
Proof.
  intros Hsave.
  assert (Hin : forall t, In t next ->
            In t prev
            \/ (exists tv, Date_parse (Form.date form) = Some tv
                           /\ Transaction.date t = toISOString tv
                           /\ getTime (Transaction.date t) = Some tv)).
  { unfold handleSaveTransaction in Hsave.
    destruct (String.eqb (Form.amount form) ""
              || PrimFloat.leb (parseFloat (Form.amount form)) 0%float).
    { injection Hsave as <-. auto. }
    destruct (Date_parse (Form.date form)) as [tv|] eqn:Hdate; [|discriminate].
    pose proof (toISOString_parse tv (Date_parse_range _ _ Hdate)) as Hback.
    destruct (Form.editingTransaction form) as [e|]; injection Hsave as <-; intros t Ht.
    - apply in_map_iff in Ht. destruct Ht as (u & <- & Hu).
      destruct (String.eqb (Transaction.id u) (Transaction.id e)); [|left; exact Hu].
      right. exists tv. repeat split. exact Hback.
    - destruct Ht as [<- | Ht]; [|left; exact Ht].
      right. exists tv. repeat split. exact Hback. }
  split; [exact Hin|]. split.
  - intros Hprev. apply List.Forall_forall. intros t Ht.
    rewrite List.Forall_forall in Hprev.
    destruct (Hin t Ht) as [Hold | (tv & _ & _ & Hget)]; [auto|].
    unfold validDate. rewrite Hget. discriminate.
  - intros e confirmed Hprev. rewrite List.Forall_forall in *.
    intros t Ht. apply Hprev.
    destruct e as [e|]; simpl in Ht; [|exact Ht].
    destruct confirmed; [|exact Ht]. apply filter_In in Ht. tauto.
Qed.

Section LocalInputFacts.
Variables offset k : Z.
Hypothesis whole_minutes : offset = 60000 * k.
Hypothesis offset_bound : -86400000 <= offset <= 86400000.

Local Abbreviation here := (fixedOffsetHost offset).

(** In a zone at a whole number of minutes from UTC the value of the
    input is the local date and time to the minute, and it reads back as
    the start of the minute of the instant. *)
Lemma toLocalInput_fixed (tv : Z) :
  0 <= YearFromTime (tv + offset) <= 9999 ->
  toLocalInput (host := here) (Some tv)
    = Normal (substring 0 16 (toISOString (tv + offset)))
  /\ Date_parse (host := here) (substring 0 16 (toISOString (tv + offset)))
     = Some (startOfMinute tv).
Proof using whole_minutes offset_bound.
  intros Hyear. pose proof (year_bounds _ Hyear) as Hu. split.
  - unfold toLocalInput, LocalTime, UTC. cbn [LocalTZA fixedOffsetHost]. cbv zeta.
    replace (Z.quot (MinFromTime (tv + offset) * 60000 - (tv - (tv + offset))) 60000)
      with (MinFromTime (tv + offset) + k).
    2:{ replace (MinFromTime (tv + offset) * 60000 - (tv - (tv + offset)))
          with ((MinFromTime (tv + offset) + k) * 60000) by lia.
        rewrite Z.quot_mul; lia. }
    destruct (time_fields (tv + offset)) as (_ & _ & _ & _ & Htime).
    replace (MakeDate (Day (tv + offset))
               (MakeTime (HourFromTime (tv + offset)) (MinFromTime (tv + offset) + k)
                  (SecFromTime (tv + offset)) (msFromTime (tv + offset))) - offset)
      with (tv + offset).
    2:{ unfold MakeDate. revert Htime. unfold MakeTime. intros Htime.
        assert (Hd : Day (tv + offset) * msPerDay + TimeWithinDay (tv + offset) = tv + offset)
          by (unfold Day, TimeWithinDay, msPerDay; Z.to_euclidean_division_equations; lia).
        lia. }
    unfold TimeClip.
    destruct (Z.leb_spec (Z.abs (tv + offset)) 8640000000000000); [reflexivity | lia].
  - rewrite (local_minute_parse offset k (tv + offset) whole_minutes offset_bound Hyear).
    f_equal. unfold startOfMinute. Z.to_euclidean_division_equations; lia.
Qed.

End LocalInputFacts.



Lemma saved_dates_read_back_witness :
  exists next,
    handleSaveTransaction (host := utcHost) lunchForm 1704099600000 typedLedger = Normal next
    /\ (forall t, In t next ->
          In t typedLedger
          \/ (exists tv, Date_parse (host := utcHost) (Form.date lunchForm) = Some tv
                         /\ Transaction.date t = toISOString tv
                         /\ getTime (host := utcHost) (Transaction.date t) = Some tv))
    /\ (Forall (validDate (host := utcHost)) typedLedger
        -> Forall (validDate (host := utcHost)) next)
    /\ (forall editingTransaction confirmed,
          Forall (validDate (host := utcHost)) typedLedger ->
          Forall (validDate (host := utcHost))
            (handleDeleteTransaction editingTransaction confirmed typedLedger)).
Proof.
  eexists. split; [vm_compute; reflexivity|].
  apply (saved_dates_read_back (host := utcHost) lunchForm 1704099600000 typedLedger).
  vm_compute. reflexivity.
Defined.


Example edit_form_example :
  handleTransactionClick (host := fixedOffsetHost 3600000) (fun _ => "7") coffeeAtNoon 0
  = Normal (Form.mk "7" "flat white" "coffee" EXPENSE "2024-01-07T10:15" (Some coffeeAtNoon))
  /\ toISOString (startOfMinute 1704618930250) = "2024-01-07T09:15:00.000Z".
Proof. vm_compute. split; reflexivity. Qed.

